(** * code-performance-visualizer: metrics aggregation, instrumentation and
      the sandbox protocol, embedded from the JavaScript sources.

    Numbers.  JavaScript has one number type.  Durations, timestamps, memory
    sizes and counters are modelled as integers, [Z] (or [nat]/[N] where the
    code can only produce naturals): the JavaScript handler measures whole
    milliseconds with [Date.now()]; the fractions of a millisecond the Python
    handler may report are outside the model.  Quotients (averages,
    percentages, the wall-clock time obtained from [process.hrtime]) are
    modelled as exact rationals [Q], without rounding.

    Text.  Strings are sequences of one-byte characters. *)

From Stdlib Require Import List String Ascii Bool Arith ZArith NArith QArith.
From Stdlib Require Import Lia Lqa Permutation Sorted.
From Stdlib Require DecimalString.
Import ListNotations.

Local Open Scope string_scope.
Local Open Scope list_scope.

(** ** Plain JavaScript objects used as dictionaries

    [OrdinaryOwnPropertyKeys]: the own keys of an object are enumerated with
    the array-index keys first, in ascending numeric order, and then the
    remaining string keys in the order in which they were created.  An object
    is kept as the list of its own properties in creation order. *)

Module JsObject.

Section Ordered.

Context {K V : Type}.
Variable key_eqb : K -> K -> bool.
Variable array_index : K -> option N.

Definition t : Type := list (K * V).

Definition empty : t := [].

Fixpoint get (o : t) (k : K) : option V :=
  match o with
  | [] => None
  | (k', v) :: rest => if key_eqb k' k then Some v else get rest k
  end.

(** Assigning to an existing key keeps its place; a new key goes last. *)
Fixpoint set (o : t) (k : K) (v : V) : t :=
  match o with
  | [] => [(k, v)]
  | (k', v') :: rest =>
      if key_eqb k' k then (k', v) :: rest else (k', v') :: set rest k v
  end.

Definition keys (o : t) : list K := map fst o.

Fixpoint insert_index (i : N) (e : K * V) (l : list (N * (K * V)))
  : list (N * (K * V)) :=
  match l with
  | [] => [(i, e)]
  | (j, e') :: rest =>
      if (i <=? j)%N then (i, e) :: l else (j, e') :: insert_index i e rest
  end.

Fixpoint index_part (o : t) : list (N * (K * V)) :=
  match o with
  | [] => []
  | e :: rest =>
      match array_index (fst e) with
      | Some i => insert_index i e (index_part rest)
      | None => index_part rest
      end
  end.

Definition named_part (o : t) : t :=
  filter (fun e => match array_index (fst e) with
                   | None => true
                   | Some _ => false
                   end) o.

(** [Object.entries] and [Object.values]. *)
Definition entries (o : t) : list (K * V) :=
  map snd (index_part o) ++ named_part o.

Definition values (o : t) : list V := map snd (entries o).

End Ordered.

(** An array index is the canonical decimal form of an integer below
    [2^32 - 1]. *)
Definition max_array_index : N := 4294967295.

Definition digit_of (c : ascii) : option N :=
  let n := N_of_ascii c in
  if ((48 <=? n) && (n <=? 57))%N then Some (n - 48)%N else None.

Fixpoint parse_digits (s : string) (acc : N) : option N :=
  match s with
  | EmptyString => Some acc
  | String c rest =>
      match digit_of c with
      | Some d => parse_digits rest (acc * 10 + d)%N
      | None => None
      end
  end.

Definition string_index (s : string) : option N :=
  match s with
  | EmptyString => None
  | String c rest =>
      if Ascii.eqb c "0"
      then match rest with EmptyString => Some 0%N | _ => None end
      else match parse_digits s 0 with
           | Some n => if (n <? max_array_index)%N then Some n else None
           | None => None
           end
  end.

(** A number used as a key ([lineExecutions[step.line]]) is converted to its
    decimal string, so a line number is an array index exactly when it is
    below the bound. *)
Definition number_index (n : N) : option N :=
  if (n <? max_array_index)%N then Some n else None.

(** The properties every plain object inherits from [Object.prototype]. *)
Definition prototype_methods : list string :=
  [ "constructor"; "hasOwnProperty"; "isPrototypeOf"; "propertyIsEnumerable";
    "toLocaleString"; "toString"; "valueOf";
    "__defineGetter__"; "__defineSetter__";
    "__lookupGetter__"; "__lookupSetter__" ].

Definition proto_accessor : string := "__proto__".

Definition mem_string (s : string) (l : list string) : bool :=
  existsb (String.eqb s) l.

End JsObject.

(** ** Trace events, as the handlers emit them *)

Module MemoryPoint.
(** [value] is the figure the aggregator reads ([heapUsed] in the JavaScript
    handler, [rss] in the Python one). *)
Record t : Type := mk
  { timestamp : Z; value : Z; allocation : Z; deallocation : Z }.
End MemoryPoint.

Module FunctionCall.
(** [caller] is absent ([None]) when the event carries no caller. *)
Record t : Type := mk
  { timestamp : Z; name : string; caller : option string;
    args : list string; duration : Z; endTimestamp : Z }.
End FunctionCall.

Module VariableState.
Record t : Type := mk
  { timestamp : Z; name : string; value : string; type : string; line : N }.
End VariableState.

Module LineExecution.
(** [duration] is read as [step.duration || 0]; an absent duration is
    [None]. *)
Record t : Type := mk
  { timestamp : Z; line : N; code : string; duration : option Z }.
End LineExecution.

Module RawMetrics.
Record t : Type := mk
  { executionTime : Q;
    memoryUsage : list MemoryPoint.t;
    functionCalls : list FunctionCall.t;
    variableStates : list VariableState.t;
    executionFlow : list LineExecution.t }.
End RawMetrics.

(** ** server/services/metricsService.js *)

Module MetricsService.

(** *** Values found in the [functionTimes] dictionary

    [functionTimes] is a plain object, so reading a name that it does not own
    falls back on [Object.prototype]: the read yields [Inherited] for the
    names every object inherits and [Undefined] otherwise.  Adding a duration
    to an inherited function yields a string ([Text]), which never compares
    greater than a number. *)

Inductive jsValue : Type :=
  | Undefined
  | NaN
  | Number (z : Z)
  | Text
  | Inherited.

Definition functionTimesObject : Type := @JsObject.t string jsValue.

Definition read (o : functionTimesObject) (k : string) : jsValue :=
  match JsObject.get String.eqb o k with
  | Some v => v
  | None =>
      if String.eqb k JsObject.proto_accessor
         || JsObject.mem_string k JsObject.prototype_methods
      then Inherited
      else Undefined
  end.

(** Assigning a primitive to [__proto__] runs the inherited setter, which
    ignores it. *)
Definition write (o : functionTimesObject) (k : string) (v : jsValue)
  : functionTimesObject :=
  if String.eqb k JsObject.proto_accessor then o
  else JsObject.set String.eqb o k v.

Definition falsy (v : jsValue) : bool :=
  match v with
  | Undefined | NaN => true
  | Number z => (z =? 0)%Z
  | Text | Inherited => false
  end.

Definition js_add (v : jsValue) (d : Z) : jsValue :=
  match v with
  | Undefined | NaN => NaN
  | Number z => Number (z + d)
  | Text | Inherited => Text
  end.

Definition js_gt (v : jsValue) (m : Z) : bool :=
  match v with
  | Number z => (z >? m)%Z
  | _ => false
  end.

(** *** calculateSummaryMetrics *)

Module Summary.
Record t : Type := mk
  { executionTime : Q;
    peakMemory : Z;
    totalFunctionCalls : nat;
    uniqueFunctions : nat;
    mostExpensiveFunction : option string;
    mostExpensiveFunctionTime : Z }.
End Summary.

(** [new Set(...)]: insertion-ordered, without repetition. *)
Definition set_add (s : list string) (x : string) : list string :=
  if JsObject.mem_string x s then s else s ++ [x].

Definition new_Set (l : list string) : list string := fold_left set_add l [].

Definition peakMemoryOf (memoryUsage : list MemoryPoint.t) : Z :=
  fold_left
    (fun max point =>
       if (MemoryPoint.value point >? max)%Z then MemoryPoint.value point
       else max)
    memoryUsage 0%Z.

Definition addFunctionTime (functionTimes : functionTimesObject)
  (call : FunctionCall.t) : functionTimesObject :=
  let name := FunctionCall.name call in
  let functionTimes :=
    if falsy (read functionTimes name)
    then write functionTimes name (Number 0)
    else functionTimes in
  write functionTimes name
    (js_add (read functionTimes name) (FunctionCall.duration call)).

Definition functionTimesOf (calls : list FunctionCall.t)
  : functionTimesObject :=
  fold_left addFunctionTime calls JsObject.empty.

Definition pickMostExpensive (best : option string * Z)
  (entry : string * jsValue) : option string * Z :=
  let '(name, time) := entry in
  if js_gt time (snd best)
  then (Some name, match time with Number z => z | _ => snd best end)
  else best.

Definition mostExpensiveOf (functionTimes : functionTimesObject)
  : option string * Z :=
  fold_left pickMostExpensive
    (JsObject.entries JsObject.string_index functionTimes) (None, 0%Z).

Definition calculateSummaryMetrics (metrics : RawMetrics.t) : Summary.t :=
  let calls := RawMetrics.functionCalls metrics in
  let peakMemory := peakMemoryOf (RawMetrics.memoryUsage metrics) in
  let totalFunctionCalls := List.length calls in
  let uniqueFunctions := List.length (new_Set (map FunctionCall.name calls)) in
  let best := mostExpensiveOf (functionTimesOf calls) in
  Summary.mk (RawMetrics.executionTime metrics) peakMemory totalFunctionCalls
    uniqueFunctions (fst best) (snd best).

(** *** generateCallGraph *)

Module LinkCount.
Record t : Type := mk
  { source : string; target : string; count : nat; totalDuration : Z }.
End LinkCount.

Module Link.
Record t : Type := mk
  { source : string; target : string; count : nat; averageDuration : Q }.
End Link.

Module CallGraph.
Record t : Type := mk { nodes : list string; links : list Link.t }.
End CallGraph.

(** [call.caller || 'global']: an absent or empty caller is falsy. *)
Definition sourceOf (call : FunctionCall.t) : string :=
  match FunctionCall.caller call with
  | None => "global"
  | Some c => if String.eqb c "" then "global" else c
  end.

Definition linkIdOf (source target : string) : string :=
  source ++ "->" ++ target.

(** A [Map] keeps its keys in insertion order, whatever they look like. *)
Definition callCountMapT : Type := @JsObject.t string LinkCount.t.

Definition addCall (st : list string * callCountMapT) (call : FunctionCall.t)
  : list string * callCountMapT :=
  let '(nodes, callCountMap) := st in
  let source := sourceOf call in
  let target := FunctionCall.name call in
  let nodes := set_add (set_add nodes source) target in
  let linkId := linkIdOf source target in
  match JsObject.get String.eqb callCountMap linkId with
  | None =>
      (nodes,
       JsObject.set String.eqb callCountMap linkId
         (LinkCount.mk source target 1 (FunctionCall.duration call)))
  | Some existing =>
      (nodes,
       JsObject.set String.eqb callCountMap linkId
         (LinkCount.mk (LinkCount.source existing) (LinkCount.target existing)
            (LinkCount.count existing + 1)
            (LinkCount.totalDuration existing + FunctionCall.duration call)))
  end.

Definition toLink (value : LinkCount.t) : Link.t :=
  Link.mk (LinkCount.source value) (LinkCount.target value)
    (LinkCount.count value)
    (inject_Z (LinkCount.totalDuration value)
     / inject_Z (Z.of_nat (LinkCount.count value))).

Definition generateCallGraph (functionCalls : list FunctionCall.t)
  : CallGraph.t :=
  let '(nodes, callCountMap) :=
    fold_left addCall functionCalls ([], JsObject.empty) in
  CallGraph.mk nodes (map (fun kv => toLink (snd kv)) callCountMap).

(** *** processExecutionFlow *)

Module LineStats.
Record t : Type := mk
  { line : N; code : string; executionCount : nat; totalTime : Z;
    timestamps : list Z }.
End LineStats.

Module LineRow.
Record t : Type := mk
  { line : N; code : string; executionCount : nat; totalTime : Z;
    timestamps : list Z; averageTime : Q }.
End LineRow.

Definition lineExecutionsT : Type := @JsObject.t N LineStats.t.

Definition durationOrZero (d : option Z) : Z :=
  match d with Some z => z | None => 0%Z end.

Definition addStep (lineExecutions : lineExecutionsT)
  (step : LineExecution.t) : lineExecutionsT :=
  let line := LineExecution.line step in
  let lineExecutions :=
    match JsObject.get N.eqb lineExecutions line with
    | None =>
        JsObject.set N.eqb lineExecutions line
          (LineStats.mk line (LineExecution.code step) 0 0%Z [])
    | Some _ => lineExecutions
    end in
  match JsObject.get N.eqb lineExecutions line with
  | None => lineExecutions
  | Some e =>
      JsObject.set N.eqb lineExecutions line
        (LineStats.mk (LineStats.line e) (LineStats.code e)
           (LineStats.executionCount e + 1)
           (LineStats.totalTime e
            + durationOrZero (LineExecution.duration step))
           (LineStats.timestamps e ++ [LineExecution.timestamp step]))
  end.

Definition toRow (l : LineStats.t) : LineRow.t :=
  LineRow.mk (LineStats.line l) (LineStats.code l)
    (LineStats.executionCount l) (LineStats.totalTime l)
    (LineStats.timestamps l)
    (inject_Z (LineStats.totalTime l)
     / inject_Z (Z.of_nat (LineStats.executionCount l))).

Definition processExecutionFlow (executionFlow : list LineExecution.t)
  : list LineRow.t :=
  map toRow
    (JsObject.values JsObject.number_index
       (fold_left addStep executionFlow JsObject.empty)).

(** *** processMetrics: the fields [summary], [callGraph] and
    [executionFlow] of the object it returns (the object as a whole, and
    when the function raises instead of returning, is [Report.processMetrics]
    below) *)

Module Processed.
Record t : Type := mk
  { summary : Summary.t;
    callGraph : CallGraph.t;
    executionFlow : list LineRow.t }.
End Processed.

Definition processMetrics (metrics : RawMetrics.t) : Processed.t :=
  Processed.mk (calculateSummaryMetrics metrics)
    (generateCallGraph (RawMetrics.functionCalls metrics))
    (processExecutionFlow (RawMetrics.executionFlow metrics)).

(** *** calculatePercentChange

    A JavaScript division by zero yields [Infinity] or [NaN] instead of
    failing; [js_div] makes that case visible as [None]. *)

Definition js_div (a b : Q) : option Q :=
  if Qeq_bool b 0 then None else Some (a / b).

Definition calculatePercentChange (oldValue newValue : Q) : option Q :=
  if Qeq_bool oldValue 0
  then Some (if Qeq_bool newValue 0 then 0 else 100)
  else option_map (fun r => r * 100) (js_div (newValue - oldValue) oldValue).

(** *** determineOverallImprovement and compareMetrics *)

Inductive verdict : Type := code1 | code2 | tie.

Module Delta.
Record t : Type := mk { diff : Q; percentChange : Q }.
End Delta.

Module Deltas.
Record t : Type := mk
  { executionTime : Delta.t; memoryUsage : Delta.t; functionCalls : Delta.t }.
End Deltas.

Module Comparison.
Record t : Type := mk { deltas : Deltas.t; overallImprovement : verdict }.
End Comparison.

Definition Qltb (a b : Q) : bool := negb (Qle_bool b a).

Definition weigh (score : Z) (weight : Z) (percentChange : Q) : Z :=
  if Qltb percentChange 0 then (score + weight)%Z
  else if Qltb 0 percentChange then (score - weight)%Z
  else score.

Definition scoreOf (comparison : Deltas.t) : Z :=
  let score := 0%Z in
  let score :=
    weigh score 3 (Delta.percentChange (Deltas.executionTime comparison)) in
  let score :=
    weigh score 2 (Delta.percentChange (Deltas.memoryUsage comparison)) in
  let score :=
    weigh score 1 (Delta.percentChange (Deltas.functionCalls comparison)) in
  score.

Definition determineOverallImprovement (comparison : Deltas.t) : verdict :=
  let score := scoreOf comparison in
  if (score >? 0)%Z then code1
  else if (score <? 0)%Z then code2
  else tie.

Definition deltaOf (v1 v2 : Q) : option Delta.t :=
  option_map (Delta.mk (v2 - v1)) (calculatePercentChange v1 v2).

(** [None] stands for a comparison holding a non-finite percentage. *)
Definition compareMetrics (metrics1 metrics2 : Processed.t)
  : option Comparison.t :=
  let s1 := Processed.summary metrics1 in
  let s2 := Processed.summary metrics2 in
  match deltaOf (Summary.executionTime s1) (Summary.executionTime s2),
        deltaOf (inject_Z (Summary.peakMemory s1))
                (inject_Z (Summary.peakMemory s2)),
        deltaOf (inject_Z (Z.of_nat (Summary.totalFunctionCalls s1)))
                (inject_Z (Z.of_nat (Summary.totalFunctionCalls s2)))
  with
  | Some executionTime, Some memoryUsage, Some functionCalls =>
      let comparison := Deltas.mk executionTime memoryUsage functionCalls in
      Some (Comparison.mk comparison (determineOverallImprovement comparison))
  | _, _, _ => None
  end.

End MetricsService.

(** ** Characters and strings *)

Module Text.

Definition dquote : string := String (ascii_of_nat 34) EmptyString.
Definition newline : string := String (ascii_of_nat 10) EmptyString.

Definition code_in (c : ascii) (lo hi : nat) : bool :=
  (lo <=? nat_of_ascii c)%nat && (nat_of_ascii c <=? hi)%nat.

Definition is_digit (c : ascii) : bool := code_in c 48 57.

(** [[a-zA-Z_$]] and [[a-zA-Z0-9_$]]. *)
Definition is_ident_start (c : ascii) : bool :=
  code_in c 97 122 || code_in c 65 90 || Ascii.eqb c "_" || Ascii.eqb c "$".

Definition is_ident_char (c : ascii) : bool := is_ident_start c || is_digit c.

(** [\s] on one-byte code units: tab, line feed, vertical tab, form feed,
    carriage return, space and no-break space. *)
Definition is_space (c : ascii) : bool :=
  code_in c 9 13 || Ascii.eqb c " " || (nat_of_ascii c =? 160)%nat.

(** The longest prefix whose characters satisfy [p], and what follows it. *)
Fixpoint span (p : ascii -> bool) (s : string) : string * string :=
  match s with
  | EmptyString => (EmptyString, EmptyString)
  | String c rest =>
      if p c
      then let '(taken, remains) := span p rest in (String c taken, remains)
      else (EmptyString, s)
  end.

Fixpoint drop (n : nat) (s : string) : string :=
  match n, s with
  | O, _ => s
  | S n', EmptyString => EmptyString
  | S n', String _ rest => drop n' rest
  end.

Definition reverse (s : string) : string :=
  string_of_list_ascii (rev (list_ascii_of_string s)).

Definition trim (s : string) : string :=
  reverse (snd (span is_space (reverse (snd (span is_space s))))).

End Text.

(** ** The metrics collector both handlers prepend to the user code

    [__metrics] in the JavaScript template and [MetricsCollector] in the Python
    one have the same four methods.  What the program sends to its parent
    ([process.send], or a framed line on the output stream) is recorded in
    [outbox], oldest first. *)

Module Options.
Record t : Type := mk
  { trackMemory : bool; trackVariables : bool;
    trackFunctions : bool; trackExecutionFlow : bool }.
End Options.

Module Collector.

Inductive sent : Type :=
  | memory (data : MemoryPoint.t)
  | functionCall (data : FunctionCall.t)
  | variableState (data : VariableState.t)
  | executionFlow (data : LineExecution.t)
  | complete (executionTime : Z) (memoryUsage : list MemoryPoint.t)
      (functionCalls : list FunctionCall.t)
      (variableStates : list VariableState.t)
      (flow : list LineExecution.t)
  | error (message : option string).

Record t : Type := mk
  { startTime : Z;
    memoryUsage : list MemoryPoint.t;
    functionCalls : list FunctionCall.t;
    variableStates : list VariableState.t;
    flow : list LineExecution.t;
    outbox : list sent }.

Definition create (now : Z) : t := mk now [] [] [] [] [].

Definition send (m : t) (e : sent) : t :=
  mk (startTime m) (memoryUsage m) (functionCalls m) (variableStates m)
    (flow m) (outbox m ++ [e]).

Definition complexObject : string := "[Complex object]".

(** The serialiser's answer for one value: [Some text], or [None] when
    [JSON.stringify] / [json.dumps] raises or yields no string at all (then
    taking the substring raises, and the handler falls back). *)
Definition summarizeArg (serialized : option string) : string :=
  match serialized with
  | Some text => substring 0 100 text
  | None => complexObject
  end.

Definition summarizeValue (serialized : option string) : string :=
  match serialized with
  | Some text =>
      let serializedValue := substring 0 100 text in
      if (String.length serializedValue =? 100)%nat
      then serializedValue ++ "..."
      else serializedValue
  | None => complexObject
  end.

Section Runtime.

(** Run-time values of the instrumented language, its serialiser and its
    [typeof]. *)
Variable value : Type.
Variable stringify : value -> option string.
Variable typeOf : value -> string.

Variable options : Options.t.

Definition trackMemory (now used allocation deallocation : Z) (m : t) : t :=
  if Options.trackMemory options then
    let point := MemoryPoint.mk (now - startTime m) used allocation
                   deallocation in
    send (mk (startTime m) (memoryUsage m ++ [point]) (functionCalls m)
            (variableStates m) (flow m) (outbox m))
      (memory point)
  else m.

Definition trackFunctionCall (name : string) (caller : option string)
  (args : list value) (startTime' endTime : Z) (m : t) : t * Z :=
  if Options.trackFunctions options then
    let duration := (endTime - startTime')%Z in
    let callData :=
      FunctionCall.mk (startTime' - startTime m) name caller
        (map (fun arg => summarizeArg (stringify arg)) args)
        duration (endTime - startTime m) in
    (send (mk (startTime m) (memoryUsage m) (functionCalls m ++ [callData])
             (variableStates m) (flow m) (outbox m))
       (functionCall callData),
     duration)
  else (m, (endTime - startTime')%Z).

Definition trackVariable (name : string) (v : value) (line : N)
  (varType : option string) (now : Z) (m : t) : t :=
  if Options.trackVariables options then
    let serializedValue := summarizeValue (stringify v) in
    let varData :=
      VariableState.mk (now - startTime m) name serializedValue
        (match varType with
         | Some ty => if String.eqb ty "" then typeOf v else ty
         | None => typeOf v
         end)
        line in
    send (mk (startTime m) (memoryUsage m) (functionCalls m)
            (variableStates m ++ [varData]) (flow m) (outbox m))
      (variableState varData)
  else m.

(** [trackExecution(line, code)] followed by [end()] on its result. *)
Definition trackExecution (line : N) (code : string) (startTime' endTime : Z)
  (m : t) : t :=
  if Options.trackExecutionFlow options then
    let executionData :=
      LineExecution.mk (startTime' - startTime m) line (Text.trim code)
        (Some (endTime - startTime')%Z) in
    send (mk (startTime m) (memoryUsage m) (functionCalls m)
            (variableStates m) (flow m ++ [executionData]) (outbox m))
      (executionFlow executionData)
  else m.

(** What the instrumented user code does, as far as the collector sees it:
    the tracking calls it makes, in order, and how it ends. *)
Inductive action : Type :=
  | callFunction (name : string) (caller : option string) (args : list value)
      (startTime' endTime : Z)
  | assignVariable (name : string) (v : value) (line : N)
      (varType : option string) (now : Z)
  | executeLine (line : N) (code : string) (startTime' endTime : Z).

(** What the user code raises, as the handler that catches it sees it.
    JavaScript throws any value: reading [error.message] yields the message
    of an [Error] ([Some text]), or [undefined] for a thrown string, number
    or plain object ([None]); on [null] and [undefined] the read itself
    raises a [TypeError], whose message is [typeError].  Python raises
    instances of [BaseException] only, and [str(e)] is always a text. *)
Inductive thrown : Type :=
  | object (message : option string)
  | nullish (typeError : string).

(** [isException] tells whether the raised object derives from Python's
    [Exception] ([SystemExit] and [KeyboardInterrupt] do not); a JavaScript
    [catch] does not look at it. *)
Inductive completion : Type :=
  | returns
  | raises (error : thrown) (isException : bool).

Record behaviour : Type := mkBehaviour
  { actions : list action; completes : completion }.

Definition perform (m : t) (a : action) : t :=
  match a with
  | callFunction name caller args s e =>
      fst (trackFunctionCall name caller args s e m)
  | assignVariable name v line varType now =>
      trackVariable name v line varType now m
  | executeLine line code s e => trackExecution line code s e m
  end.

Definition runUserCode (b : behaviour) (m : t) : t :=
  fold_left perform (actions b) m.

(** Clock and memory readings taken by the wrapper itself, in the order it
    takes them: the clock when the collector is created, the memory in use
    and the clock for the initial sample, the same two for the final sample,
    and the clock for the execution time of the final report. *)
Record readings : Type := mkReadings
  { startedAt : Z; usedAtStart : Z; sampledAt : Z;
    usedAtFinish : Z; finishedAt : Z; completedAt : Z }.

Definition sendComplete (now : Z) (m : t) : t :=
  send m
    (complete (now - startTime m) (memoryUsage m) (functionCalls m)
       (variableStates m) (flow m)).

End Runtime.

Arguments trackFunctionCall {value}.
Arguments trackVariable {value}.
Arguments callFunction {value}.
Arguments assignVariable {value}.
Arguments executeLine {value}.
Arguments mkBehaviour {value}.
Arguments actions {value}.
Arguments completes {value}.
Arguments perform {value}.
Arguments runUserCode {value}.





End Collector.

(** ** server/utils/languageHandlers/javascriptHandler.js *)

Module JavascriptHandler.

Local Open Scope string_scope.

(** *** The program [instrumentCode] returns

    [setup; __metrics.trackMemory();
     try { user code; __metrics.trackMemory(); send complete }
     catch (error) { send error }],
    given by what it sends when it runs and the user code behaves as [b].
    The [catch] block builds its message from [error.message]: on a thrown
    [null] or [undefined] that read raises, and nothing is sent. *)
Definition instrumentCode {value : Type} (stringify : value -> option string)
  (typeOf : value -> string) (options : Options.t)
  (r : Collector.readings) (b : Collector.behaviour value)
  : list Collector.sent :=
  let m := Collector.trackMemory options (Collector.sampledAt r)
             (Collector.usedAtStart r) 0 0
             (Collector.create (Collector.startedAt r)) in
  let m := Collector.runUserCode stringify typeOf options b m in
  match Collector.completes b with
  | Collector.returns =>
      let m := Collector.trackMemory options (Collector.finishedAt r)
                 (Collector.usedAtFinish r) 0 0 m in
      Collector.outbox (Collector.sendComplete (Collector.completedAt r) m)
  | Collector.raises (Collector.object message) _ =>
      Collector.outbox (Collector.send m (Collector.error message))
  | Collector.raises (Collector.nullish _) _ => Collector.outbox m
  end.

(** What leaves the program uncaught: the [TypeError] its [catch] block
    raises on a thrown [null] or [undefined]. *)
Definition escapes {value : Type} (b : Collector.behaviour value)
  : option string :=
  match Collector.completes b with
  | Collector.raises (Collector.nullish typeError) _ => Some typeError
  | _ => None
  end.

(** *** [String.prototype.replace] with a global regular expression and a
    replacement function

    A pattern tells whether the expression matches at the start of a text and,
    if so, returns the matched text and the two captures.  The scan goes left
    to right; after a match it resumes behind the matched text. *)

Definition pattern : Type := string -> option (string * string * string).

Inductive segment : Type :=
  | copied (c : ascii)
  | replaced (matched name value replacement : string).

Fixpoint segments (p : pattern) (callback : string -> string -> string -> string)
  (skip : nat) (s : string) : list segment :=
  match s with
  | EmptyString => []
  | String c rest =>
      match skip with
      | S k => segments p callback k rest
      | O =>
          match p s with
          | Some (matched, name, value) =>
              replaced matched name value (callback matched name value)
              :: segments p callback (String.length matched - 1) rest
          | None => copied c :: segments p callback 0 rest
          end
      end
  end.

Definition renderSegment (g : segment) : string :=
  match g with
  | copied c => String c EmptyString
  | replaced _ _ _ replacement => replacement
  end.

Definition sourceOfSegment (g : segment) : string :=
  match g with
  | copied c => String c EmptyString
  | replaced matched _ _ _ => matched
  end.

Definition render (l : list segment) : string :=
  fold_right (fun g acc => (renderSegment g ++ acc)%string) EmptyString l.

Definition replace (p : pattern) (callback : string -> string -> string -> string)
  (code : string) : string :=
  render (segments p callback 0 code).

(** The reassignment expression at the start of [s]: an identifier (first
    capture), blanks, [=], blanks, a run of characters other than [;] (second
    capture), then [;].  Every starred piece is followed by a character it
    cannot contain, so the greedy choice is the only one that can succeed. *)
Definition assignmentAt : pattern := fun s =>
  match s with
  | EmptyString => None
  | String c _ =>
      if Text.is_ident_start c then
        let '(name, s1) := Text.span Text.is_ident_char s in
        let '(ws1, s2) := Text.span Text.is_space s1 in
        match s2 with
        | EmptyString => None
        | String c2 s3 =>
            if Ascii.eqb c2 "=" then
              let '(ws2, s4) := Text.span Text.is_space s3 in
              let '(value, s5) :=
                Text.span (fun c => negb (Ascii.eqb c ";")) s4 in
              match s5 with
              | EmptyString => None
              | String c5 _ =>
                  if Ascii.eqb c5 ";"
                  then Some (name ++ ws1 ++ "=" ++ ws2 ++ value ++ ";",
                             name, value)
                  else None
              end
            else None
        end
      else None
  end.

(** The declaration expressions: the keyword, at least one blank, then the
    same identifier, [=], value and [;] as above. *)
Definition declarationAt (keyword : string) : pattern := fun s =>
  if String.prefix keyword s then
    let '(ws, s1) := Text.span Text.is_space
                       (Text.drop (String.length keyword) s) in
    match ws with
    | EmptyString => None
    | String _ _ =>
        match assignmentAt s1 with
        | Some (matched, name, value) =>
            Some (keyword ++ ws ++ matched, name, value)
        | None => None
        end
    end
  else None.

Definition trackVariableCall (name : string) (kind : option string) : string :=
  "__metrics.trackVariable(" ++ Text.dquote ++ name ++ Text.dquote ++ ", "
  ++ name ++ ", new Error().stack.split(" ++ Text.dquote ++ "\n"
  ++ Text.dquote ++ ")[1].match(/:([0-9]+):/)?.[1] || 0"
  ++ match kind with
     | Some k => ", " ++ Text.dquote ++ k ++ Text.dquote
     | None => ""
     end
  ++ ");".

Definition indent8 : string := "        ".

Definition declarationCallback (keyword : string)
  (matched name value : string) : string :=
  keyword ++ " " ++ name ++ " = " ++ value ++ "; " ++ Text.newline ++ indent8
  ++ trackVariableCall name (Some keyword).

(** Skip tracking for loop counters to avoid excessive events. *)
Definition reassignmentCallback (matched name value : string) : string :=
  if String.eqb name "i" || String.eqb name "j" || String.eqb name "k"
  then matched
  else name ++ " = " ++ value ++ "; " ++ Text.newline ++ indent8
       ++ trackVariableCall name None.

Definition trackReassignments (code : string) : string :=
  replace assignmentAt reassignmentCallback code.

Definition instrumentVariables (code : string) (trackVariables : bool)
  : string :=
  if negb trackVariables then code
  else
    let code := replace (declarationAt "let") (declarationCallback "let")
                  code in
    let code := replace (declarationAt "const") (declarationCallback "const")
                  code in
    let code := replace (declarationAt "var") (declarationCallback "var")
                  code in
    trackReassignments code.

End JavascriptHandler.

(** ** JSON values as the Node side sees them after [JSON.parse] *)

Module Json.

#[local] Unset Elimination Schemes.

Inductive t : Type :=
  | null
  | boolean (b : bool)
  | number (z : Z)
  | text (s : string)
  | array (items : list t)
  | object (fields : list (string * t)).

#[local] Set Elimination Schemes.

Definition truthy (j : t) : bool :=
  match j with
  | null => false
  | boolean b => b
  | number z => negb (z =? 0)%Z
  | text s => negb (String.eqb s "")
  | array _ | object _ => true
  end.

(** Reading a property: it raises a [TypeError] on [null]; on anything but
    an object the names read here are simply not there. *)
Inductive access : Type :=
  | raisesTypeError
  | missing
  | found (j : t).

Fixpoint lookup (fields : list (string * t)) (k : string) : access :=
  match fields with
  | [] => missing
  | (k', v) :: rest => if String.eqb k' k then found v else lookup rest k
  end.

Definition property (j : t) (k : string) : access :=
  match j with
  | null => raisesTypeError
  | object fields => lookup fields k
  | _ => missing
  end.

End Json.

(** ** server/utils/languageHandlers/pythonHandler.js *)

Module PythonHandler.

Local Open Scope string_scope.

(** *** The program [instrumentCode] returns

    [setup; metrics.track_memory();
     try: user code; metrics.track_memory(); print complete
     except Exception as e: print error].

    The template writes each option into the conditions of the collector's
    methods as the text JavaScript gives a boolean. *)
Definition renderOption (b : bool) : string := if b then "true" else "false".

(** How Python reads such a condition when the method runs: [True] and
    [False] are its constants; [true] and [false] are names the program
    binds nowhere, and evaluating them raises a [NameError]. *)
Inductive reading : Type :=
  | holds (b : bool)
  | nameError (message : string).

Definition readCondition (text : string) : reading :=
  if String.eqb text "True" then holds true
  else if String.eqb text "False" then holds false
  else nameError ("name '" ++ text ++ "' is not defined").

(** A collector method: its condition is read first, then its body runs
    under the option as read. *)
Definition guarded {A : Type} (option : bool) (body : Options.t -> A)
  : A + string :=
  match readCondition (renderOption option) with
  | holds b => inl (body (Options.mk b b b b))
  | nameError message => inr message
  end.

Definition track_memory (options : Options.t)
  (now used allocation deallocation : Z) (m : Collector.t)
  : Collector.t + string :=
  guarded (Options.trackMemory options)
    (fun read => Collector.trackMemory read now used allocation deallocation
                   m).

Definition perform {value : Type} (stringify : value -> option string)
  (typeOf : value -> string) (options : Options.t) (m : Collector.t)
  (a : Collector.action value) : Collector.t + string :=
  match a with
  | Collector.callFunction name caller args s e =>
      guarded (Options.trackFunctions options)
        (fun read =>
           fst (Collector.trackFunctionCall stringify read name caller args
                  s e m))
  | Collector.assignVariable name v line varType now =>
      guarded (Options.trackVariables options)
        (fun read =>
           Collector.trackVariable stringify typeOf read name v line varType
             now m)
  | Collector.executeLine line code s e =>
      guarded (Options.trackExecutionFlow options)
        (fun read => Collector.trackExecution read line code s e m)
  end.

(** The tracking calls of the user code, up to the first one that raises;
    a [NameError] raised there leaves the user code as an exception. *)
Fixpoint runUserCode {value : Type} (stringify : value -> option string)
  (typeOf : value -> string) (options : Options.t)
  (actions : list (Collector.action value)) (m : Collector.t)
  : Collector.t * option string :=
  match actions with
  | [] => (m, None)
  | a :: rest =>
      match perform stringify typeOf options m a with
      | inl m' => runUserCode stringify typeOf options rest m'
      | inr message => (m, Some message)
      end
  end.

(** What the program prints as framed lines.  The initial
    [metrics.track_memory()] stands before the [try]: when it raises, the
    program ends there with nothing printed. *)
Definition instrumentCode {value : Type} (stringify : value -> option string)
  (typeOf : value -> string) (options : Options.t)
  (r : Collector.readings) (b : Collector.behaviour value)
  : list Collector.sent :=
  let m := Collector.create (Collector.startedAt r) in
  match track_memory options (Collector.sampledAt r) (Collector.usedAtStart r)
          0 0 m with
  | inr _ => Collector.outbox m
  | inl m =>
      match runUserCode stringify typeOf options (Collector.actions b) m with
      | (m, Some message) =>
          Collector.outbox (Collector.send m (Collector.error (Some message)))
      | (m, None) =>
          match Collector.completes b with
          | Collector.returns =>
              match track_memory options (Collector.finishedAt r)
                      (Collector.usedAtFinish r) 0 0 m with
              | inl m =>
                  Collector.outbox
                    (Collector.sendComplete (Collector.completedAt r) m)
              | inr message =>
                  Collector.outbox
                    (Collector.send m (Collector.error (Some message)))
              end
          | Collector.raises (Collector.object message) true =>
              Collector.outbox (Collector.send m (Collector.error message))
          | Collector.raises _ _ => Collector.outbox m
          end
      end
  end.

(** The error the program ends with at that first call, if any; it goes to
    the standard error stream. *)
Definition uncaught (options : Options.t) : option string :=
  match readCondition (renderOption (Options.trackMemory options)) with
  | nameError message => Some message
  | holds _ => None
  end.

(** *** [executeCode]: the handlers installed on the Python shell *)

Definition METRICS_EVENT : string := "__METRICS_EVENT__".
Definition METRICS_COMPLETE : string := "__METRICS_COMPLETE__".
Definition METRICS_ERROR : string := "__METRICS_ERROR__".

(** How the promise returned by [executeCode] was settled. *)
Inductive rejection : Type :=
  | reportedError (message : Json.access)
  | caughtException
  | shellError (message : string)
  | timedOut.

Inductive settlement : Type :=
  | resolved (metricsData : Json.t)
  | rejected (reason : rejection).

Inductive logLine : Type :=
  | errorParsingMetricsEvent
  | errorParsingFinalMetrics
  | errorParsingErrorData
  | errorRemovingTempFile.

Record state : Type := mkState
  { metricsData : Json.t;
    delivered : list (Json.t * Json.t);
    logged : list logLine;
    settled : option settlement;
    timeoutArmed : bool;
    tempFile : bool }.

Definition emptyMetricsData : Json.t :=
  Json.object
    [ ("memoryUsage", Json.array []); ("functionCalls", Json.array []);
      ("variableStates", Json.array []); ("executionFlow", Json.array []) ].

Definition started : state := mkState emptyMetricsData [] [] None true true.

Definition log (l : logLine) (st : state) : state :=
  mkState (metricsData st) (delivered st) (logged st ++ [l])%list (settled st)
    (timeoutArmed st) (tempFile st).

Definition metricsCallback (event data : Json.t) (st : state) : state :=
  mkState (metricsData st) (delivered st ++ [(event, data)])%list (logged st)
    (settled st) (timeoutArmed st) (tempFile st).

Definition setMetricsData (j : Json.t) (st : state) : state :=
  mkState j (delivered st) (logged st) (settled st) (timeoutArmed st)
    (tempFile st).

(** A promise is settled once; later calls of [resolve] or [reject] have no
    effect. *)
Definition settle (s : settlement) (st : state) : state :=
  match settled st with
  | Some _ => st
  | None =>
      mkState (metricsData st) (delivered st) (logged st) (Some s)
        (timeoutArmed st) (tempFile st)
  end.

Definition clearTimeout (st : state) : state :=
  mkState (metricsData st) (delivered st) (logged st) (settled st) false
    (tempFile st).

(** [fs.unlinkSync] raises when the file is gone; the raise is logged. *)
Definition unlinkTempFile (st : state) : state :=
  if tempFile st
  then mkState (metricsData st) (delivered st) (logged st) (settled st)
         (timeoutArmed st) false
  else log errorRemovingTempFile st.

(** The object handed to the callback for an error found on the Node side
    (its [stack] is left out). *)
Definition errorPayload (message : string) : Json.t :=
  Json.object [ ("message", Json.text message); ("line", Json.text "unknown") ].

Section Shell.

(** [JSON.parse]: [None] when it raises a [SyntaxError]. *)
Variable parse : string -> option Json.t.

(** Whether a [metricsCallback] was passed. *)
Variable hasCallback : bool.

Definition payload (prefix : string) (message : string) : string :=
  Text.drop (String.length prefix) message.

Definition onMetricsEvent (message : string) (st : state) : state :=
  match parse (payload METRICS_EVENT message) with
  | None => log errorParsingMetricsEvent st
  | Some eventData =>
      if hasCallback then
        match Json.property eventData "event" with
        | Json.raisesTypeError => log errorParsingMetricsEvent st
        | Json.missing => st
        | Json.found event =>
            if Json.truthy event then
              match Json.property eventData "data" with
              | Json.raisesTypeError => log errorParsingMetricsEvent st
              | Json.missing => st
              | Json.found data =>
                  if Json.truthy data then metricsCallback event data st
                  else st
              end
            else st
        end
      else st
  end.

Definition onMetricsComplete (message : string) (st : state) : state :=
  match parse (payload METRICS_COMPLETE message) with
  | None => log errorParsingFinalMetrics st
  | Some data => setMetricsData data st
  end.

Definition onMetricsError (message : string) (st : state) : state :=
  match parse (payload METRICS_ERROR message) with
  | None => settle (rejected caughtException) (log errorParsingErrorData st)
  | Some errorData =>
      let st :=
        if hasCallback then metricsCallback (Json.text "error") errorData st
        else st in
      let st := if timeoutArmed st then clearTimeout st else st in
      let st := unlinkTempFile st in
      match Json.property errorData "message" with
      | Json.raisesTypeError =>
          settle (rejected caughtException) (log errorParsingErrorData st)
      | message => settle (rejected (reportedError message)) st
      end
  end.

(** [pyShell.on('message', ...)]. *)
Definition onMessage (message : string) (st : state) : state :=
  if String.prefix METRICS_EVENT message then onMetricsEvent message st
  else if String.prefix METRICS_COMPLETE message
       then onMetricsComplete message st
  else if String.prefix METRICS_ERROR message then onMetricsError message st
  else st.

(** [pyShell.end(...)]: the shell has exited, with an error or without. *)
Definition onEnd (err : option string) (st : state) : state :=
  let st := if timeoutArmed st then clearTimeout st else st in
  let st := unlinkTempFile st in
  match err with
  | Some message =>
      let st :=
        if hasCallback
        then metricsCallback (Json.text "error") (errorPayload message) st
        else st in
      settle (rejected (shellError message)) st
  | None => settle (resolved (metricsData st)) st
  end.

(** The timer set with [setTimeout] fires. *)
Definition onTimeout (st : state) : state :=
  let st :=
    if hasCallback
    then metricsCallback (Json.text "error")
           (errorPayload "Execution timed out") st
    else st in
  let st := unlinkTempFile st in
  settle (rejected timedOut) st.

(** [executeCode], as far as the promise it returns is concerned: the
    handlers are installed, the shell reports its lines, then it exits. *)
Definition executeCode (messages : list string) (err : option string) : state :=
  onEnd err (fold_left (fun st message => onMessage message st) messages
               started).

End Shell.

End PythonHandler.

(** ** server/services/codeExecutionService.js and
       server/controllers/executionController.js *)

Module CodeExecutionService.

Local Open Scope string_scope.

Inductive handler : Type := javascriptHandler | pythonHandler.

(** [languageHandlers[language]]: the two registered handlers; a name every
    object inherits is found too (it is truthy but is no handler); anything
    else is undefined. *)
Inductive lookupResult : Type :=
  | registered (h : handler)
  | inheritedMember
  | notFound.

Definition languageHandlers (language : string) : lookupResult :=
  if String.eqb language "javascript" then registered javascriptHandler
  else if String.eqb language "python" then registered pythonHandler
  else if String.eqb language JsObject.proto_accessor
          || JsObject.mem_string language JsObject.prototype_methods
       then inheritedMember
  else notFound.

Module Request.
Record t : Type := mk
  { code : string; language : string; input : string;
    options : Options.t; executionId : string }.
End Request.

(** One running sandbox ([handler.executeCode] has been called and its
    promise is pending) with the [metrics] object its callback fills. *)
Module Sandbox.
Record t : Type := mk
  { executionId : string;
    language : handler;
    memoryUsage : list string;
    functionCalls : list string;
    variableStates : list string;
    executionFlow : list string }.
End Sandbox.

Inductive emitted : Type :=
  | executionError (executionId : string) (error : string)
  | executionProgress (executionId : string)
  | executionUpdate (executionId : string) (event data : string)
  | executionComplete (executionId : string).

Record world : Type := mkWorld
  { sandboxes : list Sandbox.t;
    socketMessages : list emitted }.

Definition idle : world := mkWorld [] [].

Definition emit (connected : bool) (e : emitted) (w : world) : world :=
  if connected then mkWorld (sandboxes w) (socketMessages w ++ [e])%list
  else w.

(** [executeCode(io, socketId, data)]; [connected] is [io && socketId]. *)
Definition executeCode (connected : bool) (data : Request.t) (w : world)
  : world :=
  match languageHandlers (Request.language data) with
  | notFound =>
      emit connected
        (executionError (Request.executionId data)
           ("Language '" ++ Request.language data ++ "' is not supported"))
        w
  | inheritedMember =>
      emit connected
        (executionError (Request.executionId data)
           "handler.instrumentCode is not a function")
        w
  | registered h =>
      let w := emit connected (executionProgress (Request.executionId data))
                 w in
      mkWorld
        (sandboxes w
         ++ [Sandbox.mk (Request.executionId data) h [] [] [] []])%list
        (socketMessages w)
  end.

(** [executeCode] on a request whose [input] and [options] are whatever the
    request body holds, [code] and [language] being texts.  Both
    [instrumentCode] functions destructure [options]: a missing field takes
    the default [{}], anything but [null] can be destructured, and [null]
    raises a [TypeError] inside the [try], before any sandbox is started. *)
Definition destructureNull : string :=
  "Cannot destructure property 'trackMemory' of 'options' as it is null.".

Definition executeRequest (connected : bool)
  (executionId code language : string) (input options : Json.access)
  (w : world) : world :=
  match languageHandlers language with
  | notFound =>
      emit connected
        (executionError executionId
           ("Language '" ++ language ++ "' is not supported"))
        w
  | inheritedMember =>
      emit connected
        (executionError executionId
           "handler.instrumentCode is not a function")
        w
  | registered h =>
      match options with
      | Json.found Json.null =>
          emit connected (executionError executionId destructureNull) w
      | _ =>
          let w := emit connected (executionProgress executionId) w in
          mkWorld
            (sandboxes w ++ [Sandbox.mk executionId h [] [] [] []])%list
            (socketMessages w)
      end
  end.


(** The callback of a sandbox receives an event: [switch (event)] pushes the
    payload on one of the four arrays of that sandbox's [metrics]. *)
Definition record (event data : string) (s : Sandbox.t) : Sandbox.t :=
  if String.eqb event "memory" then
    Sandbox.mk (Sandbox.executionId s) (Sandbox.language s)
      (Sandbox.memoryUsage s ++ [data])%list (Sandbox.functionCalls s)
      (Sandbox.variableStates s) (Sandbox.executionFlow s)
  else if String.eqb event "functionCall" then
    Sandbox.mk (Sandbox.executionId s) (Sandbox.language s)
      (Sandbox.memoryUsage s) (Sandbox.functionCalls s ++ [data])%list
      (Sandbox.variableStates s) (Sandbox.executionFlow s)
  else if String.eqb event "variableState" then
    Sandbox.mk (Sandbox.executionId s) (Sandbox.language s)
      (Sandbox.memoryUsage s) (Sandbox.functionCalls s)
      (Sandbox.variableStates s ++ [data])%list (Sandbox.executionFlow s)
  else if String.eqb event "executionFlow" then
    Sandbox.mk (Sandbox.executionId s) (Sandbox.language s)
      (Sandbox.memoryUsage s) (Sandbox.functionCalls s)
      (Sandbox.variableStates s) (Sandbox.executionFlow s ++ [data])%list
  else s.

Fixpoint updateNth (n : nat) (f : Sandbox.t -> Sandbox.t)
  (l : list Sandbox.t) : list Sandbox.t :=
  match l, n with
  | [], _ => []
  | s :: rest, O => f s :: rest
  | s :: rest, S n' => s :: updateNth n' f rest
  end.

(** The [n]-th running sandbox reports an event to its callback. *)
Definition deliver (connected : bool) (n : nat) (event data : string)
  (w : world) : world :=
  match nth_error (sandboxes w) n with
  | None => w
  | Some s =>
      emit connected (executionUpdate (Sandbox.executionId s) event data)
        (mkWorld (updateNth n (record event data) (sandboxes w))
           (socketMessages w))
  end.


End CodeExecutionService.

(** ** Sample inputs used by the statements below *)

Module Samples.

Import MetricsService.

Definition call (name : string) (caller : option string) (duration : Z)
  : FunctionCall.t :=
  FunctionCall.mk 0 name caller [] duration duration.

Definition step (line : N) (duration : Z) : LineExecution.t :=
  LineExecution.mk 0 line "x += 1;" (Some duration).

Definition sample (value : Z) : MemoryPoint.t := MemoryPoint.mk 0 value 0 0.

(** Run A is slower but smaller and makes fewer calls than run B. *)
Definition runA : RawMetrics.t :=
  RawMetrics.mk 10 [sample 10] [call "f" None 1] [] [].

Definition runB : RawMetrics.t :=
  RawMetrics.mk 5 [sample 20] [call "f" None 1; call "f" None 1] [] [].

Fixpoint replicate (n : nat) (c : ascii) : string :=
  match n with
  | O => EmptyString
  | S n' => String c (replicate n' c)
  end.

(** A serialiser for string values without special characters: the text
    between double quotes. *)
Definition quote (s : string) : option string :=
  Some (Text.dquote ++ s ++ Text.dquote)%string.

Definition typeOfString (s : string) : string := "string".

Definition allOptions : Options.t := Options.mk true true true true.

Definition readings : Collector.readings :=
  Collector.mkReadings 1000 64 1002 80 1010 1011.

(** User code that assigns a string of 120 characters to [s] and returns. *)
Definition longAssignment : Collector.behaviour string :=
  Collector.mkBehaviour
    [Collector.assignVariable "s" (replicate 120 "a") 1 None 1005]
    Collector.returns.


(** User code that throws [null] at once. *)
Definition throwingNull : Collector.behaviour string :=
  Collector.mkBehaviour []
    (Collector.raises
       (Collector.nullish
          "Cannot read properties of null (reading 'message')")
       false).

(** A parser that knows two texts. *)
Definition tinyParse (s : string) : option Json.t :=
  if String.eqb s "{}" then Some (Json.object [])
  else if String.eqb s "null" then Some Json.null
  else None.

End Samples.

(** ** Vocabulary of the statements *)

Module Spec.

Import MetricsService.

Definition swapVerdict (v : verdict) : verdict :=
  match v with
  | code1 => code2
  | code2 => code1
  | tie => tie
  end.

(** What every aggregated run satisfies: a wall-clock time and a peak that
    are not negative (the call count is a length). *)
Definition nonNegative (m : Processed.t) : Prop :=
  0 <= Summary.executionTime (Processed.summary m)
  /\ (0 <= Summary.peakMemory (Processed.summary m))%Z.

Definition timeDiff (c : Comparison.t) : Q :=
  Delta.diff (Deltas.executionTime (Comparison.deltas c)).

Definition memoryDiff (c : Comparison.t) : Q :=
  Delta.diff (Deltas.memoryUsage (Comparison.deltas c)).

Definition callsDiff (c : Comparison.t) : Q :=
  Delta.diff (Deltas.functionCalls (Comparison.deltas c)).

Definition allDiffsZero (c : Comparison.t) : Prop :=
  timeDiff c == 0 /\ memoryDiff c == 0 /\ callsDiff c == 0.

(** The weighted score as the specification words it: a negative percent
    change is an improvement and counts for the weight, a positive one
    against it, with weight 3 for the execution time, 2 for the memory and 1
    for the number of calls. *)
Definition improvement (percentChange : Q) : Z :=
  match (percentChange ?= 0)%Q with
  | Lt => 1%Z
  | Gt => (-1)%Z
  | Eq => 0%Z
  end.

Definition weightedScore (d : Deltas.t) : Z :=
  (3 * improvement (Delta.percentChange (Deltas.executionTime d))
   + 2 * improvement (Delta.percentChange (Deltas.memoryUsage d))
   + 1 * improvement (Delta.percentChange (Deltas.functionCalls d)))%Z.

(** A percent change has the sign of its difference. *)
Definition sameSign (d : Delta.t) : Prop :=
  (Delta.percentChange d < 0 <-> Delta.diff d < 0)%Q
  /\ (0 < Delta.percentChange d <-> 0 < Delta.diff d)%Q.

(** A function name that is neither an array index nor a name every object
    inherits from [Object.prototype]; every identifier except the inherited
    ones is ordinary. *)
Definition ordinaryName (n : string) : Prop :=
  JsObject.string_index n = None
  /\ String.eqb n JsObject.proto_accessor = false
  /\ JsObject.mem_string n JsObject.prototype_methods = false.

(** The cumulative duration of the calls of [n]. *)
Fixpoint cumulativeTime (n : string) (calls : list FunctionCall.t) : Z :=
  match calls with
  | [] => 0
  | c :: rest =>
      ((if String.eqb (FunctionCall.name c) n
        then FunctionCall.duration c else 0)
       + cumulativeTime n rest)%Z
  end.

(** [f] occurs in [names] before any occurrence of [g]. *)
Definition firstSeenBefore (f g : string) (names : list string) : Prop :=
  exists l1 l2, names = (l1 ++ f :: l2)%list /\ ~ In g l1.

(** [k] is the number of distinct elements of [names]. *)
Definition distinctCount (names : list string) (k : nat) : Prop :=
  exists distinct,
    NoDup distinct /\ (forall n, In n distinct <-> In n names)
    /\ k = List.length distinct.

(** The dictionary built by the loop, for ordinary names: one entry per
    distinct name, in first-seen order, holding the cumulative time. *)
Definition tallied (calls : list FunctionCall.t) (keys : list string)
  : functionTimesObject :=
  map (fun n => (n, Number (cumulativeTime n calls))) keys.





Definition count {A : Type} (p : A -> bool) (l : list A) : nat :=
  List.length (filter p l).


(** The memory sample [trackMemory] sends, if memory tracking is on. *)
Definition sample (options : Options.t) (timestamp used : Z)
  : list Collector.sent :=
  if Options.trackMemory options
  then [Collector.memory (MemoryPoint.mk timestamp used 0 0)]
  else [].

(** The names the reassignment rewrite leaves alone. *)
Definition loopCounter (name : string) : Prop :=
  name = "i" \/ name = "j" \/ name = "k".

(** The source text a list of segments stands for. *)
Definition sourceText (l : list JavascriptHandler.segment) : string :=
  fold_right
    (fun g acc => (JavascriptHandler.sourceOfSegment g ++ acc)%string)
    EmptyString l.

(** What the reassignment rewrite may do at a match: leave the text of a loop
    counter as it is, or follow the assignment of any other name with the
    tracking call of that name. *)
Definition reassignmentSegment (g : JavascriptHandler.segment) : Prop :=
  match g with
  | JavascriptHandler.copied _ => True
  | JavascriptHandler.replaced matched name value replacement =>
      (loopCounter name /\ replacement = matched)
      \/ (~ loopCounter name
          /\ replacement
             = (name ++ " = " ++ value ++ "; " ++ Text.newline
                ++ JavascriptHandler.indent8
                ++ JavascriptHandler.trackVariableCall name None)%string)
  end.

(** Two shell states that differ at most in what was logged. *)
Definition sameButLog (a b : PythonHandler.state) : Prop :=
  PythonHandler.metricsData a = PythonHandler.metricsData b
  /\ PythonHandler.delivered a = PythonHandler.delivered b
  /\ PythonHandler.settled a = PythonHandler.settled b
  /\ PythonHandler.timeoutArmed a = PythonHandler.timeoutArmed b
  /\ PythonHandler.tempFile a = PythonHandler.tempFile b.

(** A step of the shell handlers that treats two states alike as long as
    they differ in the log only. *)
Definition logBlind (f : PythonHandler.state -> PythonHandler.state) : Prop :=
  forall a b, sameButLog a b -> sameButLog (f a) (f b).

(** A request that reuses an identifier. *)
Definition sampleRequest : CodeExecutionService.Request.t :=
  CodeExecutionService.Request.mk "print(1)" "python" ""
    Samples.allOptions "run-1".


Definition linkIdOfCall (c : FunctionCall.t) : string :=
  linkIdOf (sourceOf c) (FunctionCall.name c).

Definition callsWithId (id : string) (calls : list FunctionCall.t)
  : list FunctionCall.t :=
  filter (fun c => String.eqb (linkIdOfCall c) id) calls.


Definition sumDurations (calls : list FunctionCall.t) : Z :=
  fold_right (fun c acc => (FunctionCall.duration c + acc)%Z) 0%Z calls.

Definition countOf (id : string) (calls : list FunctionCall.t)
  : LinkCount.t :=
  let cs := callsWithId id calls in
  LinkCount.mk
    (match cs with c :: _ => sourceOf c | [] => "" end)
    (match cs with c :: _ => FunctionCall.name c | [] => "" end)
    (List.length cs) (sumDurations cs).


Definition endpoints (c : FunctionCall.t) : list string :=
  [sourceOf c; FunctionCall.name c].

Definition addLinkCount (callCountMap : callCountMapT) (call : FunctionCall.t)
  : callCountMapT :=
  snd (addCall ([], callCountMap) call).

(** The steps recorded for line [l], and what the table says about it. *)
Definition stepsOf (l : N) (flow : list LineExecution.t)
  : list LineExecution.t :=
  filter (fun s => N.eqb (LineExecution.line s) l) flow.

Definition totalOf (steps : list LineExecution.t) : Z :=
  fold_right
    (fun s acc => (durationOrZero (LineExecution.duration s) + acc)%Z)
    0%Z steps.

Definition statsOf (l : N) (flow : list LineExecution.t) : LineStats.t :=
  let steps := stepsOf l flow in
  LineStats.mk l
    (match steps with s :: _ => LineExecution.code s | [] => "" end)
    (List.length steps) (totalOf steps) (map LineExecution.timestamp steps).

Definition rowOf (l : N) (flow : list LineExecution.t) : LineRow.t :=
  let steps := stepsOf l flow in
  LineRow.mk l
    (match steps with s :: _ => LineExecution.code s | [] => "" end)
    (List.length steps) (totalOf steps) (map LineExecution.timestamp steps)
    (inject_Z (totalOf steps) / inject_Z (Z.of_nat (List.length steps))).

(** Ascending order of line numbers, by insertion. *)
Fixpoint insertLine (l : N) (ls : list N) : list N :=
  match ls with
  | [] => [l]
  | x :: rest => if (l <=? x)%N then l :: ls else x :: insertLine l rest
  end.

Fixpoint sortLines (ls : list N) : list N :=
  match ls with
  | [] => []
  | x :: rest => insertLine x (sortLines rest)
  end.

(** The trace of the heatmap example: line 7 three times (3 ms each) and
    line 4 once (1 ms). *)
Definition exampleFlow : list LineExecution.t :=
  [ Samples.step 7 3; Samples.step 4 1; Samples.step 7 3; Samples.step 7 3 ].

(** The trace of the aggregation example: three calls of [f] lasting 10, 20
    and 30, two calls of [g] lasting 5 each. *)
Definition exampleCalls : list FunctionCall.t :=
  [ Samples.call "f" None 10; Samples.call "f" None 20;
    Samples.call "f" None 30; Samples.call "g" None 5;
    Samples.call "g" None 5 ].

End Spec.

(** ** server/services/metricsService.js, continued *)

Module VariableTracing.

Module Change.
Record t : Type := mk { timestamp : Z; value : string; line : N }.
End Change.

Module Group.
Record t : Type := mk
  { name : string; type : string; changes : list Change.t }.
End Group.

(** What [variables[state.name]] yields: a group the dictionary owns, a
    function or object found on [Object.prototype], or nothing. *)
Inductive found : Type :=
  | ownGroup (g : Group.t)
  | inheritedValue
  | undefined.

Definition variablesT : Type := @JsObject.t string Group.t.

Definition inherited (k : string) : bool :=
  String.eqb k JsObject.proto_accessor
  || JsObject.mem_string k JsObject.prototype_methods.

Definition read (variables : variablesT) (k : string) : found :=
  match JsObject.get String.eqb variables k with
  | Some g => ownGroup g
  | None => if inherited k then inheritedValue else undefined
  end.

Definition changeOf (state : VariableState.t) : Change.t :=
  Change.mk (VariableState.timestamp state) (VariableState.value state)
    (VariableState.line state).

(** One turn of the loop; [None] when it raises a [TypeError]: an inherited
    value is truthy, so no group is created for it, and it has no [changes]
    to push on. *)
Definition addState (variables : variablesT) (state : VariableState.t)
  : option variablesT :=
  let name := VariableState.name state in
  let variables :=
    match read variables name with
    | undefined =>
        JsObject.set String.eqb variables name
          (Group.mk name (VariableState.type state) [])
    | _ => variables
    end in
  match read variables name with
  | ownGroup g =>
      Some (JsObject.set String.eqb variables name
              (Group.mk (Group.name g) (Group.type g)
                 (Group.changes g ++ [changeOf state])))
  | inheritedValue | undefined => None
  end.

Fixpoint addStates (variables : variablesT) (states : list VariableState.t)
  : option variablesT :=
  match states with
  | [] => Some variables
  | state :: rest =>
      match addState variables state with
      | Some variables' => addStates variables' rest
      | None => None
      end
  end.

Definition processVariableStates (variableStates : list VariableState.t)
  : option (list Group.t) :=
  option_map (JsObject.values JsObject.string_index)
    (addStates JsObject.empty variableStates).

End VariableTracing.

(** ** [metricsService.processMemoryData] *)

Module MemoryChart.

(** [null] is [None]. *)
Module Point.
Record t : Type := mk
  { timestamp : Z; value : Z;
    allocation : option Z; deallocation : option Z }.
End Point.

(** [x || null] on a number. *)
Definition orNull (x : Z) : option Z := if (x =? 0)%Z then None else Some x.

Definition processMemoryData (memoryData : list MemoryPoint.t)
  : list Point.t :=
  map (fun point =>
         Point.mk (MemoryPoint.timestamp point) (MemoryPoint.value point)
           (orNull (MemoryPoint.allocation point))
           (orNull (MemoryPoint.deallocation point)))
    memoryData.

End MemoryChart.

(** ** [metricsService.processMetrics], as a whole

    The object [processMetrics] returns: [summary], [callGraph] and
    [executionFlow] are the fields [MetricsService.processMetrics] gives;
    [timeComplexity] is a fixed placeholder; the last field is computed by
    [processVariableStates], and when that raises so does [processMetrics]. *)

Module Report.

Module TimeComplexity.
Record t : Type := mk
  { estimatedComplexity : string; confidence : Q; dataPoints : list Q }.
End TimeComplexity.

Definition analyzeTimeComplexity (metrics : RawMetrics.t) : TimeComplexity.t :=
  TimeComplexity.mk "O(n)" (8 # 10) [].

Record t : Type := mk
  { processed : MetricsService.Processed.t;
    timeComplexity : TimeComplexity.t;
    memoryUsage : list MemoryChart.Point.t;
    variableTracing : list VariableTracing.Group.t }.

(** The [TypeError] of [variables[state.name].changes.push] when the value
    found has no [changes]. *)
Definition pushOnUndefined : string :=
  "Cannot read properties of undefined (reading 'push')".

(** [inl] the object returned, [inr] the message of the error raised. *)
Definition processMetrics (metrics : RawMetrics.t) : t + string :=
  let processed := MetricsService.processMetrics metrics in
  let timeComplexity := analyzeTimeComplexity metrics in
  let memoryUsage :=
    MemoryChart.processMemoryData (RawMetrics.memoryUsage metrics) in
  match VariableTracing.processVariableStates
          (RawMetrics.variableStates metrics) with
  | Some variableTracing =>
      inl (mk processed timeComplexity memoryUsage variableTracing)
  | None => inr pushOnUndefined
  end.

End Report.

(** ** [javascriptHandler.executeCode]: the sandbox of the instrumented
    program *)

Module JavascriptSandbox.

Module MemoryUsage.
Record t : Type := mk
  { rss : Z; heapTotal : Z; heapUsed : Z; external : Z }.
End MemoryUsage.

(** The [process.memoryUsage] the sandbox offers. *)
Definition memoryUsage : MemoryUsage.t := MemoryUsage.mk 0 0 0 0.

(** What a program run in the sandbox reads: the host's clock, and
    [process.memoryUsage().heapUsed] for the memory in use. *)
Definition readings (startedAt sampledAt finishedAt completedAt : Z)
  : Collector.readings :=
  Collector.mkReadings startedAt (MemoryUsage.heapUsed memoryUsage) sampledAt
    (MemoryUsage.heapUsed memoryUsage) finishedAt completedAt.

Inductive settlement : Type :=
  | resolved (data : Collector.sent)
  | rejected (message : string).

Record state : Type := mkState
  { delivered : list Collector.sent;
    settled : option settlement }.

Definition started : state := mkState [] None.

Definition metricsCallback (e : Collector.sent) (st : state) : state :=
  mkState (delivered st ++ [e]) (settled st).

Definition settle (s : settlement) (st : state) : state :=
  match settled st with
  | Some _ => st
  | None => mkState (delivered st) (Some s)
  end.

(** The message of [new Error(message)]: empty when [message] is
    [undefined]. *)
Definition errorText (message : option string) : string :=
  match message with
  | Some text => text
  | None => EmptyString
  end.

(** The sandbox's [process.send(data)]; every message of the instrumented
    program has a non-empty [event] and an object as [data], so the guard
    [data.event && data.data] lets it through. *)
Definition send (hasCallback : bool) (st : state) (e : Collector.sent)
  : state :=
  let st := if hasCallback then metricsCallback e st else st in
  match e with
  | Collector.complete _ _ _ _ _ => settle (resolved e) st
  | Collector.error message => settle (rejected (errorText message)) st
  | _ => st
  end.

(** How [vm.run] ends: the program runs to its end, or [vm.run] raises
    ([message]) when the program has sent its first [after] messages: none
    for a text that does not parse, some for a run that exceeds the time
    limit. *)
Inductive run : Type :=
  | ranToEnd
  | stopped (after : nat) (message : string).

(** The messages that reach [process.send]. *)
Definition sentBy (program : list Collector.sent) (r : run)
  : list Collector.sent :=
  match r with
  | ranToEnd => program
  | stopped after _ => firstn after program
  end.

(** What [vm.run] raises: the error that stopped the run, or the one that
    [escapes] from a program run to its end. *)
Definition raisedBy (escapes : option string) (r : run) : option string :=
  match r with
  | ranToEnd => escapes
  | stopped _ message => Some message
  end.

(** [executeCode]: [vm.run] runs the program, which sends its messages; what
    [vm.run] raises is reported to the callback and rejects the promise. *)
Definition executeCode (hasCallback : bool) (program : list Collector.sent)
  (escapes : option string) (r : run) : state :=
  let st := fold_left (send hasCallback) (sentBy program r) started in
  match raisedBy escapes r with
  | None => st
  | Some message =>
      settle (rejected message)
        (if hasCallback
         then metricsCallback (Collector.error (Some message)) st
         else st)
  end.

End JavascriptSandbox.

(** ** [codeExecutionService.executeForComparison] and
    [executionController.compareExecutions], for the JavaScript handler *)

Module ComparisonRun.







End ComparisonRun.

(** ** Lines of a text: [split('\n')] and [join] *)

Module Lines.

Local Open Scope string_scope.

Definition isNewline (c : ascii) : bool := (nat_of_ascii c =? 10)%nat.

(** [s.split('\n')]: never empty; the pieces hold no line feed. *)
Fixpoint split (s : string) : list string :=
  match s with
  | EmptyString => [EmptyString]
  | String c rest =>
      if isNewline c then EmptyString :: split rest
      else match split rest with
           | line :: lines => String c line :: lines
           | [] => [String c EmptyString]
           end
  end.

Fixpoint join (separator : string) (l : list string) : string :=
  match l with
  | [] => ""
  | [x] => x
  | x :: rest => x ++ separator ++ join separator rest
  end.

Fixpoint noNewline (s : string) : bool :=
  match s with
  | EmptyString => true
  | String c rest => negb (isNewline c) && noNewline rest
  end.

End Lines.

(** ** [instrumentExecutionFlow] *)

Module FlowInstrumentation.

Local Open Scope string_scope.

Definition startsWith (s p : string) : bool := String.prefix p s.

Definition endsWith (s p : string) : bool :=
  String.prefix (Text.reverse p) (Text.reverse s).

(** [line.replace(/'/g, "\\'")]: a backslash goes before every quote. *)
Fixpoint escapeQuotes (s : string) : string :=
  match s with
  | EmptyString => EmptyString
  | String c rest =>
      if Ascii.eqb c "'"
      then String "\" (String "'" (escapeQuotes rest))
      else String c (escapeQuotes rest)
  end.

(** A number in a template literal: its decimal digits. *)
Definition decimal (n : nat) : string :=
  DecimalString.NilEmpty.string_of_uint (Nat.to_uint n).

(** The lines pushed unchanged: blank lines, comment lines, lines that only
    close a block, and lines that open one. *)
Definition skipped (line : string) : bool :=
  let trimmed := Text.trim line in
  String.eqb trimmed "" || startsWith trimmed "//"
  || String.eqb trimmed "}" || String.eqb trimmed "});"
  || String.eqb trimmed "};"
  || endsWith trimmed "{".

Definition leadingWhitespace (line : string) : string :=
  fst (Text.span Text.is_space line).

(** [number] is [i+1]. *)
Definition openLine (number : nat) (line : string) : string :=
  leadingWhitespace line
  ++ "{ const __executionTracker = __metrics.trackExecution("
  ++ decimal number ++ ", '" ++ escapeQuotes line ++ "'); try {".

Definition closeLine (line : string) : string :=
  leadingWhitespace line ++ "} finally { __executionTracker.end(); } }".

(** The loop over [lines], from index [i] on. *)
Fixpoint instrumentLines (i : nat) (lines : list string) : list string :=
  match lines with
  | [] => []
  | line :: rest =>
      (if skipped line then [line]
       else [openLine (i + 1) line; line; closeLine line])
      ++ instrumentLines (S i) rest
  end.

Definition instrumentExecutionFlow (code : string) (trackExecutionFlow : bool)
  : string :=
  if negb trackExecutionFlow then code
  else Lines.join Text.newline (instrumentLines 0 (Lines.split code)).

End FlowInstrumentation.

(** ** [validateCodeInput]: the middleware in front of the HTTP routes *)

Module Validation.

Local Open Scope string_scope.

Inductive outcome : Type :=
  | badRequest (message : string)
  | forbidden (message : string)
  | next.

(** 100 KB. *)
Definition MAX_CODE_SIZE : N := 100 * 1024.

Definition supportedLanguages : list string := ["javascript"; "python"].

(** [Buffer.byteLength(code, 'utf8')]: a code unit below 128 takes one byte,
    the others (up to 255 here) two. *)
Fixpoint byteLength (s : string) : N :=
  match s with
  | EmptyString => 0
  | String c rest =>
      ((if (N_of_ascii c <? 128)%N then 1 else 2) + byteLength rest)%N
  end.

(** The value of a body field when it passes
    [!x || typeof x !== 'string' || x.trim() === '']. *)
Definition nonEmptyString (field : Json.access) : option string :=
  match field with
  | Json.found (Json.text s) =>
      if String.eqb (Text.trim s) "" then None else Some s
  | _ => None
  end.

Section Middleware.

(** [validateCodeSafety(code, language)]: the reason when a pattern is found,
    [None] when the code is taken as safe. *)
Variable validateCodeSafety : string -> string -> option string.

Definition validateCodeInput (body : list (string * Json.t)) : outcome :=
  match nonEmptyString (Json.lookup body "code") with
  | None => badRequest "Code is required and must be a non-empty string"
  | Some code =>
      match nonEmptyString (Json.lookup body "language") with
      | None =>
          badRequest "Language is required and must be a non-empty string"
      | Some language =>
          if (MAX_CODE_SIZE <? byteLength code)%N then
            badRequest "Code size exceeds the maximum limit of 100 KB"
          else if negb (JsObject.mem_string language supportedLanguages) then
            badRequest
              ("Language '" ++ language
               ++ "' is not supported. Supported languages: "
               ++ Lines.join ", " supportedLanguages)
          else
            match validateCodeSafety code language with
            | Some reason =>
                forbidden ("Potentially unsafe code detected: " ++ reason)
            | None => next
            end
      end
  end.

End Middleware.

End Validation.

(** ** [visualizationService.generateTimeComplexityData]: the heatmap the
    client draws from [metrics.executionFlow] *)

Module VisualizationService.

(** What the function reads of an element of [metrics.executionFlow]; a
    property the element does not have reads as [undefined], here [None]. *)
Module Step.
Record t : Type := mk
  { line : N; code : string; timestamp : option Z; duration : option Z }.
End Step.

Module Execution.
Record t : Type := mk { time : option Z; duration : option Z }.
End Execution.

Module LineGroup.
Record t : Type := mk
  { line : N; code : string; executions : list Execution.t }.
End LineGroup.

(** [totalDuration] and [avgDuration] are [None] when they are [NaN];
    [intensity], the decimal logarithm of [executionCount], is a function of
    the count and is not kept. *)
Module HeatmapRow.
Record t : Type := mk
  { line : N; code : string; executionCount : nat;
    totalDuration : option Z; avgDuration : option Q }.
End HeatmapRow.

Definition lineGroupsT : Type := @JsObject.t N LineGroup.t.

Definition addStep (lineGroups : lineGroupsT) (step : Step.t) : lineGroupsT :=
  let line := Step.line step in
  let lineGroups :=
    match JsObject.get N.eqb lineGroups line with
    | None =>
        JsObject.set N.eqb lineGroups line
          (LineGroup.mk line (Step.code step) [])
    | Some _ => lineGroups
    end in
  match JsObject.get N.eqb lineGroups line with
  | None => lineGroups
  | Some g =>
      JsObject.set N.eqb lineGroups line
        (LineGroup.mk (LineGroup.line g) (LineGroup.code g)
           (LineGroup.executions g
            ++ [Execution.mk (Step.timestamp step) (Step.duration step)]))
  end.

(** [sum + exec.duration]: adding [undefined] gives [NaN], and [NaN] stays. *)
Definition js_add (sum duration : option Z) : option Z :=
  match sum, duration with
  | Some s, Some d => Some (s + d)%Z
  | _, _ => None
  end.

Definition totalDurationOf (executions : list Execution.t) : option Z :=
  fold_left (fun sum exec => js_add sum (Execution.duration exec)) executions
    (Some 0%Z).

(** Only lines executed more than once are pushed. *)
Definition toHeatmapRow (group : LineGroup.t) : list HeatmapRow.t :=
  let executions := LineGroup.executions group in
  if (1 <? List.length executions)%nat then
    [HeatmapRow.mk (LineGroup.line group) (LineGroup.code group)
       (List.length executions) (totalDurationOf executions)
       (option_map
          (fun total =>
             inject_Z total / inject_Z (Z.of_nat (List.length executions)))
          (totalDurationOf executions))]
  else [].

(** The comparator [(a, b) => b.totalDuration - a.totalDuration]; a [NaN]
    result counts as 0. *)
Definition compare (a b : HeatmapRow.t) : Z :=
  match HeatmapRow.totalDuration b, HeatmapRow.totalDuration a with
  | Some y, Some x => (y - x)%Z
  | _, _ => 0%Z
  end.

(** [Array.prototype.sort] is stable, so with a consistent comparator its
    result is the one stable insertion gives; with [NaN] totals the
    comparator is not consistent and the order is left to the engine. *)
Fixpoint insert (row : HeatmapRow.t) (sorted : list HeatmapRow.t)
  : list HeatmapRow.t :=
  match sorted with
  | [] => [row]
  | y :: rest =>
      if (0 <? compare y row)%Z then row :: sorted else y :: insert row rest
  end.

Definition sort (rows : list HeatmapRow.t) : list HeatmapRow.t :=
  fold_left (fun sorted row => insert row sorted) rows [].

Definition generateTimeComplexityData (executionFlow : list Step.t)
  : list HeatmapRow.t :=
  sort
    (flat_map toHeatmapRow
       (JsObject.values JsObject.number_index
          (fold_left addStep executionFlow JsObject.empty))).

(** A row of the server's [processExecutionFlow] as the function sees it:
    a row has no [timestamp] and no [duration]. *)
Definition ofRow (r : MetricsService.LineRow.t) : Step.t :=
  Step.mk (MetricsService.LineRow.line r) (MetricsService.LineRow.code r)
    None None.

(** The function applied to the metrics of the [execution-complete]
    message, which the server made with [processMetrics]; the TimeComplexity
    component groups [metrics.executionFlow] in the same way. *)
Definition heatmapOf (metrics : MetricsService.Processed.t)
  : list HeatmapRow.t :=
  generateTimeComplexityData
    (map ofRow (MetricsService.Processed.executionFlow metrics)).

End VisualizationService.

(** ** [executionController.getSupportedLanguages] *)

Module Language.
Record t : Type := mk { id : string; name : string; version : string }.
End Language.

Definition getSupportedLanguages : list Language.t :=
  [ Language.mk "javascript" "JavaScript" "ES2021";
    Language.mk "python" "Python" "3.9" ].

(** ** [setupSecurityMiddleware]: the rate limiter *)

Module Security.

(** 1 minute, and 60 requests per minute. *)
Definition WINDOW_MS : Z := 60 * 1000.
Definition MAX_REQUESTS : Z := 60.

Module Counter.
Record t : Type := mk { count : Z; resetTime : Z }.
End Counter.

(** [requestCounts], a plain object keyed by address. *)
Definition requestCountsT : Type := @JsObject.t string Counter.t.

(** The handler reads the clock once to compare ([now]) and, when it then
    starts a window over, once more to stamp it ([later]). *)
Module Request.
Record t : Type := mk { ip : string; now : Z; later : Z }.
End Request.

Inductive answer : Type := tooManyRequests | next.

Definition increment (c : Counter.t) : Counter.t :=
  Counter.mk (Counter.count c + 1) (Counter.resetTime c).

(** One request through the limiter.  For a name every object inherits
    ([requestCounts[ip]] is then a function, or [Object.prototype]) the entry
    reads as truthy, its [resetTime] as [undefined] and, after [count++] on
    the inherited object, its [count] as [NaN]: nothing is stored in
    [requestCounts] and the request goes on. *)
Definition rateLimiter (req : Request.t) (requestCounts : requestCountsT)
  : requestCountsT * answer :=
  let ip := Request.ip req in
  match JsObject.get String.eqb requestCounts ip with
  | None =>
      if VariableTracing.inherited ip then (requestCounts, next)
      else
        let entry :=
          increment (Counter.mk 0 (Request.now req + WINDOW_MS)) in
        (JsObject.set String.eqb requestCounts ip entry,
         if (MAX_REQUESTS <? Counter.count entry)%Z then tooManyRequests
         else next)
  | Some entry =>
      let entry :=
        if (Counter.resetTime entry <=? Request.now req)%Z
        then Counter.mk 0 (Request.later req + WINDOW_MS)
        else entry in
      let entry := increment entry in
      (JsObject.set String.eqb requestCounts ip entry,
       if (MAX_REQUESTS <? Counter.count entry)%Z then tooManyRequests
       else next)
  end.

End Security.

(** ** The user code inside the Python program: indentation and
    [instrumentPythonFunctions] *)

Module PythonText.

Local Open Scope string_scope.

(** [[a-zA-Z_]] and [[a-zA-Z0-9_]]. *)
Definition is_name_start (c : ascii) : bool :=
  Text.code_in c 97 122 || Text.code_in c 65 90 || Ascii.eqb c "_".

Definition is_name_char (c : ascii) : bool :=
  is_name_start c || Text.is_digit c.

(** What the dot of a regular expression matches: anything but a line
    terminator. *)
Definition not_terminator (c : ascii) : bool :=
  negb ((nat_of_ascii c =? 10)%nat || (nat_of_ascii c =? 13)%nat).

(** The longest prefix of [s] that ends with a closing parenthesis and a
    colon. *)
Fixpoint lastClose (s : string) : option string :=
  match s with
  | EmptyString => None
  | String c rest =>
      match lastClose rest with
      | Some m => Some (String c m)
      | None => if String.prefix "):" s then Some "):" else None
      end
  end.

(** The function-definition expression at the start of [s]: blanks (first
    capture, the indentation), then as second capture [def], at least one
    blank, a name, blanks, an opening parenthesis and the rest of the line up
    to its last closing parenthesis followed by a colon.  Every repeated
    piece but the last is followed by a character it cannot contain, and the
    last one is cut at the last place where the rest can match, so the
    choice made here is the one the matcher ends on. *)
Definition functionDefinitionAt : JavascriptHandler.pattern := fun s =>
  let '(indentation, s1) := Text.span Text.is_space s in
  if String.prefix "def" s1 then
    let '(ws1, s3) := Text.span Text.is_space (Text.drop 3 s1) in
    match ws1, s3 with
    | String _ _, String c _ =>
        if is_name_start c then
          let '(name, s4) := Text.span is_name_char s3 in
          let '(ws2, s5) := Text.span Text.is_space s4 in
          match s5 with
          | String c5 s6 =>
              if Ascii.eqb c5 "(" then
                match lastClose (fst (Text.span not_terminator s6)) with
                | Some arguments =>
                    let definition :=
                      "def" ++ ws1 ++ name ++ ws2 ++ "(" ++ arguments in
                    Some (indentation ++ definition, indentation, definition)
                | None => None
                end
              else None
          | EmptyString => None
          end
        else None
    | _, _ => None
    end
  else None.

Definition decorate (matched indentation definition : string) : string :=
  indentation ++ "@track_function" ++ Text.newline ++ indentation
  ++ definition.

Definition instrumentPythonFunctions (code : string) : string :=
  JavascriptHandler.replace functionDefinitionAt decorate code.

Definition indentUserCode (code : string) : string :=
  Lines.join Text.newline
    (map (fun line => "    " ++ line) (Lines.split code)).

(** The user code as [instrumentCode] puts it into the program. *)
Definition processedUserCode (code : string) (trackFunctions : bool)
  : string :=
  let indentedUserCode := indentUserCode code in
  if trackFunctions then instrumentPythonFunctions indentedUserCode
  else indentedUserCode.

End PythonText.

(** ** The ExecutionFlow component: [processExecutionFlowData] *)

Module ExecutionFlowComponent.

(** [totalDuration] and [averageDuration] are [None] when they are [NaN]. *)
Module LineGroup.
Record t : Type := mk
  { line : N; code : string; executionCount : nat;
    totalDuration : option Z }.
End LineGroup.

Module ChartRow.
Record t : Type := mk
  { line : N; code : string; executionCount : nat;
    totalDuration : option Z; averageDuration : option Q }.
End ChartRow.

Definition lineGroupsT : Type := @JsObject.t N LineGroup.t.

Definition addStep (lineGroups : lineGroupsT)
  (step : VisualizationService.Step.t) : lineGroupsT :=
  let line := VisualizationService.Step.line step in
  let lineGroups :=
    match JsObject.get N.eqb lineGroups line with
    | None =>
        JsObject.set N.eqb lineGroups line
          (LineGroup.mk line (VisualizationService.Step.code step) 0
             (Some 0%Z))
    | Some _ => lineGroups
    end in
  match JsObject.get N.eqb lineGroups line with
  | None => lineGroups
  | Some g =>
      JsObject.set N.eqb lineGroups line
        (LineGroup.mk (LineGroup.line g) (LineGroup.code g)
           (LineGroup.executionCount g + 1)
           (VisualizationService.js_add (LineGroup.totalDuration g)
              (VisualizationService.Step.duration step)))
  end.

Definition toChartRow (g : LineGroup.t) : ChartRow.t :=
  ChartRow.mk (LineGroup.line g) (LineGroup.code g)
    (LineGroup.executionCount g) (LineGroup.totalDuration g)
    (option_map
       (fun total =>
          inject_Z total / inject_Z (Z.of_nat (LineGroup.executionCount g)))
       (LineGroup.totalDuration g)).

(** The comparator [(a, b) => a.line - b.line]. *)
Definition compare (a b : ChartRow.t) : Z :=
  (Z.of_N (ChartRow.line a) - Z.of_N (ChartRow.line b))%Z.

(** The stable sort, by insertion (the comparator is consistent). *)
Fixpoint insert (row : ChartRow.t) (sorted : list ChartRow.t)
  : list ChartRow.t :=
  match sorted with
  | [] => [row]
  | y :: rest =>
      if (0 <? compare y row)%Z then row :: sorted else y :: insert row rest
  end.

Definition sort (rows : list ChartRow.t) : list ChartRow.t :=
  fold_left (fun sorted row => insert row sorted) rows [].

Definition processExecutionFlowData
  (executionFlow : list VisualizationService.Step.t) : list ChartRow.t :=
  sort
    (map toChartRow
       (JsObject.values JsObject.number_index
          (fold_left addStep executionFlow JsObject.empty))).

(** The component is handed the metrics of the [execution-complete]
    message, which the server made with [processMetrics]. *)
Definition chartOf (metrics : MetricsService.Processed.t)
  : list ChartRow.t :=
  processExecutionFlowData
    (map VisualizationService.ofRow
       (MetricsService.Processed.executionFlow metrics)).

End ExecutionFlowComponent.

(** ** Vocabulary of the further properties *)

Module More.

Definition sumZ (l : list Z) : Z := fold_right Z.add 0%Z l.

(** The sum of a weight over a list. *)
Definition weightOf {A : Type} (weight : A -> Z) (l : list A) : Z :=
  fold_right (fun a acc => (weight a + acc)%Z) 0%Z l.

(** The values of [callCountMap] when [generateCallGraph] has gone through
    the calls, in the order [callCountMap.forEach] visits them. *)
Definition callCountsOf (calls : list FunctionCall.t)
  : list MetricsService.LinkCount.t :=
  map snd
    (snd (fold_left MetricsService.addCall calls ([], JsObject.empty))).

(** The states recorded for variable [n], and the group they form. *)
Definition statesOf (n : string) (states : list VariableState.t)
  : list VariableState.t :=
  filter (fun s => String.eqb (VariableState.name s) n) states.

Definition groupOf (states : list VariableState.t) (n : string)
  : VariableTracing.Group.t :=
  let ss := statesOf n states in
  VariableTracing.Group.mk n
    (match ss with s :: _ => VariableState.type s | [] => "" end)
    (map VariableTracing.changeOf ss).

Definition ownKeysPlain (variables : VariableTracing.variablesT) : Prop :=
  forall k, In k (JsObject.keys variables) ->
            VariableTracing.inherited k = false.













(** The frames of the Python protocol, and how [executeCode] ends for a given
    output of the shell. *)
Definition isErrorFrame (message : string) : bool :=
  String.prefix PythonHandler.METRICS_ERROR message.

Definition isCompleteFrame (message : string) : bool :=
  String.prefix PythonHandler.METRICS_COMPLETE message.

Definition rejectionOf (parse : string -> option Json.t) (frame : string)
  : PythonHandler.rejection :=
  match parse (PythonHandler.payload PythonHandler.METRICS_ERROR frame) with
  | None => PythonHandler.caughtException
  | Some errorData =>
      match Json.property errorData "message" with
      | Json.raisesTypeError => PythonHandler.caughtException
      | message => PythonHandler.reportedError message
      end
  end.

Definition laterComplete (parse : string -> option Json.t) (data : Json.t)
  (message : string) : Json.t :=
  if isCompleteFrame message then
    match parse (PythonHandler.payload PythonHandler.METRICS_COMPLETE
                   message) with
    | Some j => j
    | None => data
    end
  else data.

Definition lastComplete (parse : string -> option Json.t)
  (messages : list string) : Json.t :=
  fold_left (laterComplete parse) messages PythonHandler.emptyMetricsData.

Definition outcome (parse : string -> option Json.t)
  (messages : list string) (err : option string) : PythonHandler.settlement :=
  match find isErrorFrame messages with
  | Some frame => PythonHandler.rejected (rejectionOf parse frame)
  | None =>
      match err with
      | Some message =>
          PythonHandler.rejected (PythonHandler.shellError message)
      | None => PythonHandler.resolved (lastComplete parse messages)
      end
  end.


(** A sandbox reports a series of events, one after the other. *)
Definition deliverAll (connected : bool) (n : nat)
  (events : list (string * string)) (w : CodeExecutionService.world)
  : CodeExecutionService.world :=
  fold_left
    (fun w e => CodeExecutionService.deliver connected n (fst e) (snd e) w)
    events w.

Definition dataOf (kind : string) (events : list (string * string))
  : list string :=
  map snd (filter (fun e => String.eqb (fst e) kind) events).


(** The lines [instrumentExecutionFlow] wraps, and how many of them come
    before line [i]. *)
Definition tracked (line : string) : bool :=
  negb (FlowInstrumentation.skipped line).

Definition trackedBefore (i : nat) (lines : list string) : nat :=
  Spec.count tracked (firstn i lines).


(** The initialiser of the tracker in the line added in front of a wrapped
    line, and texts without a semicolon. *)
Definition trackerCall (number : nat) (line : string) : string :=
  ("__metrics.trackExecution(" ++ FlowInstrumentation.decimal number ++ ", '"
   ++ FlowInstrumentation.escapeQuotes line ++ "')")%string.

Definition notSemicolon (c : ascii) : bool := negb (Ascii.eqb c ";").

Fixpoint semicolonFree (s : string) : bool :=
  match s with
  | EmptyString => true
  | String c rest => notSemicolon c && semicolonFree rest
  end.

(** The rewrite of [const] declarations, the second pass of
    [instrumentVariables]. *)
Definition constPass (code : string) : string :=
  JavascriptHandler.replace (JavascriptHandler.declarationAt "const")
    (JavascriptHandler.declarationCallback "const") code.


(** The steps of one line, and the group they form for the heatmap. *)
Definition stepsAt (l : N) (steps : list VisualizationService.Step.t)
  : list VisualizationService.Step.t :=
  filter (fun s => N.eqb (VisualizationService.Step.line s) l) steps.

Definition executionOf (s : VisualizationService.Step.t)
  : VisualizationService.Execution.t :=
  VisualizationService.Execution.mk (VisualizationService.Step.timestamp s)
    (VisualizationService.Step.duration s).

Definition groupAt (steps : list VisualizationService.Step.t) (l : N)
  : VisualizationService.LineGroup.t :=
  let ss := stepsAt l steps in
  VisualizationService.LineGroup.mk l
    (match ss with
     | s :: _ => VisualizationService.Step.code s
     | [] => ""
     end)
    (map executionOf ss).

Definition durationAt (s : VisualizationService.Step.t) : Z :=
  MetricsService.durationOrZero (VisualizationService.Step.duration s).

(** Both totals are numbers, and the total of [a] is not the smaller one. *)
Definition notBelow (a b : VisualizationService.HeatmapRow.t) : Prop :=
  exists x y,
    VisualizationService.HeatmapRow.totalDuration a = Some x
    /\ VisualizationService.HeatmapRow.totalDuration b = Some y
    /\ (y <= x)%Z.

(** The trace of the specification's example: line 4 once, line 7 three
    times. *)
Definition exampleSteps : list VisualizationService.Step.t :=
  [ VisualizationService.Step.mk 4 "a = 1" (Some 0%Z) (Some 5%Z);
    VisualizationService.Step.mk 7 "b += a" (Some 1%Z) (Some 2%Z);
    VisualizationService.Step.mk 7 "b += a" (Some 2%Z) (Some 3%Z);
    VisualizationService.Step.mk 7 "b += a" (Some 3%Z) (Some 4%Z) ].


(** The answers the limiter gives to the requests of one address when a
    series of requests arrives. *)
Fixpoint answersFor (ip : string) (requests : list Security.Request.t)
  (requestCounts : Security.requestCountsT) : list Security.answer :=
  match requests with
  | [] => []
  | req :: rest =>
      let '(requestCounts', a) := Security.rateLimiter req requestCounts in
      ((if String.eqb (Security.Request.ip req) ip then [a] else [])
       ++ answersFor ip rest requestCounts')%list
  end.

(** The answer to the request that brings the count of its window to [n]. *)
Definition answerAt (n : nat) : Security.answer :=
  if (n <=? 60)%nat then Security.next else Security.tooManyRequests.

(** No entry for the address, or one whose window is over. *)
Definition freshFor (ip : string) (now : Z)
  (requestCounts : Security.requestCountsT) : Prop :=
  match JsObject.get String.eqb requestCounts ip with
  | None => True
  | Some entry => (Security.Counter.resetTime entry <= now)%Z
  end.

(** The end of the window a request opens for its address. *)
Definition windowEnd (req : Security.Request.t)
  (requestCounts : Security.requestCountsT) : Z :=
  match JsObject.get String.eqb requestCounts (Security.Request.ip req) with
  | None => (Security.Request.now req + Security.WINDOW_MS)%Z
  | Some _ => (Security.Request.later req + Security.WINDOW_MS)%Z
  end.


(** A segment of the decorated Python text: a copied character, or a
    definition with its indentation, given the decorator at the same
    indentation. *)
Definition decoratedSegment (g : JavascriptHandler.segment) : Prop :=
  match g with
  | JavascriptHandler.copied _ => True
  | JavascriptHandler.replaced matched indentation definition replacement =>
      matched = (indentation ++ definition)%string
      /\ replacement
         = (indentation ++ "@track_function" ++ Text.newline ++ indentation
            ++ definition)%string
      /\ Forall (fun c => Text.is_space c = true)
           (list_ascii_of_string indentation)
      /\ String.prefix "def" definition = true
  end.


(** The group the ExecutionFlow component forms for one line. *)
Definition totalAt (ss : list VisualizationService.Step.t) : option Z :=
  fold_left
    (fun sum s =>
       VisualizationService.js_add sum (VisualizationService.Step.duration s))
    ss (Some 0%Z).

Definition chartGroupAt (steps : list VisualizationService.Step.t) (l : N)
  : ExecutionFlowComponent.LineGroup.t :=
  let ss := stepsAt l steps in
  ExecutionFlowComponent.LineGroup.mk l
    (match ss with
     | s :: _ => VisualizationService.Step.code s
     | [] => ""
     end)
    (List.length ss) (totalAt ss).




End More.

(** * Properties *)

Import MetricsService.

(** ** Percentages and the comparison verdict *)

Lemma Qltb_lt (a b : Q) : Qltb a b = true <-> a < b.
Proof.
  unfold Qltb. rewrite negb_true_iff. split.
  - intros H. apply Qnot_le_lt. intros Hle.
    apply Qle_bool_iff in Hle. congruence.
  - intros H. destruct (Qle_bool b a) eqn:E; [|reflexivity].
    apply Qle_bool_iff in E. exfalso. exact (Qlt_not_le _ _ H E).
Qed.

Lemma Qltb_false (a b : Q) : Qltb a b = false <-> b <= a.
Proof.
  unfold Qltb. rewrite negb_false_iff. apply Qle_bool_iff.
Qed.

Lemma Qltb_ext (a b c d : Q) : (a < b <-> c < d) -> Qltb a b = Qltb c d.
Proof.
  intros H. destruct (Qltb a b) eqn:E1, (Qltb c d) eqn:E2; try reflexivity.
  - apply Qltb_lt in E1. apply H in E1. apply Qltb_lt in E1. congruence.
  - apply Qltb_lt in E2. apply H in E2. apply Qltb_lt in E2. congruence.
Qed.

Lemma Qeq_bool_false (a b : Q) : Qeq_bool a b = false -> ~ a == b.
Proof.
  intros H E. apply Qeq_bool_iff in E. congruence.
Qed.

Lemma percent_of_quotient (a b : Q) :
  ~ a == 0 -> ((b - a) / a * 100) * a == (b - a) * 100.
Proof.
  intros Ha. field. exact Ha.
Qed.

(** On non-negative measurements the percentage has the sign of the
    difference. *)
Lemma percentChange_sign (a b : Q) :
  0 <= a -> 0 <= b ->
  exists p, calculatePercentChange a b = Some p
            /\ Qltb p 0 = Qltb b a /\ Qltb 0 p = Qltb a b.
Proof.
  intros Ha Hb. unfold calculatePercentChange, js_div.
  destruct (Qeq_bool a 0) eqn:Ea.
  - apply Qeq_bool_iff in Ea.
    destruct (Qeq_bool b 0) eqn:Eb.
    + apply Qeq_bool_iff in Eb. exists 0. split; [reflexivity|].
      split; apply Qltb_ext; rewrite Ea, Eb; tauto.
    + apply Qeq_bool_false in Eb. exists 100. split; [reflexivity|].
      assert (Hpos : 0 < b).
      { apply Qle_lteq in Hb. destruct Hb as [Hb|Hb]; [exact Hb|].
        exfalso. apply Eb. symmetry. exact Hb. }
      split; apply Qltb_ext; rewrite Ea; split; intros H.
      * exfalso. revert H. apply Qle_not_lt. discriminate.
      * exfalso. exact (Qlt_not_le _ _ H Hb).
      * exact Hpos.
      * reflexivity.
  - apply Qeq_bool_false in Ea. simpl.
    exists ((b - a) / a * 100). split; [reflexivity|].
    pose proof (percent_of_quotient a b Ea) as Hq.
    assert (Hpos : 0 < a).
    { apply Qle_lteq in Ha. destruct Ha as [Ha|Ha]; [exact Ha|].
      exfalso. apply Ea. symmetry. exact Ha. }
    set (p := (b - a) / a * 100) in *. clearbody p.
    split; apply Qltb_ext; split; intros H; nra.
Qed.

(** C9.  [calculatePercentChange] always returns a finite number, so no
    division by zero takes place: when the old value is 0 the result is 0 if
    the new value is 0 too and 100 otherwise; when the old value is not 0 the
    result is ((new - old) / old) * 100. *)
Theorem calculatePercentChange_total (oldValue newValue : Q) :
  exists r,
    calculatePercentChange oldValue newValue = Some r
    /\ (oldValue == 0 -> newValue == 0 -> r == 0)
    /\ (oldValue == 0 -> ~ newValue == 0 -> r == 100)
    /\ (~ oldValue == 0 -> r == (newValue - oldValue) / oldValue * 100).
Proof.
  unfold calculatePercentChange, js_div.
  destruct (Qeq_bool oldValue 0) eqn:Eo.
  - apply Qeq_bool_iff in Eo.
    destruct (Qeq_bool newValue 0) eqn:En.
    + exists 0. split; [reflexivity|].
      split; [|split]; intros H; [intros _; reflexivity | intros Hn |].
      * apply Qeq_bool_iff in En. contradiction.
      * contradiction.
    + exists 100. split; [reflexivity|].
      split; [|split]; intros H; [intros Hn | intros _; reflexivity |].
      * apply Qeq_bool_false in En. contradiction.
      * contradiction.
  - apply Qeq_bool_false in Eo. simpl.
    exists ((newValue - oldValue) / oldValue * 100).
    split; [reflexivity|].
    split; [|split]; intros H; try contradiction.
    reflexivity.
Qed.

Lemma calculatePercentChange_total_witness :
  exists r, calculatePercentChange 50 75 = Some r /\ r == 50.
Proof.
  destruct (calculatePercentChange_total 50 75) as (r & Hr & _ & _ & Hn).
  exists r. split; [exact Hr|].
  rewrite Hn; [reflexivity | discriminate].
Defined.

Lemma weigh_from_zero (score weight : Z) (p : Q) :
  weigh score weight p = (score + weigh 0 weight p)%Z.
Proof.
  unfold weigh. destruct (Qltb p 0), (Qltb 0 p); lia.
Qed.

Lemma weigh_opposite (weight : Z) (p p' : Q) :
  Qltb p' 0 = Qltb 0 p -> Qltb 0 p' = Qltb p 0 ->
  weigh 0 weight p' = (- weigh 0 weight p)%Z.
Proof.
  intros H1 H2. unfold weigh. rewrite H1, H2.
  destruct (Qltb p 0) eqn:Hn, (Qltb 0 p) eqn:Hp; try lia.
  apply Qltb_lt in Hn. apply Qltb_lt in Hp. lra.
Qed.

Lemma weigh_level (weight : Z) (p : Q) :
  Qltb p 0 = false -> Qltb 0 p = false -> weigh 0 weight p = 0%Z.
Proof.
  intros H1 H2. unfold weigh. rewrite H1, H2. reflexivity.
Qed.

Lemma deltaOf_pair (a b : Q) :
  0 <= a -> 0 <= b ->
  exists d e,
    deltaOf a b = Some d /\ deltaOf b a = Some e
    /\ Delta.diff d = b - a /\ Delta.diff e = a - b
    /\ (forall w, weigh 0 w (Delta.percentChange e)
                  = (- weigh 0 w (Delta.percentChange d))%Z)
    /\ (b - a == 0 -> forall w, weigh 0 w (Delta.percentChange d) = 0%Z).
Proof.
  intros Ha Hb.
  destruct (percentChange_sign a b Ha Hb) as (p & Hp & Hp1 & Hp2).
  destruct (percentChange_sign b a Hb Ha) as (q & Hq & Hq1 & Hq2).
  exists (Delta.mk (b - a) p), (Delta.mk (a - b) q).
  unfold deltaOf. rewrite Hp, Hq. simpl.
  repeat split.
  - intros w. apply weigh_opposite; congruence.
  - intros Hz w. apply weigh_level.
    + rewrite Hp1. apply Qltb_false. lra.
    + rewrite Hp2. apply Qltb_false. lra.
Qed.

Lemma verdict_of_score (d : Deltas.t) :
  (determineOverallImprovement d = code1 <-> (0 < scoreOf d)%Z)
  /\ (determineOverallImprovement d = code2 <-> (scoreOf d < 0)%Z)
  /\ (determineOverallImprovement d = tie <-> scoreOf d = 0%Z).
Proof.
  unfold determineOverallImprovement.
  destruct (scoreOf d >? 0)%Z eqn:E1; [|destruct (scoreOf d <? 0)%Z eqn:E2].
  - apply Z.gtb_lt in E1. repeat split; intros; try discriminate; lia.
  - apply Z.ltb_lt in E2. repeat split; intros; try discriminate; lia.
  - assert (~ (0 < scoreOf d)%Z) by (rewrite <- Z.gtb_lt; congruence).
    apply Z.ltb_ge in E2.
    repeat split; intros; try discriminate; lia.
Qed.

Lemma scoreOf_sum (d : Deltas.t) :
  scoreOf d
  = (weigh 0 3 (Delta.percentChange (Deltas.executionTime d))
     + weigh 0 2 (Delta.percentChange (Deltas.memoryUsage d))
     + weigh 0 1 (Delta.percentChange (Deltas.functionCalls d)))%Z.
Proof.
  unfold scoreOf.
  rewrite (weigh_from_zero _ 1), (weigh_from_zero _ 2). reflexivity.
Qed.

Lemma inject_Z_nonneg (z : Z) : (0 <= z)%Z -> 0 <= inject_Z z.
Proof.
  intros H. change 0 with (inject_Z 0). rewrite <- Zle_Qle. exact H.
Qed.

Lemma weigh_improvement (weight : Z) (p : Q) :
  weigh 0 weight p = (weight * Spec.improvement p)%Z.
Proof.
  unfold weigh, Spec.improvement.
  destruct (Qltb p 0) eqn:Hn.
  - apply Qltb_lt in Hn. rewrite (proj1 (Qlt_alt p 0) Hn). lia.
  - destruct (Qltb 0 p) eqn:Hp.
    + apply Qltb_lt in Hp. rewrite (proj1 (Qgt_alt p 0) Hp). lia.
    + destruct (Qcompare p 0) eqn:E; [lia | |].
      * apply (proj2 (Qlt_alt p 0)), Qltb_lt in E. congruence.
      * apply (proj2 (Qgt_alt p 0)), Qltb_lt in E. congruence.
Qed.

Lemma scoreOf_weighted (d : Deltas.t) : scoreOf d = Spec.weightedScore d.
Proof.
  rewrite scoreOf_sum. unfold Spec.weightedScore.
  rewrite !weigh_improvement. reflexivity.
Qed.

Lemma deltaOf_sameSign (a b : Q) (d : Delta.t) :
  0 <= a -> 0 <= b -> deltaOf a b = Some d -> Spec.sameSign d.
Proof.
  intros Ha Hb Hd. unfold deltaOf in Hd.
  destruct (percentChange_sign a b Ha Hb) as (p & Hp & H1 & H2).
  rewrite Hp in Hd. injection Hd as <-.
  unfold Spec.sameSign. cbn [Delta.percentChange Delta.diff]. split.
  - rewrite <- (Qltb_lt p 0), H1, Qltb_lt. split; intros H; lra.
  - rewrite <- (Qltb_lt 0 p), H2, Qltb_lt. split; intros H; lra.
Qed.

(** C3, as the code has it.  For two aggregated runs the three differences
    are those of the second run minus those of the first, and the negations
    of the differences of the other direction; every percent change has the
    sign of its difference; the score is the weighted
    sum the specification names (3 for time, 2 for memory, 1 for the call
    count, a negative change counting for the weight and a positive one
    against it), it is negated in the other direction and the verdict is
    swapped; the verdict is "code1" for a positive score, "code2" for a
    negative one and a tie exactly when the score is 0, which is the case
    when all differences are 0. *)
Theorem compareMetrics_swap (m1 m2 : Processed.t) :
  Spec.nonNegative m1 -> Spec.nonNegative m2 ->
  exists c12 c21,
    compareMetrics m1 m2 = Some c12
    /\ compareMetrics m2 m1 = Some c21
    /\ Spec.timeDiff c21 == - Spec.timeDiff c12
    /\ Spec.memoryDiff c21 == - Spec.memoryDiff c12
    /\ Spec.callsDiff c21 == - Spec.callsDiff c12
    /\ scoreOf (Comparison.deltas c21)
       = (- scoreOf (Comparison.deltas c12))%Z
    /\ Comparison.overallImprovement c21
       = Spec.swapVerdict (Comparison.overallImprovement c12)
    /\ (Comparison.overallImprovement c12 = tie
        <-> scoreOf (Comparison.deltas c12) = 0%Z)
    /\ (Spec.allDiffsZero c12 ->
        Comparison.overallImprovement c12 = tie
        /\ Comparison.overallImprovement c21 = tie)
    /\ scoreOf (Comparison.deltas c12)
       = Spec.weightedScore (Comparison.deltas c12)
    /\ scoreOf (Comparison.deltas c21)
       = Spec.weightedScore (Comparison.deltas c21)
    /\ (Comparison.overallImprovement c12 = code1
        <-> (0 < Spec.weightedScore (Comparison.deltas c12))%Z)
    /\ (Comparison.overallImprovement c12 = code2
        <-> (Spec.weightedScore (Comparison.deltas c12) < 0)%Z)
    /\ (Comparison.overallImprovement c12 = tie
        <-> Spec.weightedScore (Comparison.deltas c12) = 0%Z)
    /\ Spec.sameSign (Deltas.executionTime (Comparison.deltas c12))
    /\ Spec.sameSign (Deltas.memoryUsage (Comparison.deltas c12))
    /\ Spec.sameSign (Deltas.functionCalls (Comparison.deltas c12))
    /\ Spec.timeDiff c12
       == Summary.executionTime (Processed.summary m2)
          - Summary.executionTime (Processed.summary m1)
    /\ Spec.memoryDiff c12
       == inject_Z (Summary.peakMemory (Processed.summary m2))
          - inject_Z (Summary.peakMemory (Processed.summary m1))
    /\ Spec.callsDiff c12
       == inject_Z (Z.of_nat (Summary.totalFunctionCalls
                                (Processed.summary m2)))
          - inject_Z (Z.of_nat (Summary.totalFunctionCalls
                                  (Processed.summary m1))).
Proof.
  intros [Ht1 Hm1] [Ht2 Hm2].
  destruct (deltaOf_pair _ _ Ht1 Ht2) as (dt & et & Hdt & Het & Ddt & Det & Ot & Zt).
  destruct (deltaOf_pair _ _ (inject_Z_nonneg _ Hm1) (inject_Z_nonneg _ Hm2))
    as (dm & em & Hdm & Hem & Ddm & Dem & Om & Zm).
  destruct (deltaOf_pair
              (inject_Z (Z.of_nat (Summary.totalFunctionCalls
                                     (Processed.summary m1))))
              (inject_Z (Z.of_nat (Summary.totalFunctionCalls
                                     (Processed.summary m2))))
              (inject_Z_nonneg _ (Nat2Z.is_nonneg _))
              (inject_Z_nonneg _ (Nat2Z.is_nonneg _)))
    as (dc & ec & Hdc & Hec & Ddc & Dec & Oc & Zc).
  pose proof (deltaOf_sameSign _ _ dt Ht1 Ht2 Hdt) as St.
  pose proof (deltaOf_sameSign _ _ dm (inject_Z_nonneg _ Hm1)
                (inject_Z_nonneg _ Hm2) Hdm) as Sm.
  pose proof (deltaOf_sameSign _ _ dc
                (inject_Z_nonneg _ (Nat2Z.is_nonneg _))
                (inject_Z_nonneg _ (Nat2Z.is_nonneg _)) Hdc) as Sc.
  exists (Comparison.mk (Deltas.mk dt dm dc)
            (determineOverallImprovement (Deltas.mk dt dm dc))).
  exists (Comparison.mk (Deltas.mk et em ec)
            (determineOverallImprovement (Deltas.mk et em ec))).
  unfold compareMetrics. rewrite Hdt, Het, Hdm, Hem, Hdc, Hec.
  unfold Spec.allDiffsZero, Spec.timeDiff, Spec.memoryDiff, Spec.callsDiff.
  cbn [Comparison.deltas Comparison.overallImprovement Deltas.executionTime
       Deltas.memoryUsage Deltas.functionCalls].
  assert (Hscore : scoreOf (Deltas.mk et em ec)
                   = (- scoreOf (Deltas.mk dt dm dc))%Z).
  { rewrite !scoreOf_sum. cbn [Deltas.executionTime Deltas.memoryUsage
                                 Deltas.functionCalls].
    rewrite Ot, Om, Oc. lia. }
  pose proof (verdict_of_score (Deltas.mk dt dm dc)) as (V1 & V2 & V3).
  pose proof (verdict_of_score (Deltas.mk et em ec)) as (W1 & W2 & W3).
  split; [reflexivity|]. split; [reflexivity|].
  split; [rewrite Ddt, Det; ring|].
  split; [rewrite Ddm, Dem; ring|].
  split; [rewrite Ddc, Dec; ring|].
  split; [exact Hscore|].
  split.
  { destruct (determineOverallImprovement (Deltas.mk dt dm dc)) eqn:E; simpl.
    - apply W2. rewrite Hscore. assert (0 < scoreOf (Deltas.mk dt dm dc))%Z
        by (apply V1; reflexivity). lia.
    - apply W1. rewrite Hscore. assert (scoreOf (Deltas.mk dt dm dc) < 0)%Z
        by (apply V2; reflexivity). lia.
    - apply W3. rewrite Hscore. assert (scoreOf (Deltas.mk dt dm dc) = 0)%Z
        by (apply V3; reflexivity). lia. }
  split; [exact V3|].
  split.
  { intros (Z1 & Z2 & Z3).
    assert (Hzero : scoreOf (Deltas.mk dt dm dc) = 0%Z).
    { rewrite scoreOf_sum. cbn [Deltas.executionTime Deltas.memoryUsage
                                  Deltas.functionCalls].
      cbn [Comparison.deltas Deltas.executionTime Deltas.memoryUsage
           Deltas.functionCalls] in Z1, Z2, Z3.
      rewrite Ddt in Z1. rewrite Ddm in Z2. rewrite Ddc in Z3.
      rewrite (Zt Z1), (Zm Z2), (Zc Z3). reflexivity. }
    split.
    - apply V3. exact Hzero.
    - apply W3. rewrite Hscore, Hzero. reflexivity. }
  split; [apply scoreOf_weighted|].
  split; [apply scoreOf_weighted|].
  rewrite <- !scoreOf_weighted.
  split; [exact V1|]. split; [exact V2|]. split; [exact V3|].
  split; [exact St|]. split; [exact Sm|]. split; [exact Sc|].
  rewrite Ddt, Ddm, Ddc. repeat split; reflexivity.
Qed.

Lemma peakMemoryOf_nonneg (memoryUsage : list MemoryPoint.t) :
  (0 <= peakMemoryOf memoryUsage)%Z.
Proof.
  unfold peakMemoryOf.
  assert (H : forall l acc, (0 <= acc)%Z ->
    (0 <= fold_left (fun max point =>
            if (MemoryPoint.value point >? max)%Z
            then MemoryPoint.value point else max) l acc)%Z).
  { induction l as [|p l IH]; intros acc Hacc; simpl; [exact Hacc|].
    apply IH. destruct (MemoryPoint.value p >? acc)%Z eqn:E; [|exact Hacc].
    apply Z.gtb_lt in E. lia. }
  apply H. lia.
Qed.

(** Aggregated runs are non-negative as soon as the measured wall-clock time
    is. *)
Lemma processMetrics_nonNegative (raw : RawMetrics.t) :
  0 <= RawMetrics.executionTime raw -> Spec.nonNegative (processMetrics raw).
Proof.
  intros H. split; simpl; [exact H | apply peakMemoryOf_nonneg].
Qed.

Lemma compareMetrics_swap_witness :
  exists c12 c21,
    compareMetrics (processMetrics Samples.runA) (processMetrics Samples.runB)
    = Some c12
    /\ compareMetrics (processMetrics Samples.runB)
         (processMetrics Samples.runA) = Some c21
    /\ Spec.timeDiff c21 == - Spec.timeDiff c12
    /\ Comparison.overallImprovement c21
       = Spec.swapVerdict (Comparison.overallImprovement c12).
Proof.
  assert (HA : Spec.nonNegative (processMetrics Samples.runA)).
  { split; vm_compute; discriminate. }
  assert (HB : Spec.nonNegative (processMetrics Samples.runB)).
  { split; vm_compute; discriminate. }
  destruct (compareMetrics_swap _ _ HA HB)
    as (c12 & c21 & H1 & H2 & H3 & _ & _ & _ & H4 & _).
  exists c12, c21. repeat split; assumption.
Defined.

(** C3, the claim as stated fails: comparing run A (time 10, peak 10, one
    call) with run B (time 5, peak 20, two calls) reports a tie in both
    directions (3 - 2 - 1 = 0) although no difference is zero.  (The percent
    changes of the two directions have opposite signs but are not negations
    of each other: -50 one way, 100 the other way.) *)
Lemma compareMetrics_tie_with_differences :
  exists c12 c21,
    compareMetrics (processMetrics Samples.runA) (processMetrics Samples.runB)
    = Some c12
    /\ compareMetrics (processMetrics Samples.runB)
         (processMetrics Samples.runA) = Some c21
    /\ Comparison.overallImprovement c12 = tie
    /\ Comparison.overallImprovement c21 = tie
    /\ ~ Spec.timeDiff c12 == 0
    /\ ~ Spec.memoryDiff c12 == 0
    /\ ~ Spec.callsDiff c12 == 0
    /\ Delta.percentChange (Deltas.executionTime (Comparison.deltas c12))
       == -50
    /\ Delta.percentChange (Deltas.executionTime (Comparison.deltas c21))
       == 100
    /\ weigh 0 3 (Delta.percentChange
                    (Deltas.executionTime (Comparison.deltas c12))) = 3%Z
    /\ weigh 0 2 (Delta.percentChange
                    (Deltas.memoryUsage (Comparison.deltas c12))) = (-2)%Z
    /\ weigh 0 1 (Delta.percentChange
                    (Deltas.functionCalls (Comparison.deltas c12))) = (-1)%Z
    /\ scoreOf (Comparison.deltas c12) = 0%Z.
Proof.
  eexists. eexists.
  split; [vm_compute; reflexivity|].
  split; [vm_compute; reflexivity|].
  split; [reflexivity|]. split; [reflexivity|].
  repeat split; vm_compute; discriminate || reflexivity.
Qed.

(** The labels: a second run that is better on every count gives a positive
    score, which is reported as [code1]. *)
Example better_second_run_is_reported_as_code1 :
  option_map Comparison.overallImprovement
    (compareMetrics (processMetrics Samples.runB)
       (processMetrics
          (RawMetrics.mk 2 [Samples.sample 5] [Samples.call "f" None 1]
             [] [])))
  = Some code1.
Proof. reflexivity. Qed.

(** ** Dictionaries *)

Lemma mem_string_In (x : string) (l : list string) :
  JsObject.mem_string x l = true <-> In x l.
Proof.
  unfold JsObject.mem_string. rewrite existsb_exists. split.
  - intros (y & Hy & E). apply String.eqb_eq in E. subst. exact Hy.
  - intros H. exists x. split; [exact H | apply String.eqb_refl].
Qed.

Lemma mem_string_not_In (x : string) (l : list string) :
  JsObject.mem_string x l = false <-> ~ In x l.
Proof.
  rewrite <- mem_string_In. destruct (JsObject.mem_string x l); split;
    congruence.
Qed.

Section ObjectFacts.

Context {K V : Type}.
Variable eqb : K -> K -> bool.
Hypothesis eqb_eq : forall a b, eqb a b = true <-> a = b.

#[local] Abbreviation get := (JsObject.get eqb).
#[local] Abbreviation set := (JsObject.set eqb).

Lemma eqb_same (a : K) : eqb a a = true.
Proof. apply eqb_eq. reflexivity. Qed.

Lemma obj_get_in (G : K -> V) (keys : list K) (k : K) :
  In k keys -> get (map (fun n => (n, G n)) keys) k = Some (G k).
Proof.
  induction keys as [|a keys IH]; intros H; [destruct H|]. simpl.
  destruct (eqb a k) eqn:E.
  - apply eqb_eq in E. subst. reflexivity.
  - destruct H as [H|H]; [subst; rewrite eqb_same in E; discriminate|].
    apply IH, H.
Qed.

Lemma obj_get_out (G : K -> V) (keys : list K) (k : K) :
  ~ In k keys -> get (map (fun n => (n, G n)) keys) k = None.
Proof.
  induction keys as [|a keys IH]; intros H; [reflexivity|]. simpl.
  destruct (eqb a k) eqn:E.
  - apply eqb_eq in E. subst. exfalso. apply H. left. reflexivity.
  - apply IH. intros Hin. apply H. right. exact Hin.
Qed.

Lemma obj_set_same (o : @JsObject.t K V) (k : K) (v : V) :
  get o k = Some v -> set o k v = o.
Proof.
  induction o as [|[k' v'] o IH]; intros H; [discriminate|]. simpl in *.
  destruct (eqb k' k) eqn:E.
  - congruence.
  - rewrite IH; [reflexivity | exact H].
Qed.

Lemma obj_set_in (G : K -> V) (keys : list K) (k : K) (v : V) :
  NoDup keys -> In k keys ->
  set (map (fun n => (n, G n)) keys) k v
  = map (fun n => (n, if eqb n k then v else G n)) keys.
Proof.
  induction keys as [|a keys IH]; intros Hnd H; [destruct H|].
  inversion Hnd as [|? ? Ha Hnd']; subst. simpl.
  destruct (eqb a k) eqn:E.
  - apply eqb_eq in E. subst. f_equal.
    apply map_ext_in. intros n Hn.
    destruct (eqb n k) eqn:E; [|reflexivity].
    apply eqb_eq in E. subst. contradiction.
  - f_equal. apply IH; [exact Hnd'|].
    destruct H as [H|H]; [subst; rewrite eqb_same in E; discriminate|].
    exact H.
Qed.

Lemma obj_set_out (G : K -> V) (keys : list K) (k : K) (v : V) :
  ~ In k keys ->
  set (map (fun n => (n, G n)) keys) k v
  = (map (fun n => (n, G n)) keys ++ [(k, v)])%list.
Proof.
  induction keys as [|a keys IH]; intros H; [reflexivity|]. simpl.
  destruct (eqb a k) eqn:E.
  - apply eqb_eq in E. subst. exfalso. apply H. left. reflexivity.
  - f_equal. apply IH. intros Hin. apply H. right. exact Hin.
Qed.

Lemma obj_get_last (o : @JsObject.t K V) (k : K) (v : V) :
  get o k = None -> get (o ++ [(k, v)])%list k = Some v.
Proof.
  induction o as [|[k' v'] o IH]; intros H; simpl in *.
  - rewrite eqb_same. reflexivity.
  - destruct (eqb k' k); [discriminate | apply IH, H].
Qed.

Lemma obj_set_last (o : @JsObject.t K V) (k : K) (v w : V) :
  get o k = None -> set (o ++ [(k, v)])%list k w = (o ++ [(k, w)])%list.
Proof.
  induction o as [|[k' v'] o IH]; intros H; simpl in *.
  - rewrite eqb_same. reflexivity.
  - destruct (eqb k' k); [discriminate|]. f_equal. apply IH, H.
Qed.

(** Without array-index keys the enumeration order is the creation order. *)
Lemma entries_named (index : K -> option N) (o : @JsObject.t K V) :
  (forall e, In e o -> index (fst e) = None) ->
  JsObject.entries index o = o.
Proof.
  intros H. unfold JsObject.entries, JsObject.named_part.
  induction o as [|e o IH]; [reflexivity|]. simpl.
  rewrite (H e (or_introl eq_refl)).
  assert (H' : forall e', In e' o -> index (fst e') = None).
  { intros e' He'. apply H. right. exact He'. }
  specialize (IH H').
  destruct (JsObject.index_part index o) as [|x l] eqn:Ei.
  - simpl in *. f_equal. exact IH.
  - exfalso. clear IH H. revert x l Ei.
    induction o as [|e' o IHo]; intros x l Ei; [discriminate|].
    simpl in Ei. rewrite (H' e' (or_introl eq_refl)) in Ei.
    apply (IHo (fun e'' He'' => H' e'' (or_intror He'')) x l Ei).
Qed.

End ObjectFacts.


(** ** The summary: distinct names and the most expensive function *)

Lemma new_Set_from (l acc : list string) :
  NoDup acc ->
  NoDup (fold_left set_add l acc)
  /\ forall n, In n (fold_left set_add l acc) <-> In n acc \/ In n l.
Proof.
  revert acc. induction l as [|x l IH]; intros acc Hacc; simpl.
  - split; [exact Hacc | intros n; tauto].
  - unfold set_add at 2 4.
    destruct (JsObject.mem_string x acc) eqn:E.
    + apply mem_string_In in E. destruct (IH acc Hacc) as [H1 H2].
      split; [exact H1|]. intros n. rewrite H2.
      intuition (subst; auto).
    + apply mem_string_not_In in E.
      assert (Hnd : NoDup (acc ++ [x])).
      { apply NoDup_app; [exact Hacc | repeat constructor; intros [] |].
        intros y Hy [Hx|[]]. subst. contradiction. }
      destruct (IH _ Hnd) as [H1 H2]. split; [exact H1|].
      intros n. rewrite H2, in_app_iff. simpl. tauto.
Qed.

Lemma new_Set_distinct (names : list string) :
  Spec.distinctCount names (List.length (new_Set names)).
Proof.
  destruct (new_Set_from names [] (NoDup_nil _)) as [H1 H2].
  exists (new_Set names). split; [exact H1|]. split; [|reflexivity].
  intros n. unfold new_Set. rewrite H2. simpl. tauto.
Qed.

Lemma cumulativeTime_app (n : string) (l l' : list FunctionCall.t) :
  Spec.cumulativeTime n (l ++ l')
  = (Spec.cumulativeTime n l + Spec.cumulativeTime n l')%Z.
Proof.
  induction l as [|c l IH]; simpl; [reflexivity|]. rewrite IH. lia.
Qed.

Lemma cumulativeTime_absent (n : string) (l : list FunctionCall.t) :
  ~ In n (map FunctionCall.name l) -> Spec.cumulativeTime n l = 0%Z.
Proof.
  induction l as [|c l IH]; intros H; simpl; [reflexivity|].
  destruct (String.eqb (FunctionCall.name c) n) eqn:E.
  - apply String.eqb_eq in E. exfalso. apply H. left. exact E.
  - rewrite IH; [reflexivity|]. intros Hin. apply H. right. exact Hin.
Qed.

Lemma ForallOrdPairs_snoc {A : Type} (R : A -> A -> Prop) (l : list A)
  (x : A) :
  ForallOrdPairs R l -> Forall (fun y => R y x) l ->
  ForallOrdPairs R (l ++ [x]).
Proof.
  induction 1 as [|a l Ha Hl IH]; intros Hx; simpl.
  - constructor; constructor.
  - inversion Hx; subst. constructor.
    + apply Forall_app. split; [exact Ha | constructor; [assumption|constructor]].
    + apply IH. assumption.
Qed.

Lemma ForallOrdPairs_weaken {A : Type} (R R' : A -> A -> Prop) (l : list A) :
  (forall a b, R a b -> R' a b) -> ForallOrdPairs R l -> ForallOrdPairs R' l.
Proof.
  intros H. induction 1 as [|a l Ha Hl IH]; constructor.
  - eapply Forall_impl; [|exact Ha]. intros b. apply H.
  - exact IH.
Qed.

Lemma ForallOrdPairs_split {A : Type} (R : A -> A -> Prop) (a b : list A)
  (f g : A) :
  ForallOrdPairs R (a ++ f :: b) -> In g b -> R f g.
Proof.
  induction a as [|x a IH]; simpl; intros H Hg.
  - inversion H as [|? ? Hf _]; subst.
    rewrite Forall_forall in Hf. apply Hf, Hg.
  - inversion H; subst. apply IH; assumption.
Qed.

Lemma firstSeenBefore_later (f g x : string) (names : list string) :
  Spec.firstSeenBefore f g names -> Spec.firstSeenBefore f g (names ++ [x]).
Proof.
  intros (l1 & l2 & E & H). exists l1, (l2 ++ [x])%list. split; [|exact H].
  rewrite E, <- app_assoc. reflexivity.
Qed.

Lemma firstSeenBefore_new (f x : string) (names : list string) :
  In f names -> ~ In x names -> Spec.firstSeenBefore f x (names ++ [x]).
Proof.
  intros Hf Hx. destruct (in_split _ _ Hf) as (l1 & l2 & E).
  exists l1, (l2 ++ [x])%list. split.
  - rewrite E, <- app_assoc. reflexivity.
  - intros Hin. apply Hx. rewrite E. apply in_or_app. left. exact Hin.
Qed.

Lemma functionTimesOf_snoc (calls : list FunctionCall.t) (c : FunctionCall.t) :
  functionTimesOf (calls ++ [c]) = addFunctionTime (functionTimesOf calls) c.
Proof.
  unfold functionTimesOf. rewrite fold_left_app. reflexivity.
Qed.

Lemma read_tallied_known (calls : list FunctionCall.t) (keys : list string)
  (n : string) :
  In n keys ->
  read (Spec.tallied calls keys) n = Number (Spec.cumulativeTime n calls).
Proof.
  intros H. unfold read, Spec.tallied.
  rewrite (obj_get_in String.eqb String.eqb_eq
             (fun n => Number (Spec.cumulativeTime n calls)) keys _ H).
  reflexivity.
Qed.

Lemma write_ordinary (o : functionTimesObject) (n : string) (v : jsValue) :
  Spec.ordinaryName n -> write o n v = JsObject.set String.eqb o n v.
Proof.
  intros (_ & Hproto & _). unfold write. rewrite Hproto. reflexivity.
Qed.

Lemma addFunctionTime_known (calls : list FunctionCall.t)
  (keys : list string) (c : FunctionCall.t) :
  NoDup keys -> In (FunctionCall.name c) keys ->
  Spec.ordinaryName (FunctionCall.name c) ->
  addFunctionTime (Spec.tallied calls keys) c
  = Spec.tallied (calls ++ [c]) keys.
Proof.
  intros Hnd Hin Hord.
  unfold addFunctionTime. cbv zeta.
  rewrite !(write_ordinary _ _ _ Hord).
  rewrite (read_tallied_known _ _ _ Hin).
  assert (Hzero :
    Spec.cumulativeTime (FunctionCall.name c) calls = 0%Z ->
    JsObject.set String.eqb (Spec.tallied calls keys) (FunctionCall.name c)
      (Number 0) = Spec.tallied calls keys).
  { intros E. apply (obj_set_same String.eqb). unfold Spec.tallied.
    rewrite (obj_get_in String.eqb String.eqb_eq
               (fun n => Number (Spec.cumulativeTime n calls)) keys _ Hin).
    rewrite E. reflexivity. }
  cbn [falsy].
  destruct (Z.eqb_spec (Spec.cumulativeTime (FunctionCall.name c) calls) 0)
    as [E|E]; [rewrite (Hzero E)|].
  all: rewrite (read_tallied_known _ _ _ Hin).
  all: unfold Spec.tallied.
  all: rewrite (obj_set_in String.eqb String.eqb_eq
             (fun n => Number (Spec.cumulativeTime n calls)) keys _ _ Hnd Hin).
  all: apply map_ext; intros n; rewrite cumulativeTime_app; simpl.
  all: rewrite (String.eqb_sym n).
  all: destruct (String.eqb (FunctionCall.name c) n) eqn:En;
    [apply String.eqb_eq in En; subst|]; f_equal; f_equal; lia.
Qed.

Lemma addFunctionTime_new (calls : list FunctionCall.t)
  (keys : list string) (c : FunctionCall.t) :
  ~ In (FunctionCall.name c) keys ->
  (forall n, In n (map FunctionCall.name calls) -> In n keys) ->
  Spec.ordinaryName (FunctionCall.name c) ->
  addFunctionTime (Spec.tallied calls keys) c
  = Spec.tallied (calls ++ [c]) (keys ++ [FunctionCall.name c]).
Proof.
  intros Hout Hnames Hord.
  set (G := fun n => Number (Spec.cumulativeTime n calls)).
  assert (Hget : JsObject.get String.eqb (Spec.tallied calls keys)
                   (FunctionCall.name c) = None).
  { apply (obj_get_out String.eqb String.eqb_eq G). exact Hout. }
  assert (Hread : read (Spec.tallied calls keys) (FunctionCall.name c)
                  = Undefined).
  { unfold read. rewrite Hget. destruct Hord as (_ & Hproto & Hmeth).
    rewrite Hproto, Hmeth. reflexivity. }
  unfold addFunctionTime. cbv zeta.
  rewrite !(write_ordinary _ _ _ Hord), Hread. cbn [falsy].
  assert (Hset : JsObject.set String.eqb (Spec.tallied calls keys)
                   (FunctionCall.name c) (Number 0)
                 = (Spec.tallied calls keys
                    ++ [(FunctionCall.name c, Number 0)])%list).
  { apply (obj_set_out String.eqb String.eqb_eq G). exact Hout. }
  rewrite Hset. unfold read. rewrite (obj_get_last String.eqb String.eqb_eq _ _ _ Hget). cbn [js_add].
  rewrite (obj_set_last String.eqb String.eqb_eq _ _ _ _ Hget).
  unfold Spec.tallied. rewrite map_app. simpl. f_equal.
  - apply map_ext_in. intros n Hn. rewrite cumulativeTime_app. simpl.
    destruct (String.eqb (FunctionCall.name c) n) eqn:E.
    + apply String.eqb_eq in E. subst. contradiction.
    + f_equal. f_equal. lia.
  - rewrite cumulativeTime_app. simpl. rewrite String.eqb_refl.
    rewrite cumulativeTime_absent.
    + f_equal. f_equal. f_equal. lia.
    + intros Hin. apply Hout, Hnames, Hin.
Qed.

Lemma functionTimesOf_tallied (calls : list FunctionCall.t) :
  (forall n, In n (map FunctionCall.name calls) -> Spec.ordinaryName n) ->
  exists keys,
    functionTimesOf calls = Spec.tallied calls keys
    /\ NoDup keys
    /\ (forall n, In n keys <-> In n (map FunctionCall.name calls))
    /\ ForallOrdPairs
         (fun f g => Spec.firstSeenBefore f g (map FunctionCall.name calls))
         keys.
Proof.
  induction calls as [|c calls IH] using rev_ind; intros Hord.
  - exists []. repeat split; try constructor; intros H; destruct H.
  - destruct IH as (keys & Ho & Hnd & Hin & Hfop).
    { intros n Hn. apply Hord. rewrite map_app. apply in_or_app. left.
      exact Hn. }
    assert (Hc : Spec.ordinaryName (FunctionCall.name c)).
    { apply Hord. rewrite map_app. apply in_or_app. right. left.
      reflexivity. }
    rewrite functionTimesOf_snoc, Ho, map_app. simpl.
    destruct (in_dec string_dec (FunctionCall.name c) keys) as [Hk|Hk].
    + exists keys. split; [apply addFunctionTime_known; assumption|].
      split; [exact Hnd|]. split.
      * intros n. rewrite in_app_iff, <- Hin. simpl.
        intuition (subst; auto).
      * eapply ForallOrdPairs_weaken; [|exact Hfop].
        intros a b. apply firstSeenBefore_later.
    + exists (keys ++ [FunctionCall.name c])%list.
      split; [apply addFunctionTime_new; try assumption;
              intros n Hn; apply Hin, Hn|].
      split.
      { apply NoDup_app; [exact Hnd | repeat constructor; intros [] |].
        intros y Hy [Hx|[]]. subst. contradiction. }
      split.
      * intros n. rewrite !in_app_iff, <- Hin. reflexivity.
      * apply ForallOrdPairs_snoc.
        -- eapply ForallOrdPairs_weaken; [|exact Hfop].
           intros a b. apply firstSeenBefore_later.
        -- apply Forall_forall. intros f Hf.
           apply firstSeenBefore_new; [apply Hin, Hf|].
           intros Hx. apply Hk, Hin, Hx.
Qed.

(** The scan over the entries keeps the first entry that reaches the
    greatest value above the starting threshold. *)
Lemma pickMostExpensive_scan (G : string -> Z) (keys : list string) :
  forall (best : option string) (m : Z),
    let r := fold_left pickMostExpensive
               (map (fun n => (n, Number (G n))) keys) (best, m) in
    (fst r = best /\ snd r = m /\ forall n, In n keys -> (G n <= m)%Z)
    \/ (exists a f b,
          keys = (a ++ f :: b)%list /\ fst r = Some f /\ snd r = G f
          /\ (m < G f)%Z
          /\ (forall n, In n a -> (G n < G f)%Z)
          /\ (forall n, In n b -> (G n <= G f)%Z)).
Proof.
  induction keys as [|k keys IH]; intros best m; simpl.
  - left. repeat split. intros n [].
  - unfold pickMostExpensive at 2. cbn [js_gt snd].
    destruct (G k >? m)%Z eqn:E.
    + apply Z.gtb_lt in E.
      destruct (IH (Some k) (G k)) as [(H1 & H2 & H3)|
                                       (a & f & b & H1 & H2 & H3 & H4 & H5 & H6)].
      * right. exists [], k, keys. simpl. repeat split; try assumption.
        intros n [].
      * right. exists (k :: a), f, b. subst keys. simpl.
        repeat split; try assumption; [lia|].
        intros n [Hn|Hn]; [subst; exact H4 | apply H5, Hn].
    + assert (Hle : (G k <= m)%Z).
      { destruct (Z.gtb_spec (G k) m); [discriminate | lia]. }
      destruct (IH best m) as [(H1 & H2 & H3)|
                               (a & f & b & H1 & H2 & H3 & H4 & H5 & H6)].
      * left. repeat split; try assumption.
        intros n [Hn|Hn]; [subst; exact Hle | apply H3, Hn].
      * right. exists (k :: a), f, b. subst keys. simpl.
        repeat split; try assumption.
        intros n [Hn|Hn]; [subst; lia | apply H5, Hn].
Qed.

Lemma tallied_entries (calls : list FunctionCall.t) (keys : list string) :
  (forall n, In n keys -> Spec.ordinaryName n) ->
  JsObject.entries JsObject.string_index (Spec.tallied calls keys)
  = Spec.tallied calls keys.
Proof.
  intros H. apply entries_named. intros e He. unfold Spec.tallied in He.
  apply in_map_iff in He. destruct He as (n & <- & Hn). simpl.
  apply (H n Hn).
Qed.

(** The most expensive function of a trace with ordinary names. *)
Lemma mostExpensive_ordinary (calls : list FunctionCall.t) :
  let names := map FunctionCall.name calls in
  let best := mostExpensiveOf (functionTimesOf calls) in
  (forall n, In n names -> Spec.ordinaryName n) ->
  (forall n, In n names -> (Spec.cumulativeTime n calls <= snd best)%Z)
  /\ (0 <= snd best)%Z
  /\ match fst best with
     | Some f =>
         In f names
         /\ snd best = Spec.cumulativeTime f calls
         /\ (0 < Spec.cumulativeTime f calls)%Z
         /\ (forall g, In g names -> g <> f ->
               Spec.cumulativeTime g calls = Spec.cumulativeTime f calls ->
               Spec.firstSeenBefore f g names)
     | None =>
         snd best = 0%Z
         /\ forall n, In n names -> (Spec.cumulativeTime n calls <= 0)%Z
     end.
Proof.
  intros names best Hord. subst best.
  destruct (functionTimesOf_tallied calls Hord)
    as (keys & Ho & Hnd & Hin & Hfop).
  unfold mostExpensiveOf. rewrite Ho, tallied_entries.
  2:{ intros n Hn. apply Hord, Hin, Hn. }
  unfold Spec.tallied.
  destruct (pickMostExpensive_scan
              (fun n => Spec.cumulativeTime n calls) keys None 0%Z)
    as [(H1 & H2 & H3)|(a & f & b & H1 & H2 & H3 & H4 & H5 & H6)];
    cbv zeta in *.
  - rewrite H1, H2. split; [|split; [lia|split; [reflexivity|]]].
    + intros n Hn. apply H3, Hin, Hn.
    + intros n Hn. apply H3, Hin, Hn.
  - rewrite H2, H3.
    assert (Hle : forall n, In n keys ->
              (Spec.cumulativeTime n calls <= Spec.cumulativeTime f calls)%Z).
    { intros n Hn. rewrite H1 in Hn. apply in_app_or in Hn.
      destruct Hn as [Hn|[Hn|Hn]].
      - apply Z.lt_le_incl, H5, Hn.
      - subst. lia.
      - apply H6, Hn. }
    split; [intros n Hn; apply Hle, Hin, Hn|].
    split; [lia|].
    split; [apply Hin; rewrite H1; apply in_or_app; right; left; reflexivity|].
    split; [reflexivity|]. split; [exact H4|].
    intros g Hg Hgf Heq. apply Hin in Hg. rewrite H1 in Hg.
    apply in_app_or in Hg. destruct Hg as [Hg|[Hg|Hg]].
    + specialize (H5 g Hg). lia.
    + congruence.
    + rewrite H1 in Hfop. exact (ForallOrdPairs_split _ _ _ _ _ Hfop Hg).
Qed.

Lemma cumulativeTime_perm (n : string) (l l' : list FunctionCall.t) :
  Permutation l l' -> Spec.cumulativeTime n l = Spec.cumulativeTime n l'.
Proof.
  induction 1; simpl; lia.
Qed.

Lemma ordinary_f : Spec.ordinaryName "f".
Proof. repeat split. Qed.

Lemma ordinary_g : Spec.ordinaryName "g".
Proof. repeat split. Qed.

(** Any trace made of the five calls of the example, in any order. *)
Lemma example_summary (metrics : RawMetrics.t) :
  Permutation (RawMetrics.functionCalls metrics) Spec.exampleCalls ->
  let s := calculateSummaryMetrics metrics in
  Summary.mostExpensiveFunction s = Some "f"
  /\ Summary.mostExpensiveFunctionTime s = 60%Z
  /\ Summary.uniqueFunctions s = 2%nat
  /\ Summary.totalFunctionCalls s = 5%nat.
Proof.
  intros Hp s. subst s. unfold calculateSummaryMetrics. cbv zeta.
  cbn [Summary.mostExpensiveFunction Summary.mostExpensiveFunctionTime
       Summary.uniqueFunctions Summary.totalFunctionCalls].
  set (calls := RawMetrics.functionCalls metrics) in *.
  assert (Hnames : forall n, In n (map FunctionCall.name calls)
                             <-> n = "f" \/ n = "g").
  { intros n. split.
    - intros H. apply (Permutation_in _ (Permutation_map _ Hp)) in H.
      simpl in H. intuition.
    - intros H.
      apply (Permutation_in _ (Permutation_sym (Permutation_map _ Hp))).
      simpl. intuition. }
  assert (Hord : forall n, In n (map FunctionCall.name calls) ->
                           Spec.ordinaryName n).
  { intros n Hn. apply Hnames in Hn.
    destruct Hn; subst; [apply ordinary_f | apply ordinary_g]. }
  assert (Hf : Spec.cumulativeTime "f" calls = 60%Z).
  { rewrite (cumulativeTime_perm _ _ _ Hp). reflexivity. }
  assert (Hg : Spec.cumulativeTime "g" calls = 10%Z).
  { rewrite (cumulativeTime_perm _ _ _ Hp). reflexivity. }
  destruct (mostExpensive_ordinary calls Hord) as (Hmax & _ & Hbest).
  assert (Hf60 : (60 <= snd (mostExpensiveOf (functionTimesOf calls)))%Z).
  { rewrite <- Hf. apply Hmax, Hnames. left. reflexivity. }
  destruct (fst (mostExpensiveOf (functionTimesOf calls))) as [h|] eqn:Eh.
  - destruct Hbest as (Hin & Htime & _ & _).
    apply Hnames in Hin. destruct Hin as [->| ->].
    + split; [reflexivity|]. split; [congruence|]. split.
      * destruct (new_Set_from (map FunctionCall.name calls) []
                    (NoDup_nil _)) as [Hnd Hel].
        change 2%nat with (List.length ["f"; "g"]).
        apply Permutation_length, NoDup_Permutation; [exact Hnd | |].
        -- repeat constructor; simpl; intuition discriminate.
        -- intros n. unfold new_Set. rewrite Hel, Hnames. simpl.
           intuition.
      * apply (Permutation_length Hp).
    + exfalso. lia.
  - destruct Hbest as (Hzero & _). exfalso. lia.
Qed.

(** C1, as the code has it.  For a trace whose function names are ordinary
    (no array index, no name inherited from [Object.prototype]): the total is
    the number of calls and [uniqueFunctions] the number of distinct names;
    the reported time bounds every cumulative duration; when some function has
    a positive cumulative duration, [mostExpensiveFunction] is the function
    with the greatest one, the first-seen name winning a tie; otherwise it is
    null with time 0.  Any trace made of three calls of f (10, 20, 30) and two
    of g (5, 5) has f with 60, 2 distinct functions and 5 calls. *)
Theorem calculateSummaryMetrics_mostExpensive :
  (forall metrics : RawMetrics.t,
     let calls := RawMetrics.functionCalls metrics in
     let names := map FunctionCall.name calls in
     let s := calculateSummaryMetrics metrics in
     (forall n, In n names -> Spec.ordinaryName n) ->
     Summary.totalFunctionCalls s = List.length calls
     /\ Spec.distinctCount names (Summary.uniqueFunctions s)
     /\ (forall n, In n names ->
           (Spec.cumulativeTime n calls
            <= Summary.mostExpensiveFunctionTime s)%Z)
     /\ match Summary.mostExpensiveFunction s with
        | Some f =>
            In f names
            /\ Summary.mostExpensiveFunctionTime s
               = Spec.cumulativeTime f calls
            /\ (0 < Spec.cumulativeTime f calls)%Z
            /\ (forall g, In g names -> g <> f ->
                  Spec.cumulativeTime g calls = Spec.cumulativeTime f calls ->
                  Spec.firstSeenBefore f g names)
        | None =>
            Summary.mostExpensiveFunctionTime s = 0%Z
            /\ forall n, In n names -> (Spec.cumulativeTime n calls <= 0)%Z
        end)
  /\ (forall metrics : RawMetrics.t,
        Permutation (RawMetrics.functionCalls metrics) Spec.exampleCalls ->
        let s := calculateSummaryMetrics metrics in
        Summary.mostExpensiveFunction s = Some "f"
        /\ Summary.mostExpensiveFunctionTime s = 60%Z
        /\ Summary.uniqueFunctions s = 2%nat
        /\ Summary.totalFunctionCalls s = 5%nat).
Proof.
  split; [|exact example_summary].
  intros metrics calls names s Hord. subst s.
  unfold calculateSummaryMetrics. cbv zeta.
  cbn [Summary.mostExpensiveFunction Summary.mostExpensiveFunctionTime
       Summary.uniqueFunctions Summary.totalFunctionCalls].
  fold calls. fold names.
  destruct (mostExpensive_ordinary calls Hord) as (Hmax & _ & Hbest).
  split; [reflexivity|]. split; [apply new_Set_distinct|].
  split; [exact Hmax | exact Hbest].
Qed.

Lemma calculateSummaryMetrics_mostExpensive_witness :
  let metrics := RawMetrics.mk 1 [] Spec.exampleCalls [] [] in
  Summary.totalFunctionCalls (calculateSummaryMetrics metrics) = 5%nat
  /\ Summary.mostExpensiveFunction (calculateSummaryMetrics metrics)
     = Some "f".
Proof.
  intros metrics.
  assert (Hord : forall n,
            In n (map FunctionCall.name (RawMetrics.functionCalls metrics)) ->
            Spec.ordinaryName n).
  { intros n Hn. simpl in Hn.
    destruct Hn as [<-|[<-|[<-|[<-|[<-|[]]]]]];
      first [apply ordinary_f | apply ordinary_g]. }
  split.
  - exact (proj1 (proj1 calculateSummaryMetrics_mostExpensive metrics Hord)).
  - exact (proj1 (proj2 calculateSummaryMetrics_mostExpensive metrics
                    (Permutation_refl _))).
Defined.

(** C1, the claim as stated fails: in the trace made of one call of f that
    lasted 0 ms, f has the greatest cumulative duration, yet no function is
    reported. *)
Lemma mostExpensive_none_for_zero_durations :
  let calls := [Samples.call "f" None 0] in
  let s := calculateSummaryMetrics (RawMetrics.mk 1 [] calls [] []) in
  In "f" (map FunctionCall.name calls)
  /\ (forall n, In n (map FunctionCall.name calls) ->
        (Spec.cumulativeTime n calls <= Spec.cumulativeTime "f" calls)%Z)
  /\ Summary.mostExpensiveFunction s = None.
Proof.
  simpl. split; [left; reflexivity|]. split; [|reflexivity].
  intros n [<-|[]]. simpl. lia.
Qed.

(** Why the names have to be ordinary.  A function called [toString] is
    never reported, whatever it costs: the dictionary inherits a property of
    that name, so its entry becomes a text.  And a name that is an array index
    is enumerated first, so it wins a tie against a name seen before it. *)
Example inherited_name_is_not_tallied :
  let s := calculateSummaryMetrics
             (RawMetrics.mk 1 []
                [Samples.call "toString" None 50; Samples.call "f" None 10]
                [] []) in
  Summary.mostExpensiveFunction s = Some "f"
  /\ Summary.mostExpensiveFunctionTime s = 10%Z.
Proof. split; reflexivity. Qed.

Example index_name_wins_tie :
  Summary.mostExpensiveFunction
    (calculateSummaryMetrics
       (RawMetrics.mk 1 []
          [Samples.call "b" None 5; Samples.call "7" None 5] [] []))
  = Some "7".
Proof. reflexivity. Qed.

(** ** The per-line table *)

Lemma insertLine_perm (l : N) (ls : list N) :
  Permutation (Spec.insertLine l ls) (l :: ls).
Proof.
  induction ls as [|x ls IH]; simpl; [reflexivity|].
  destruct (l <=? x)%N; [reflexivity|].
  rewrite IH. apply perm_swap.
Qed.

Lemma sortLines_perm (ls : list N) : Permutation (Spec.sortLines ls) ls.
Proof.
  induction ls as [|x ls IH]; simpl; [constructor|].
  rewrite insertLine_perm, IH. reflexivity.
Qed.

Lemma insertLine_sorted (l : N) (ls : list N) :
  StronglySorted N.le ls -> StronglySorted N.le (Spec.insertLine l ls).
Proof.
  induction 1 as [|x ls Hs IH Hx]; simpl.
  - repeat constructor.
  - destruct (N.leb_spec l x) as [Hle|Hlt].
    + constructor; [constructor; assumption|].
      constructor; [exact Hle|].
      eapply Forall_impl; [|exact Hx]. intros y Hy. cbv beta in *. lia.
    + constructor; [exact IH|].
      apply (Permutation_Forall (Permutation_sym (insertLine_perm l ls))).
      constructor; [lia | exact Hx].
Qed.

Lemma sortLines_sorted (ls : list N) :
  StronglySorted N.le (Spec.sortLines ls).
Proof.
  induction ls as [|x ls IH]; simpl; [constructor|].
  apply insertLine_sorted, IH.
Qed.

Lemma sorted_distinct_strict (ls : list N) :
  StronglySorted N.le ls -> NoDup ls -> StronglySorted N.lt ls.
Proof.
  induction 1 as [|x ls Hs IH Hx]; intros Hnd; [constructor|].
  inversion Hnd as [|? ? Hout Hnd']; subst.
  constructor; [apply IH, Hnd'|].
  rewrite Forall_forall in *. intros y Hy.
  specialize (Hx y Hy). assert (x <> y) by (intros ->; contradiction). lia.
Qed.

Section Tabulated.

Context {V : Type}.
Variable F : N -> V.

Lemma insert_index_tabulated (l : N) (ls : list N) :
  JsObject.insert_index l (l, F l) (map (fun x => (x, (x, F x))) ls)
  = map (fun x => (x, (x, F x))) (Spec.insertLine l ls).
Proof.
  induction ls as [|x ls IH]; simpl; [reflexivity|].
  destruct (l <=? x)%N; simpl; [reflexivity|]. rewrite IH. reflexivity.
Qed.

Lemma index_part_tabulated (keys : list N) :
  (forall l, In l keys -> (l < JsObject.max_array_index)%N) ->
  JsObject.index_part JsObject.number_index (map (fun l => (l, F l)) keys)
  = map (fun x => (x, (x, F x))) (Spec.sortLines keys).
Proof.
  induction keys as [|k keys IH]; intros H; simpl; [reflexivity|].
  unfold JsObject.number_index at 1.
  destruct (N.ltb_spec k JsObject.max_array_index) as [Hk|Hk].
  - rewrite IH; [apply insert_index_tabulated|].
    intros l Hl. apply H. right. exact Hl.
  - specialize (H k (or_introl eq_refl)). lia.
Qed.

Lemma named_part_tabulated (keys : list N) :
  (forall l, In l keys -> (l < JsObject.max_array_index)%N) ->
  JsObject.named_part JsObject.number_index (map (fun l => (l, F l)) keys)
  = [].
Proof.
  induction keys as [|k keys IH]; intros H; simpl; [reflexivity|].
  unfold JsObject.number_index at 1.
  destruct (N.ltb_spec k JsObject.max_array_index) as [Hk|Hk].
  - apply IH. intros l Hl. apply H. right. exact Hl.
  - specialize (H k (or_introl eq_refl)). lia.
Qed.

(** [Object.values] of a dictionary keyed by line numbers: ascending. *)
Lemma values_tabulated (keys : list N) :
  (forall l, In l keys -> (l < JsObject.max_array_index)%N) ->
  JsObject.values JsObject.number_index (map (fun l => (l, F l)) keys)
  = map F (Spec.sortLines keys).
Proof.
  intros H. unfold JsObject.values, JsObject.entries.
  rewrite index_part_tabulated, named_part_tabulated by exact H.
  rewrite app_nil_r, !map_map. reflexivity.
Qed.

End Tabulated.

Lemma stepsOf_app (l : N) (flow flow' : list LineExecution.t) :
  Spec.stepsOf l (flow ++ flow')
  = (Spec.stepsOf l flow ++ Spec.stepsOf l flow')%list.
Proof. apply filter_app. Qed.

Lemma stepsOf_absent (l : N) (flow : list LineExecution.t) :
  ~ In l (map LineExecution.line flow) -> Spec.stepsOf l flow = [].
Proof.
  induction flow as [|s flow IH]; intros H; simpl; [reflexivity|].
  destruct (N.eqb_spec (LineExecution.line s) l) as [E|E].
  - exfalso. apply H. left. exact E.
  - apply IH. intros Hin. apply H. right. exact Hin.
Qed.

Lemma stepsOf_present (l : N) (flow : list LineExecution.t) :
  In l (map LineExecution.line flow) ->
  exists s rest, Spec.stepsOf l flow = s :: rest.
Proof.
  induction flow as [|s flow IH]; intros H; simpl; [destruct H|].
  destruct (N.eqb_spec (LineExecution.line s) l) as [E|E].
  - eauto.
  - destruct H as [H|H]; [contradiction | apply IH, H].
Qed.

Lemma totalOf_snoc (steps : list LineExecution.t) (s : LineExecution.t) :
  Spec.totalOf (steps ++ [s])
  = (Spec.totalOf steps + durationOrZero (LineExecution.duration s))%Z.
Proof.
  unfold Spec.totalOf. induction steps as [|x steps IH]; simpl; lia.
Qed.

Lemma statsOf_other (l : N) (flow : list LineExecution.t)
  (s : LineExecution.t) :
  LineExecution.line s <> l ->
  Spec.statsOf l (flow ++ [s]) = Spec.statsOf l flow.
Proof.
  intros H. unfold Spec.statsOf. rewrite stepsOf_app. simpl.
  destruct (N.eqb_spec (LineExecution.line s) l) as [E|E]; [contradiction|].
  rewrite app_nil_r. reflexivity.
Qed.

Lemma addStep_known (flow : list LineExecution.t) (keys : list N)
  (s : LineExecution.t) :
  NoDup keys -> In (LineExecution.line s) keys ->
  (forall l, In l keys -> In l (map LineExecution.line flow)) ->
  addStep (map (fun l => (l, Spec.statsOf l flow)) keys) s
  = map (fun l => (l, Spec.statsOf l (flow ++ [s]))) keys.
Proof.
  intros Hnd Hin Hkeys. unfold addStep. cbv zeta.
  rewrite (obj_get_in N.eqb N.eqb_eq (fun l => Spec.statsOf l flow) keys _ Hin).
  rewrite (obj_get_in N.eqb N.eqb_eq (fun l => Spec.statsOf l flow) keys _ Hin).
  rewrite (obj_set_in N.eqb N.eqb_eq (fun l => Spec.statsOf l flow) keys _ _
             Hnd Hin).
  apply map_ext. intros l.
  destruct (N.eqb_spec l (LineExecution.line s)) as [->|E].
  - f_equal. unfold Spec.statsOf. rewrite stepsOf_app. simpl.
    rewrite N.eqb_refl.
    destruct (stepsOf_present _ _ (Hkeys _ Hin)) as (x & rest & Ex).
    rewrite Ex. cbn [LineStats.line LineStats.code LineStats.executionCount
                       LineStats.totalTime LineStats.timestamps].
    rewrite <- Ex, totalOf_snoc, map_app, length_app. simpl.
    rewrite Ex. reflexivity.
  - rewrite statsOf_other; [reflexivity|]. intros E'. apply E.
    symmetry. exact E'.
Qed.

Lemma addStep_new (flow : list LineExecution.t) (keys : list N)
  (s : LineExecution.t) :
  ~ In (LineExecution.line s) keys ->
  (forall l, In l (map LineExecution.line flow) -> In l keys) ->
  addStep (map (fun l => (l, Spec.statsOf l flow)) keys) s
  = map (fun l => (l, Spec.statsOf l (flow ++ [s])))
      (keys ++ [LineExecution.line s]).
Proof.
  intros Hout Hlines. unfold addStep. cbv zeta.
  assert (Hget : JsObject.get N.eqb
                   (map (fun l => (l, Spec.statsOf l flow)) keys)
                   (LineExecution.line s) = None).
  { apply (obj_get_out N.eqb N.eqb_eq (fun l => Spec.statsOf l flow)).
    exact Hout. }
  rewrite Hget.
  rewrite (obj_set_out N.eqb N.eqb_eq (fun l => Spec.statsOf l flow) keys _ _
             Hout).
  rewrite (obj_get_last N.eqb N.eqb_eq _ _ _ Hget).
  rewrite (obj_set_last N.eqb N.eqb_eq _ _ _ _ Hget).
  rewrite map_app. simpl. f_equal.
  - apply map_ext_in. intros l Hl. rewrite statsOf_other;
      [reflexivity|]. intros E. subst. contradiction.
  - unfold Spec.statsOf. rewrite stepsOf_app, stepsOf_absent.
    + simpl. rewrite N.eqb_refl. simpl. repeat f_equal. lia.
    + intros Hin. apply Hout, Hlines, Hin.
Qed.

Lemma lineExecutions_tabulated (flow : list LineExecution.t) :
  exists keys,
    fold_left addStep flow JsObject.empty
    = map (fun l => (l, Spec.statsOf l flow)) keys
    /\ NoDup keys
    /\ (forall l, In l keys <-> In l (map LineExecution.line flow)).
Proof.
  induction flow as [|s flow IH] using rev_ind.
  - exists []. repeat split; try constructor; intros H; destruct H.
  - destruct IH as (keys & Ho & Hnd & Hin).
    rewrite fold_left_app, Ho, map_app. simpl.
    destruct (in_dec N.eq_dec (LineExecution.line s) keys) as [Hk|Hk].
    + exists keys. split.
      { apply addStep_known; try assumption. intros l. apply Hin. }
      split; [exact Hnd|].
      intros l. rewrite in_app_iff, <- Hin. simpl. intuition (subst; auto).
    + exists (keys ++ [LineExecution.line s])%list. split.
      { apply addStep_new; try assumption. intros l. apply Hin. }
      split.
      { apply NoDup_app; [exact Hnd | repeat constructor; intros [] |].
        intros y Hy [Hx|[]]. subst. contradiction. }
      intros l. rewrite !in_app_iff, <- Hin. reflexivity.
Qed.

Lemma toRow_statsOf (l : N) (flow : list LineExecution.t) :
  toRow (Spec.statsOf l flow) = Spec.rowOf l flow.
Proof. reflexivity. Qed.

(** C2, as the code has it.  For a trace whose line numbers are array
    indices (below 2^32 - 1), the table [processExecutionFlow] returns has one
    row for every line that was executed at all, in ascending order of line
    number; the row of a line holds the number of its executions, the sum of
    their durations and that sum divided by the count.  Nothing is filtered by
    count and nothing is ordered by duration: on the example trace the table
    holds line 4 (count 1) before line 7 (count 3). *)
Theorem processExecutionFlow_table :
  (forall flow : list LineExecution.t,
     (forall s, In s flow ->
        (LineExecution.line s < JsObject.max_array_index)%N) ->
     exists lines,
       processExecutionFlow flow = map (fun l => Spec.rowOf l flow) lines
       /\ StronglySorted N.lt lines
       /\ (forall l, In l lines <-> In l (map LineExecution.line flow)))
  /\ processExecutionFlow Spec.exampleFlow
     = [ LineRow.mk 4 "x += 1;" 1 1 [0%Z] (1 # 1);
         LineRow.mk 7 "x += 1;" 3 9 [0%Z; 0%Z; 0%Z] (9 # 3) ].
Proof.
  split; [|vm_compute; reflexivity].
  intros flow Hbound.
  destruct (lineExecutions_tabulated flow) as (keys & Ho & Hnd & Hin).
  exists (Spec.sortLines keys).
  assert (Hkeys : forall l, In l keys -> (l < JsObject.max_array_index)%N).
  { intros l Hl. apply Hin in Hl. apply in_map_iff in Hl.
    destruct Hl as (s & <- & Hs). apply Hbound, Hs. }
  split.
  - unfold processExecutionFlow. rewrite Ho.
    rewrite (values_tabulated (fun l => Spec.statsOf l flow) keys Hkeys).
    rewrite map_map. apply map_ext. intros l. apply toRow_statsOf.
  - split.
    + apply sorted_distinct_strict; [apply sortLines_sorted|].
      apply (Permutation_NoDup (Permutation_sym (sortLines_perm keys))), Hnd.
    + intros l. rewrite <- Hin. split; apply Permutation_in;
        [apply sortLines_perm | apply Permutation_sym, sortLines_perm].
Qed.

Lemma processExecutionFlow_table_witness :
  exists lines,
    processExecutionFlow Spec.exampleFlow
    = map (fun l => Spec.rowOf l Spec.exampleFlow) lines
    /\ StronglySorted N.lt lines.
Proof.
  assert (Hbound : forall s, In s Spec.exampleFlow ->
            (LineExecution.line s < JsObject.max_array_index)%N).
  { intros s Hs. simpl in Hs.
    destruct Hs as [<-|[<-|[<-|[<-|[]]]]]; reflexivity. }
  destruct (proj1 processExecutionFlow_table Spec.exampleFlow Hbound)
    as (lines & H1 & H2 & _).
  exists lines. split; assumption.
Defined.

(** C2, the claim as stated fails: on the trace with one execution of line 4
    and three of line 7 the table holds a row for line 4, whose count is 1,
    and it comes first although its total duration is the smaller one. *)
Lemma processExecutionFlow_keeps_single_executions :
  exists row4 row7,
    processExecutionFlow Spec.exampleFlow = [row4; row7]
    /\ LineRow.line row4 = 4%N /\ LineRow.executionCount row4 = 1%nat
    /\ LineRow.line row7 = 7%N /\ LineRow.executionCount row7 = 3%nat
    /\ (LineRow.totalTime row4 < LineRow.totalTime row7)%Z.
Proof.
  eexists. eexists. split; [vm_compute; reflexivity|].
  repeat split.
Qed.

(** ** The call graph *)



Lemma addCall_split (nodes : list string) (m : callCountMapT)
  (c : FunctionCall.t) :
  addCall (nodes, m) c
  = (set_add (set_add nodes (sourceOf c)) (FunctionCall.name c),
     Spec.addLinkCount m c).
Proof.
  unfold Spec.addLinkCount, addCall.
  destruct (JsObject.get String.eqb m
              (linkIdOf (sourceOf c) (FunctionCall.name c))); reflexivity.
Qed.

Lemma fold_addCall (calls : list FunctionCall.t) :
  forall (nodes : list string) (m : callCountMapT),
    fold_left addCall calls (nodes, m)
    = (fold_left set_add (flat_map Spec.endpoints calls) nodes,
       fold_left Spec.addLinkCount calls m).
Proof.
  induction calls as [|c calls IH]; intros nodes m; [reflexivity|].
  cbn [fold_left]. rewrite addCall_split, IH. reflexivity.
Qed.

Lemma callsWithId_app (id : string) (l l' : list FunctionCall.t) :
  Spec.callsWithId id (l ++ l')
  = (Spec.callsWithId id l ++ Spec.callsWithId id l')%list.
Proof. apply filter_app. Qed.

Lemma callsWithId_absent (id : string) (l : list FunctionCall.t) :
  ~ In id (map Spec.linkIdOfCall l) -> Spec.callsWithId id l = [].
Proof.
  induction l as [|c l IH]; intros H; simpl; [reflexivity|].
  destruct (String.eqb_spec (Spec.linkIdOfCall c) id) as [E|E].
  - exfalso. apply H. left. exact E.
  - apply IH. intros Hin. apply H. right. exact Hin.
Qed.

Lemma callsWithId_present (id : string) (l : list FunctionCall.t) :
  In id (map Spec.linkIdOfCall l) ->
  exists c rest,
    Spec.callsWithId id l = c :: rest
    /\ In c l /\ Spec.linkIdOfCall c = id.
Proof.
  induction l as [|c l IH]; intros H; simpl; [destruct H|].
  destruct (String.eqb_spec (Spec.linkIdOfCall c) id) as [E|E].
  - exists c, (Spec.callsWithId id l). repeat split; auto.
  - destruct H as [H|H]; [contradiction|].
    destruct (IH H) as (x & rest & H1 & H2 & H3).
    exists x, rest. repeat split; auto.
Qed.

Lemma sumDurations_snoc (l : list FunctionCall.t) (c : FunctionCall.t) :
  Spec.sumDurations (l ++ [c])
  = (Spec.sumDurations l + FunctionCall.duration c)%Z.
Proof.
  unfold Spec.sumDurations. induction l as [|x l IH]; simpl; lia.
Qed.

Lemma countOf_other (id : string) (calls : list FunctionCall.t)
  (c : FunctionCall.t) :
  Spec.linkIdOfCall c <> id ->
  Spec.countOf id (calls ++ [c]) = Spec.countOf id calls.
Proof.
  intros H. unfold Spec.countOf. rewrite callsWithId_app. simpl.
  destruct (String.eqb_spec (Spec.linkIdOfCall c) id) as [E|E];
    [contradiction|].
  rewrite app_nil_r. reflexivity.
Qed.

Lemma addLinkCount_known (calls : list FunctionCall.t) (ids : list string)
  (c : FunctionCall.t) :
  NoDup ids -> In (Spec.linkIdOfCall c) ids ->
  (forall id, In id ids -> In id (map Spec.linkIdOfCall calls)) ->
  Spec.addLinkCount (map (fun id => (id, Spec.countOf id calls)) ids) c
  = map (fun id => (id, Spec.countOf id (calls ++ [c]))) ids.
Proof.
  intros Hnd Hin Hids. unfold Spec.addLinkCount, addCall.
  fold (Spec.linkIdOfCall c).
  rewrite (obj_get_in String.eqb String.eqb_eq
             (fun id => Spec.countOf id calls) ids _ Hin).
  cbn [snd].
  rewrite (obj_set_in String.eqb String.eqb_eq
             (fun id => Spec.countOf id calls) ids _ _ Hnd Hin).
  apply map_ext. intros id.
  destruct (String.eqb_spec id (Spec.linkIdOfCall c)) as [->|E].
  - f_equal. unfold Spec.countOf. rewrite callsWithId_app. simpl.
    rewrite String.eqb_refl.
    destruct (callsWithId_present _ _ (Hids _ Hin)) as (x & rest & Ex & _).
    rewrite Ex. cbn [LinkCount.source LinkCount.target LinkCount.count
                       LinkCount.totalDuration].
    rewrite <- Ex, sumDurations_snoc, length_app. simpl.
    rewrite Ex. reflexivity.
  - rewrite countOf_other; [reflexivity|]. intros E'. apply E.
    symmetry. exact E'.
Qed.

Lemma addLinkCount_new (calls : list FunctionCall.t) (ids : list string)
  (c : FunctionCall.t) :
  ~ In (Spec.linkIdOfCall c) ids ->
  (forall id, In id (map Spec.linkIdOfCall calls) -> In id ids) ->
  Spec.addLinkCount (map (fun id => (id, Spec.countOf id calls)) ids) c
  = map (fun id => (id, Spec.countOf id (calls ++ [c])))
      (ids ++ [Spec.linkIdOfCall c]).
Proof.
  intros Hout Hids. unfold Spec.addLinkCount, addCall.
  fold (Spec.linkIdOfCall c).
  rewrite (obj_get_out String.eqb String.eqb_eq
             (fun id => Spec.countOf id calls) ids _ Hout).
  cbn [snd].
  rewrite (obj_set_out String.eqb String.eqb_eq
             (fun id => Spec.countOf id calls) ids _ _ Hout).
  rewrite map_app. simpl. f_equal.
  - apply map_ext_in. intros id Hid. rewrite countOf_other;
      [reflexivity|]. intros E. subst. contradiction.
  - unfold Spec.countOf. rewrite callsWithId_app, callsWithId_absent.
    + simpl. rewrite String.eqb_refl. simpl. repeat f_equal. lia.
    + intros Hin. apply Hout, Hids, Hin.
Qed.

Lemma callCountMap_tabulated (calls : list FunctionCall.t) :
  exists ids,
    fold_left Spec.addLinkCount calls JsObject.empty
    = map (fun id => (id, Spec.countOf id calls)) ids
    /\ NoDup ids
    /\ (forall id, In id ids <-> In id (map Spec.linkIdOfCall calls)).
Proof.
  induction calls as [|c calls IH] using rev_ind.
  - exists []. repeat split; try constructor; intros H; destruct H.
  - destruct IH as (ids & Ho & Hnd & Hin).
    rewrite fold_left_app, Ho, map_app. simpl.
    destruct (in_dec string_dec (Spec.linkIdOfCall c) ids) as [Hk|Hk].
    + exists ids. split.
      { apply addLinkCount_known; try assumption. intros id. apply Hin. }
      split; [exact Hnd|].
      intros id. rewrite in_app_iff, <- Hin. simpl. intuition (subst; auto).
    + exists (ids ++ [Spec.linkIdOfCall c])%list. split.
      { apply addLinkCount_new; try assumption. intros id. apply Hin. }
      split.
      { apply NoDup_app; [exact Hnd | repeat constructor; intros [] |].
        intros y Hy [Hx|[]]. subst. contradiction. }
      intros id. rewrite !in_app_iff, <- Hin. reflexivity.
Qed.







(** ** Summaries of arguments and values *)





Section CollectorFacts.

Context {value : Type}.
Variable stringify : value -> option string.
Variable typeOf : value -> string.
Variable options : Options.t.








End CollectorFacts.

(** No condition the Python template renders can be read: a JavaScript
    boolean is written [true] or [false], which Python takes for names. *)
Lemma rendered_condition_raises (b : bool) :
  PythonHandler.readCondition (PythonHandler.renderOption b)
  = PythonHandler.nameError
      ("name '" ++ PythonHandler.renderOption b ++ "' is not defined").
Proof. destruct b; reflexivity. Qed.

(** So the Python program ends at its first statement after the setup, the
    initial [metrics.track_memory()], with nothing printed. *)
Lemma python_program_stops {value : Type}
  (stringify : value -> option string) (typeOf : value -> string)
  (options : Options.t) (r : Collector.readings)
  (b : Collector.behaviour value) :
  PythonHandler.instrumentCode stringify typeOf options r b = [].
Proof.
  unfold PythonHandler.instrumentCode, PythonHandler.track_memory,
    PythonHandler.guarded.
  rewrite rendered_condition_raises. reflexivity.
Qed.



(** ** The reassignment rewrite *)

Lemma append_assoc (a b c : string) : ((a ++ b) ++ c = a ++ (b ++ c))%string.
Proof.
  induction a as [|x a IH]; simpl; [reflexivity|]. rewrite IH. reflexivity.
Qed.

Lemma append_empty (a : string) : (a ++ "")%string = a.
Proof.
  induction a as [|x a IH]; simpl; [reflexivity|]. rewrite IH. reflexivity.
Qed.

Lemma span_append (p : ascii -> bool) (s : string) :
  (fst (Text.span p s) ++ snd (Text.span p s))%string = s.
Proof.
  induction s as [|c s IH]; simpl; [reflexivity|].
  destruct (p c); [|reflexivity].
  destruct (Text.span p s) as [taken remains]. simpl in *.
  rewrite IH. reflexivity.
Qed.

Lemma drop_append (a b : string) : Text.drop (String.length a) (a ++ b) = b.
Proof.
  induction a as [|x a IH]; simpl; [destruct b; reflexivity | exact IH].
Qed.

Lemma drop_zero (s : string) : Text.drop 0 s = s.
Proof. destruct s; reflexivity. Qed.

(** A match of the reassignment expression is a prefix of the text it was
    tried on, and it is not empty. *)
Lemma assignmentAt_prefix (s matched name value : string) :
  JavascriptHandler.assignmentAt s = Some (matched, name, value) ->
  exists c m rest, matched = String c m /\ s = (matched ++ rest)%string.
Proof.
  unfold JavascriptHandler.assignmentAt.
  destruct s as [|c s0]; [discriminate|].
  destruct (Text.is_ident_start c) eqn:Estart; [|discriminate].
  pose proof (span_append Text.is_ident_char (String c s0)) as H1.
  destruct (Text.span Text.is_ident_char (String c s0)) as [nm s1] eqn:E1.
  pose proof (span_append Text.is_space s1) as H2.
  destruct (Text.span Text.is_space s1) as [ws1 s2].
  destruct s2 as [|c2 s3]; [discriminate|].
  destruct (Ascii.eqb c2 "=") eqn:Eeq; [|discriminate].
  apply Ascii.eqb_eq in Eeq. subst c2.
  pose proof (span_append Text.is_space s3) as H3.
  destruct (Text.span Text.is_space s3) as [ws2 s4].
  pose proof (span_append (fun c => negb (Ascii.eqb c ";")) s4) as H4.
  destruct (Text.span (fun c => negb (Ascii.eqb c ";")) s4) as [val s5].
  destruct s5 as [|c5 s6]; [discriminate|].
  destruct (Ascii.eqb c5 ";") eqn:Esemi; [|discriminate].
  apply Ascii.eqb_eq in Esemi. subst c5.
  intros E. injection E as <- <- <-.
  simpl in H1, H2, H3, H4.
  assert (Hname : exists n', nm = String c n').
  { simpl in E1. unfold Text.is_ident_char in E1. rewrite Estart in E1.
    simpl in E1. destruct (Text.span _ s0) as [taken remains].
    injection E1 as <- _. eauto. }
  destruct Hname as (n' & ->).
  exists c, (n' ++ ws1 ++ "=" ++ ws2 ++ val ++ ";")%string, s6.
  split; [reflexivity|].
  rewrite <- H1 at 1. rewrite <- H2 at 1. rewrite <- H3 at 1.
  rewrite <- H4 at 1.
  rewrite !append_assoc. simpl. rewrite !append_assoc. reflexivity.
Qed.

(** The segments of a scan cover the text that was scanned, in order. *)
Lemma segments_cover (p : JavascriptHandler.pattern)
  (callback : string -> string -> string -> string) :
  (forall s matched name value,
     p s = Some (matched, name, value) ->
     exists c m rest, matched = String c m /\ s = (matched ++ rest)%string) ->
  forall s skip,
    Spec.sourceText (JavascriptHandler.segments p callback skip s)
    = Text.drop skip s.
Proof.
  intros Hp. induction s as [|c s IH]; intros skip.
  - destruct skip; reflexivity.
  - destruct skip as [|k]; simpl.
    + destruct (p (String c s)) as [[[matched name] value]|] eqn:E.
      * destruct (Hp _ _ _ _ E) as (c' & m & rest & -> & Hs).
        simpl in Hs. injection Hs as -> ->.
        simpl. rewrite IH, Nat.sub_0_r, drop_append. reflexivity.
      * simpl. rewrite IH, drop_zero. reflexivity.
    + apply IH.
Qed.

Lemma reassignmentCallback_cases (matched name value : string) :
  Spec.reassignmentSegment
    (JavascriptHandler.replaced matched name value
       (JavascriptHandler.reassignmentCallback matched name value)).
Proof.
  unfold JavascriptHandler.reassignmentCallback, Spec.loopCounter. simpl.
  destruct (String.eqb_spec name "i") as [Ei|Ei];
    [left; split; [left; exact Ei | reflexivity]|].
  destruct (String.eqb_spec name "j") as [Ej|Ej];
    [left; split; [right; left; exact Ej | reflexivity]|].
  destruct (String.eqb_spec name "k") as [Ek|Ek];
    [left; split; [right; right; exact Ek | reflexivity]|].
  right. split; [|reflexivity]. unfold Spec.loopCounter. tauto.
Qed.

Lemma segments_reassignment (s : string) :
  forall skip,
    Forall Spec.reassignmentSegment
      (JavascriptHandler.segments JavascriptHandler.assignmentAt
         JavascriptHandler.reassignmentCallback skip s).
Proof.
  induction s as [|c s IH]; intros skip; [destruct skip; constructor|].
  destruct skip as [|k]; cbn [JavascriptHandler.segments]; [|apply IH].
  destruct (JavascriptHandler.assignmentAt (String c s))
    as [[[matched name] value]|].
  - constructor; [apply reassignmentCallback_cases | apply IH].
  - constructor; [exact I | apply IH].
Qed.

(** C10.  The rewrite of plain reassignments scans the whole program; at
    each match it either leaves the matched text as it is, which is what it
    does for the names i, j and k, or follows the assignment with the tracking
    call of the matched name, which is then none of i, j, k.  The rest of
    the program is copied, and with [trackVariables] off nothing is
    rewritten. *)
Theorem reassignments_skip_loop_counters (code : string) :
  let segs :=
    JavascriptHandler.segments JavascriptHandler.assignmentAt
      JavascriptHandler.reassignmentCallback 0 code in
  Spec.sourceText segs = code
  /\ JavascriptHandler.trackReassignments code
     = JavascriptHandler.render segs
  /\ Forall Spec.reassignmentSegment segs
  /\ (forall matched name value replacement,
        In (JavascriptHandler.replaced matched name value replacement) segs ->
        Spec.loopCounter name -> replacement = matched)
  /\ JavascriptHandler.instrumentVariables code false = code.
Proof.
  intros segs. subst segs.
  split.
  { rewrite (segments_cover _ _ assignmentAt_prefix), drop_zero.
    reflexivity. }
  split; [reflexivity|].
  split; [apply segments_reassignment|].
  split; [|reflexivity].
  intros matched name value replacement Hin Hloop.
  pose proof (segments_reassignment code 0) as Hall.
  rewrite Forall_forall in Hall. specialize (Hall _ Hin). simpl in Hall.
  destruct Hall as [[_ H]|[H _]]; [exact H | contradiction].
Qed.

Lemma reassignments_skip_loop_counters_witness :
  JavascriptHandler.trackReassignments "i = i + 1;" = "i = i + 1;".
Proof.
  destruct (reassignments_skip_loop_counters "i = i + 1;")
    as (_ & Hout & _ & Hskip & _).
  rewrite Hout. cbv zeta in Hskip.
  assert (Hin : In (JavascriptHandler.replaced "i = i + 1;" "i" "i + 1"
                      "i = i + 1;")
                  (JavascriptHandler.segments JavascriptHandler.assignmentAt
                     JavascriptHandler.reassignmentCallback 0 "i = i + 1;")).
  { vm_compute. left. reflexivity. }
  pose proof (Hskip _ _ _ _ Hin (or_introl eq_refl)) as _.
  vm_compute. reflexivity.
Defined.

(** ** Exit paths of the instrumented program *)

Section WrapperFacts.

Context {value : Type}.
Variable stringify : value -> option string.
Variable typeOf : value -> string.
Variable options : Options.t.




End WrapperFacts.

Lemma count_app {A : Type} (p : A -> bool) (l l' : list A) :
  Spec.count p (l ++ l') = (Spec.count p l + Spec.count p l')%nat.
Proof.
  unfold Spec.count. rewrite filter_app, length_app. reflexivity.
Qed.





(** The two exits the statement above leaves out.  On a thrown [null] the
    [catch] block of the JavaScript program raises while it builds the error
    marker, so no marker is sent and a [TypeError] leaves the program. *)
Example thrown_null_sends_no_marker :
  JavascriptHandler.instrumentCode Samples.quote Samples.typeOfString
    Samples.allOptions Samples.readings Samples.throwingNull
  = [ Collector.memory (MemoryPoint.mk 2 64 0 0) ]
  /\ JavascriptHandler.escapes Samples.throwingNull
     = Some "Cannot read properties of null (reading 'message')".
Proof. split; reflexivity. Qed.

(** The Python program, whose conditions are written [true] and [false],
    ends with a [NameError] before its [try] block starts. *)
Example python_program_ends_with_NameError :
  PythonHandler.instrumentCode Samples.quote Samples.typeOfString
    Samples.allOptions Samples.readings Samples.longAssignment
  = []
  /\ PythonHandler.uncaught Samples.allOptions
     = Some "name 'true' is not defined".
Proof. split; reflexivity. Qed.

(** ** Framed lines that fail to parse *)

Lemma prefix_append (p s : string) : String.prefix p (p ++ s) = true.
Proof.
  induction p as [|c p IH]; simpl.
  - destruct s; reflexivity.
  - destruct (ascii_dec c c) as [_|N]; [exact IH | contradiction].
Qed.

Lemma payload_append (p s : string) : PythonHandler.payload p (p ++ s) = s.
Proof. unfold PythonHandler.payload. apply drop_append. Qed.

Ltac log_blind f :=
  intros [md dl lg se ta tf] [md' dl' lg' se' ta' tf'];
  unfold Spec.sameButLog; cbn; intros (<- & <- & <- & <- & <-);
  unfold f; cbn;
  try (destruct se; cbn); try (destruct ta; cbn); try (destruct tf; cbn);
  repeat split.

Section ShellFacts.

Variable parse : string -> option Json.t.
Variable hasCallback : bool.

Lemma sameButLog_refl (a : PythonHandler.state) : Spec.sameButLog a a.
Proof. repeat split. Qed.

Lemma sameButLog_log (l : PythonHandler.logLine) (a : PythonHandler.state) :
  Spec.sameButLog (PythonHandler.log l a) a.
Proof. repeat split. Qed.

Lemma sameButLog_trans (a b c : PythonHandler.state) :
  Spec.sameButLog a b -> Spec.sameButLog b c -> Spec.sameButLog a c.
Proof.
  unfold Spec.sameButLog. intros (? & ? & ? & ? & ?) (? & ? & ? & ? & ?).
  repeat split; congruence.
Qed.

Lemma logBlind_log (l : PythonHandler.logLine) :
  Spec.logBlind (PythonHandler.log l).
Proof. log_blind PythonHandler.log. Qed.

Lemma logBlind_callback (event data : Json.t) :
  Spec.logBlind (PythonHandler.metricsCallback event data).
Proof. log_blind PythonHandler.metricsCallback. Qed.

Lemma logBlind_setMetricsData (j : Json.t) :
  Spec.logBlind (PythonHandler.setMetricsData j).
Proof. log_blind PythonHandler.setMetricsData. Qed.

Lemma logBlind_settle (s : PythonHandler.settlement) :
  Spec.logBlind (PythonHandler.settle s).
Proof. log_blind PythonHandler.settle. Qed.

Lemma logBlind_unlink : Spec.logBlind PythonHandler.unlinkTempFile.
Proof.
  log_blind PythonHandler.unlinkTempFile.
Qed.

Lemma logBlind_clearIfArmed :
  Spec.logBlind (fun st => if PythonHandler.timeoutArmed st
                      then PythonHandler.clearTimeout st else st).
Proof.
  intros [md dl lg se ta tf] [md' dl' lg' se' ta' tf'].
  unfold Spec.sameButLog. cbn. intros (<- & <- & <- & <- & <-).
  destruct ta; cbn; repeat split.
Qed.

Lemma onMetricsEvent_logBlind (message : string) :
  Spec.logBlind (PythonHandler.onMetricsEvent parse hasCallback message).
Proof.
  intros a b H. unfold PythonHandler.onMetricsEvent.
  destruct (parse _) as [eventData|]; [|apply logBlind_log, H].
  destruct hasCallback; [|exact H].
  destruct (Json.property eventData "event") as [| |event];
    [apply logBlind_log, H | exact H |].
  destruct (Json.truthy event); [|exact H].
  destruct (Json.property eventData "data") as [| |data];
    [apply logBlind_log, H | exact H |].
  destruct (Json.truthy data); [apply logBlind_callback, H | exact H].
Qed.

Lemma onMetricsComplete_logBlind (message : string) :
  Spec.logBlind (PythonHandler.onMetricsComplete parse message).
Proof.
  intros a b H. unfold PythonHandler.onMetricsComplete.
  destruct (parse _) as [data|];
    [apply logBlind_setMetricsData, H | apply logBlind_log, H].
Qed.

Lemma onMetricsError_logBlind (message : string) :
  Spec.logBlind (PythonHandler.onMetricsError parse hasCallback message).
Proof.
  intros a b H. unfold PythonHandler.onMetricsError.
  destruct (parse _) as [errorData|];
    [|apply logBlind_settle, logBlind_log, H].
  cbv zeta.
  assert (H1 : Spec.sameButLog
            (if hasCallback
             then PythonHandler.metricsCallback (Json.text "error")
                    errorData a
             else a)
            (if hasCallback
             then PythonHandler.metricsCallback (Json.text "error")
                    errorData b
             else b)).
  { destruct hasCallback; [apply logBlind_callback, H | exact H]. }
  apply logBlind_clearIfArmed in H1. apply logBlind_unlink in H1.
  destruct (Json.property errorData "message") as [| |m].
  - apply logBlind_settle, logBlind_log, H1.
  - apply logBlind_settle, H1.
  - apply logBlind_settle, H1.
Qed.

Lemma onMessage_sameButLog (message : string) :
  Spec.logBlind (PythonHandler.onMessage parse hasCallback message).
Proof.
  intros a b H. unfold PythonHandler.onMessage.
  destruct (String.prefix PythonHandler.METRICS_EVENT message);
    [apply onMetricsEvent_logBlind, H|].
  destruct (String.prefix PythonHandler.METRICS_COMPLETE message);
    [apply onMetricsComplete_logBlind, H|].
  destruct (String.prefix PythonHandler.METRICS_ERROR message);
    [apply onMetricsError_logBlind, H | exact H].
Qed.

Lemma onEnd_sameButLog (err : option string) :
  Spec.logBlind (PythonHandler.onEnd hasCallback err).
Proof.
  intros a b H. unfold PythonHandler.onEnd. cbv zeta.
  apply logBlind_clearIfArmed in H. apply logBlind_unlink in H.
  destruct err as [message|].
  - apply logBlind_settle.
    destruct hasCallback; [apply logBlind_callback, H | exact H].
  - destruct H as (Hmd & Hrest).
    rewrite Hmd. apply logBlind_settle. split; assumption.
Qed.

Lemma messages_sameButLog (messages : list string) :
  forall a b,
    Spec.sameButLog a b ->
    Spec.sameButLog
      (fold_left (fun st message =>
                    PythonHandler.onMessage parse hasCallback message st)
         messages a)
      (fold_left (fun st message =>
                    PythonHandler.onMessage parse hasCallback message st)
         messages b).
Proof.
  induction messages as [|m messages IH]; intros a b H; simpl; [exact H|].
  apply IH, onMessage_sameButLog, H.
Qed.

(** A frame that is only logged leaves the outcome of the run untouched. *)
Lemma dropped_frame (frame : string) (l : PythonHandler.logLine) :
  (forall st, PythonHandler.onMessage parse hasCallback frame st
              = PythonHandler.log l st) ->
  forall before after err,
    Spec.sameButLog
      (PythonHandler.executeCode parse hasCallback
         (before ++ frame :: after) err)
      (PythonHandler.executeCode parse hasCallback (before ++ after) err).
Proof.
  intros Hframe before after err. unfold PythonHandler.executeCode.
  apply onEnd_sameButLog. rewrite !fold_left_app. simpl.
  apply messages_sameButLog. rewrite Hframe. apply sameButLog_log.
Qed.

End ShellFacts.

(** C6, as the code has it.  A per-event frame or a final-aggregate frame
    whose payload fails to parse is logged and dropped: the state is
    otherwise unchanged and the run ends exactly as it would without that
    frame.  A terminal-error frame whose payload fails to parse is logged and
    the promise is rejected with the parse error (unless it was settled
    before). *)
Theorem undecodable_frames (parse : string -> option Json.t)
  (hasCallback : bool) (payload : string) :
  parse payload = None ->
  (forall st,
     PythonHandler.onMessage parse hasCallback
       (PythonHandler.METRICS_EVENT ++ payload) st
     = PythonHandler.log PythonHandler.errorParsingMetricsEvent st)
  /\ (forall st,
        PythonHandler.onMessage parse hasCallback
          (PythonHandler.METRICS_COMPLETE ++ payload) st
        = PythonHandler.log PythonHandler.errorParsingFinalMetrics st)
  /\ (forall before after err,
        Spec.sameButLog
          (PythonHandler.executeCode parse hasCallback
             (before ++ (PythonHandler.METRICS_EVENT ++ payload)%string
                     :: after) err)
          (PythonHandler.executeCode parse hasCallback (before ++ after) err)
        /\ Spec.sameButLog
             (PythonHandler.executeCode parse hasCallback
                (before ++ (PythonHandler.METRICS_COMPLETE ++ payload)%string
                        :: after) err)
             (PythonHandler.executeCode parse hasCallback (before ++ after)
                err))
  /\ (forall st,
        PythonHandler.onMessage parse hasCallback
          (PythonHandler.METRICS_ERROR ++ payload) st
        = PythonHandler.settle
            (PythonHandler.rejected PythonHandler.caughtException)
            (PythonHandler.log PythonHandler.errorParsingErrorData st))
  /\ (forall st,
        PythonHandler.settled st = None ->
        PythonHandler.settled
          (PythonHandler.onMessage parse hasCallback
             (PythonHandler.METRICS_ERROR ++ payload) st)
        = Some (PythonHandler.rejected PythonHandler.caughtException)).
Proof.
  intros Hparse.
  assert (Hevent : forall st,
            PythonHandler.onMessage parse hasCallback
              (PythonHandler.METRICS_EVENT ++ payload) st
            = PythonHandler.log PythonHandler.errorParsingMetricsEvent st).
  { intros st. unfold PythonHandler.onMessage, PythonHandler.onMetricsEvent.
    rewrite prefix_append, payload_append, Hparse. reflexivity. }
  assert (Hcomplete : forall st,
            PythonHandler.onMessage parse hasCallback
              (PythonHandler.METRICS_COMPLETE ++ payload) st
            = PythonHandler.log PythonHandler.errorParsingFinalMetrics st).
  { intros st. unfold PythonHandler.onMessage.
    change (String.prefix PythonHandler.METRICS_EVENT
              (PythonHandler.METRICS_COMPLETE ++ payload)) with false.
    cbv iota. unfold PythonHandler.onMetricsComplete.
    rewrite prefix_append, payload_append, Hparse. reflexivity. }
  assert (Herror : forall st,
            PythonHandler.onMessage parse hasCallback
              (PythonHandler.METRICS_ERROR ++ payload) st
            = PythonHandler.settle
                (PythonHandler.rejected PythonHandler.caughtException)
                (PythonHandler.log PythonHandler.errorParsingErrorData st)).
  { intros st. unfold PythonHandler.onMessage.
    change (String.prefix PythonHandler.METRICS_EVENT
              (PythonHandler.METRICS_ERROR ++ payload)) with false.
    change (String.prefix PythonHandler.METRICS_COMPLETE
              (PythonHandler.METRICS_ERROR ++ payload)) with false.
    cbv iota. unfold PythonHandler.onMetricsError.
    rewrite prefix_append, payload_append, Hparse. reflexivity. }
  split; [exact Hevent|]. split; [exact Hcomplete|]. split.
  { intros before after err. split.
    - apply (dropped_frame parse hasCallback _ _ Hevent).
    - apply (dropped_frame parse hasCallback _ _ Hcomplete). }
  split; [exact Herror|].
  intros st Hst. rewrite Herror. unfold PythonHandler.settle.
  cbn. rewrite Hst. reflexivity.
Qed.

Lemma undecodable_frames_witness :
  PythonHandler.onMessage Samples.tinyParse true
    "__METRICS_EVENT__{oops" PythonHandler.started
  = PythonHandler.log PythonHandler.errorParsingMetricsEvent
      PythonHandler.started.
Proof.
  assert (Hparse : Samples.tinyParse "{oops" = None) by reflexivity.
  exact (proj1 (undecodable_frames Samples.tinyParse true "{oops" Hparse)
           PythonHandler.started).
Defined.

(** C6, the claim as stated fails for the terminal error frame: the shell
    reports one error frame whose payload does not parse and then exits
    normally; the run is rejected, whereas without that frame it resolves. *)
Lemma undecodable_error_frame_rejects :
  PythonHandler.settled
    (PythonHandler.executeCode Samples.tinyParse true
       ["__METRICS_ERROR__{oops"] None)
  = Some (PythonHandler.rejected PythonHandler.caughtException)
  /\ PythonHandler.settled
       (PythonHandler.executeCode Samples.tinyParse true [] None)
     = Some (PythonHandler.resolved PythonHandler.emptyMetricsData).
Proof. split; reflexivity. Qed.

(** ** Execution identifiers *)

Import CodeExecutionService.

Lemma updateNth_other (f : Sandbox.t -> Sandbox.t) (l : list Sandbox.t) :
  forall n k, k <> n -> nth_error (updateNth n f l) k = nth_error l k.
Proof.
  induction l as [|s l IH]; intros n k H; [destruct n; reflexivity|].
  destruct n as [|n], k as [|k]; simpl; try reflexivity.
  - contradiction.
  - apply IH. intros E. apply H. f_equal. exact E.
Qed.

Lemma sandboxes_emit (connected : bool) (e : emitted) (w : world) :
  sandboxes (emit connected e w) = sandboxes w.
Proof. unfold emit. destruct connected; reflexivity. Qed.




(** * Further properties of the same code *)

(** ** The summary: peak memory *)

Lemma peak_fold (l : list MemoryPoint.t) :
  forall acc : Z,
    let peak :=
      fold_left
        (fun max point =>
           if (MemoryPoint.value point >? max)%Z then MemoryPoint.value point
           else max) l acc in
    (acc <= peak)%Z
    /\ (forall point, In point l -> (MemoryPoint.value point <= peak)%Z)
    /\ (peak = acc
        \/ exists point, In point l /\ MemoryPoint.value point = peak).
Proof.
  induction l as [|p l IH]; intros acc; simpl.
  - split; [lia|]. split; [intros point []|]. left. reflexivity.
  - destruct (Z.gtb_spec (MemoryPoint.value p) acc) as [Hgt|Hle].
    + destruct (IH (MemoryPoint.value p)) as (H1 & H2 & H3).
      cbv zeta in *. split; [lia|]. split.
      * intros point [<-|Hin]; [exact H1 | apply H2, Hin].
      * right. destruct H3 as [H3|(q & Hq & Eq)].
        -- exists p. split; [left; reflexivity | symmetry; exact H3].
        -- exists q. split; [right; exact Hq | exact Eq].
    + destruct (IH acc) as (H1 & H2 & H3). cbv zeta in *.
      split; [exact H1|]. split.
      * intros point [<-|Hin]; [lia | apply H2, Hin].
      * destruct H3 as [H3|(q & Hq & Eq)]; [left; exact H3|].
        right. exists q. split; [right; exact Hq | exact Eq].
Qed.

(** X1.  The peak memory of the summary is the greatest sampled value, or 0
    when there is no sample or when no sample is positive: it is not
    negative, no sample exceeds it, and unless it is 0 it is the value of
    some sample. *)
Theorem peakMemory_is_greatest_sample (metrics : RawMetrics.t) :
  let peak := Summary.peakMemory (calculateSummaryMetrics metrics) in
  (0 <= peak)%Z
  /\ (forall point, In point (RawMetrics.memoryUsage metrics) ->
        (MemoryPoint.value point <= peak)%Z)
  /\ (peak = 0%Z
      \/ exists point,
           In point (RawMetrics.memoryUsage metrics)
           /\ MemoryPoint.value point = peak).
Proof.
  cbn. unfold peakMemoryOf.
  exact (peak_fold (RawMetrics.memoryUsage metrics) 0%Z).
Qed.

(** ** Comparisons: a run against itself, and runs that dominate *)

Lemma percentChange_same (a : Q) :
  exists p, calculatePercentChange a a = Some p /\ p == 0.
Proof.
  unfold calculatePercentChange, js_div.
  destruct (Qeq_bool a 0) eqn:E.
  - exists 0. split; reflexivity.
  - apply Qeq_bool_false in E. simpl.
    exists ((a - a) / a * 100). split; [reflexivity|]. field. exact E.
Qed.

Lemma weigh_zero (weight : Z) (p : Q) : p == 0 -> weigh 0 weight p = 0%Z.
Proof.
  intros H. apply weigh_level; apply Qltb_false; rewrite H; apply Qle_refl.
Qed.

(** X2.  Comparing an aggregated run with itself always succeeds and gives
    three differences of 0, three percent changes of 0, a score of 0 and the
    verdict "tie". *)
Theorem compareMetrics_with_itself (m : Processed.t) :
  exists c,
    compareMetrics m m = Some c
    /\ Spec.allDiffsZero c
    /\ Delta.percentChange (Deltas.executionTime (Comparison.deltas c)) == 0
    /\ Delta.percentChange (Deltas.memoryUsage (Comparison.deltas c)) == 0
    /\ Delta.percentChange (Deltas.functionCalls (Comparison.deltas c)) == 0
    /\ scoreOf (Comparison.deltas c) = 0%Z
    /\ Comparison.overallImprovement c = tie.
Proof.
  unfold compareMetrics, deltaOf.
  destruct (percentChange_same
              (Summary.executionTime (Processed.summary m)))
    as (pt & Ht & Zt).
  destruct (percentChange_same
              (inject_Z (Summary.peakMemory (Processed.summary m))))
    as (pm & Hm & Zm).
  destruct (percentChange_same
              (inject_Z (Z.of_nat (Summary.totalFunctionCalls
                                     (Processed.summary m)))))
    as (pc & Hc & Zc).
  rewrite Ht, Hm, Hc. cbn [option_map]. eexists. split; [reflexivity|].
  assert (Hscore : forall d1 d2 d3,
            scoreOf (Deltas.mk (Delta.mk d1 pt) (Delta.mk d2 pm)
                       (Delta.mk d3 pc)) = 0%Z).
  { intros d1 d2 d3. rewrite scoreOf_sum. cbn.
    rewrite (weigh_zero _ _ Zt), (weigh_zero _ _ Zm), (weigh_zero _ _ Zc).
    reflexivity. }
  unfold Spec.allDiffsZero, Spec.timeDiff, Spec.memoryDiff, Spec.callsDiff.
  cbn [Comparison.deltas Comparison.overallImprovement Deltas.executionTime
       Deltas.memoryUsage Deltas.functionCalls Delta.diff
       Delta.percentChange].
  split; [repeat split; ring|].
  split; [exact Zt|]. split; [exact Zm|]. split; [exact Zc|].
  split; [apply Hscore|].
  apply (verdict_of_score _). apply Hscore.
Qed.

Lemma weigh_range (weight : Z) (p : Q) :
  weigh 0 weight p = weight \/ weigh 0 weight p = (- weight)%Z
  \/ weigh 0 weight p = 0%Z.
Proof.
  unfold weigh. destruct (Qltb p 0), (Qltb 0 p); simpl; auto.
Qed.

(** The contribution of one measurement: the weight when the second run is
    lower, its opposite when it is higher, 0 when both are equal. *)
Lemma contribution (weight : Z) (a b : Q) :
  0 <= a -> 0 <= b ->
  exists d,
    deltaOf a b = Some d
    /\ (b < a -> weigh 0 weight (Delta.percentChange d) = weight)
    /\ (a < b -> weigh 0 weight (Delta.percentChange d) = (- weight)%Z)
    /\ (a == b -> weigh 0 weight (Delta.percentChange d) = 0%Z).
Proof.
  intros Ha Hb.
  destruct (percentChange_sign a b Ha Hb) as (p & Hp & H1 & H2).
  exists (Delta.mk (b - a) p). unfold deltaOf. rewrite Hp.
  split; [reflexivity|]. cbn [Delta.percentChange]. unfold weigh.
  rewrite H1, H2. repeat split; intros H.
  - apply Qltb_lt in H. rewrite H. lia.
  - assert (Hf : Qltb b a = false) by (apply Qltb_false; lra).
    apply Qltb_lt in H. rewrite Hf, H. lia.
  - assert (Hf : Qltb b a = false) by (apply Qltb_false; lra).
    assert (Hg : Qltb a b = false) by (apply Qltb_false; lra).
    rewrite Hf, Hg. reflexivity.
Qed.

(** X3.  The execution time outweighs the two other measurements together:
    when the second of two aggregated runs is faster the verdict is never
    "code2", and when it is slower the verdict is never "code1"; the score
    always lies between -6 and 6. *)
Theorem execution_time_decides (m1 m2 : Processed.t) :
  Spec.nonNegative m1 -> Spec.nonNegative m2 ->
  exists c,
    compareMetrics m1 m2 = Some c
    /\ (-6 <= scoreOf (Comparison.deltas c) <= 6)%Z
    /\ (Summary.executionTime (Processed.summary m2)
        < Summary.executionTime (Processed.summary m1) ->
        Comparison.overallImprovement c <> code2)
    /\ (Summary.executionTime (Processed.summary m1)
        < Summary.executionTime (Processed.summary m2) ->
        Comparison.overallImprovement c <> code1).
Proof.
  intros [Ht1 Hm1] [Ht2 Hm2].
  destruct (contribution 3 _ _ Ht1 Ht2) as (dt & Hdt & Tlt & Tgt & _).
  destruct (deltaOf_pair _ _ (inject_Z_nonneg _ Hm1) (inject_Z_nonneg _ Hm2))
    as (dm & _ & Hdm & _).
  destruct (deltaOf_pair
              (inject_Z (Z.of_nat (Summary.totalFunctionCalls
                                     (Processed.summary m1))))
              (inject_Z (Z.of_nat (Summary.totalFunctionCalls
                                     (Processed.summary m2))))
              (inject_Z_nonneg _ (Nat2Z.is_nonneg _))
              (inject_Z_nonneg _ (Nat2Z.is_nonneg _)))
    as (dc & _ & Hdc & _).
  unfold compareMetrics. rewrite Hdt, Hdm, Hdc.
  eexists. split; [reflexivity|].
  cbn [Comparison.deltas Comparison.overallImprovement].
  pose proof (verdict_of_score (Deltas.mk dt dm dc)) as (V1 & V2 & _).
  pose proof (scoreOf_sum (Deltas.mk dt dm dc)) as Hs.
  cbn [Deltas.executionTime Deltas.memoryUsage Deltas.functionCalls] in Hs.
  pose proof (weigh_range 3 (Delta.percentChange dt)) as Rt.
  pose proof (weigh_range 2 (Delta.percentChange dm)) as Rm.
  pose proof (weigh_range 1 (Delta.percentChange dc)) as Rc.
  split; [lia|]. split.
  - intros Hlt Hv. apply V2 in Hv. specialize (Tlt Hlt). lia.
  - intros Hgt Hv. apply V1 in Hv. specialize (Tgt Hgt). lia.
Qed.

Lemma execution_time_decides_witness :
  exists c,
    compareMetrics (processMetrics Samples.runA) (processMetrics Samples.runB)
    = Some c
    /\ Comparison.overallImprovement c <> code2.
Proof.
  assert (HA : Spec.nonNegative (processMetrics Samples.runA)).
  { split; vm_compute; discriminate. }
  assert (HB : Spec.nonNegative (processMetrics Samples.runB)).
  { split; vm_compute; discriminate. }
  destruct (execution_time_decides _ _ HA HB) as (c & Hc & _ & Hfast & _).
  exists c. split; [exact Hc|]. apply Hfast. vm_compute. reflexivity.
Defined.

(** X4.  A second run that is no worse than the first on execution time,
    peak memory and call count, and better on at least one of them, gets a
    positive score and the verdict "code1"; a second run that is no better
    on the three and worse on at least one gets the verdict "code2". *)
Theorem dominating_run_wins (m1 m2 : Processed.t) :
  Spec.nonNegative m1 -> Spec.nonNegative m2 ->
  let t1 := Summary.executionTime (Processed.summary m1) in
  let t2 := Summary.executionTime (Processed.summary m2) in
  let p1 := Summary.peakMemory (Processed.summary m1) in
  let p2 := Summary.peakMemory (Processed.summary m2) in
  let n1 := Summary.totalFunctionCalls (Processed.summary m1) in
  let n2 := Summary.totalFunctionCalls (Processed.summary m2) in
  exists c,
    compareMetrics m1 m2 = Some c
    /\ (t2 <= t1 -> (p2 <= p1)%Z -> (n2 <= n1)%nat ->
        (t2 < t1 \/ (p2 < p1)%Z \/ (n2 < n1)%nat) ->
        Comparison.overallImprovement c = code1)
    /\ (t1 <= t2 -> (p1 <= p2)%Z -> (n1 <= n2)%nat ->
        (t1 < t2 \/ (p1 < p2)%Z \/ (n1 < n2)%nat) ->
        Comparison.overallImprovement c = code2).
Proof.
  intros [Ht1 Hm1] [Ht2 Hm2] t1 t2 p1 p2 n1 n2.
  destruct (contribution 3 _ _ Ht1 Ht2) as (dt & Hdt & Tlt & Tgt & Teq).
  destruct (contribution 2 _ _ (inject_Z_nonneg _ Hm1)
              (inject_Z_nonneg _ Hm2)) as (dm & Hdm & Mlt & Mgt & Meq).
  destruct (contribution 1
              (inject_Z (Z.of_nat (Summary.totalFunctionCalls
                                     (Processed.summary m1))))
              (inject_Z (Z.of_nat (Summary.totalFunctionCalls
                                     (Processed.summary m2))))
              (inject_Z_nonneg _ (Nat2Z.is_nonneg _))
              (inject_Z_nonneg _ (Nat2Z.is_nonneg _)))
    as (dc & Hdc & Clt & Cgt & Ceq).
  fold t1 t2 in Tlt, Tgt, Teq. fold p1 p2 in Mlt, Mgt, Meq.
  fold n1 n2 in Clt, Cgt, Ceq.
  unfold compareMetrics. rewrite Hdt, Hdm, Hdc.
  eexists. split; [reflexivity|].
  cbn [Comparison.deltas Comparison.overallImprovement].
  pose proof (verdict_of_score (Deltas.mk dt dm dc)) as (V1 & V2 & _).
  pose proof (scoreOf_sum (Deltas.mk dt dm dc)) as Hs.
  cbn [Deltas.executionTime Deltas.memoryUsage Deltas.functionCalls] in Hs.
  assert (Ztri : forall a b : Z,
            (inject_Z b < inject_Z a <-> (b < a)%Z)
            /\ (inject_Z a == inject_Z b <-> a = b)).
  { intros a b. split; [rewrite <- Zlt_Qlt; reflexivity|].
    split; [apply inject_Z_injective | intros ->; reflexivity]. }
  split.
  - intros Ht Hp Hn Hstrict. apply V1.
    assert (Wt : (0 <= weigh 0 3 (Delta.percentChange dt))%Z
                 /\ (t2 < t1 -> weigh 0 3 (Delta.percentChange dt) = 3%Z)).
    { split; [|exact Tlt]. destruct (Qlt_le_dec t2 t1) as [H|H].
      - rewrite (Tlt H). lia.
      - rewrite Teq; [lia|]. apply Qle_antisym; assumption. }
    assert (Wm : (0 <= weigh 0 2 (Delta.percentChange dm))%Z
                 /\ ((p2 < p1)%Z ->
                     weigh 0 2 (Delta.percentChange dm) = 2%Z)).
    { split; [|intros H; apply Mlt, Ztri, H].
      destruct (Z_lt_le_dec p2 p1) as [H|H].
      - rewrite Mlt; [lia | apply Ztri, H].
      - rewrite Meq; [lia|]. apply Ztri. lia. }
    assert (Wc : (0 <= weigh 0 1 (Delta.percentChange dc))%Z
                 /\ ((n2 < n1)%nat ->
                     weigh 0 1 (Delta.percentChange dc) = 1%Z)).
    { split; [|intros H; apply Clt, Ztri; lia].
      destruct (Nat.lt_ge_cases n2 n1) as [H|H].
      - rewrite Clt; [lia | apply Ztri; lia].
      - rewrite Ceq; [lia|]. apply Ztri. lia. }
    destruct Wt as [Wt0 Wt], Wm as [Wm0 Wm], Wc as [Wc0 Wc].
    destruct Hstrict as [H|[H|H]];
      [specialize (Wt H) | specialize (Wm H) | specialize (Wc H)]; lia.
  - intros Ht Hp Hn Hstrict. apply V2.
    assert (Wt : (weigh 0 3 (Delta.percentChange dt) <= 0)%Z
                 /\ (t1 < t2 -> weigh 0 3 (Delta.percentChange dt) = (-3)%Z)).
    { split; [|exact Tgt]. destruct (Qlt_le_dec t1 t2) as [H|H].
      - rewrite (Tgt H). lia.
      - rewrite Teq; [lia|]. apply Qle_antisym; assumption. }
    assert (Wm : (weigh 0 2 (Delta.percentChange dm) <= 0)%Z
                 /\ ((p1 < p2)%Z ->
                     weigh 0 2 (Delta.percentChange dm) = (-2)%Z)).
    { split; [|intros H; apply Mgt, Ztri, H].
      destruct (Z_lt_le_dec p1 p2) as [H|H].
      - rewrite Mgt; [lia | apply Ztri, H].
      - rewrite Meq; [lia|]. apply Ztri. lia. }
    assert (Wc : (weigh 0 1 (Delta.percentChange dc) <= 0)%Z
                 /\ ((n1 < n2)%nat ->
                     weigh 0 1 (Delta.percentChange dc) = (-1)%Z)).
    { split; [|intros H; apply Cgt, Ztri; lia].
      destruct (Nat.lt_ge_cases n1 n2) as [H|H].
      - rewrite Cgt; [lia | apply Ztri; lia].
      - rewrite Ceq; [lia|]. apply Ztri. lia. }
    destruct Wt as [Wt0 Wt], Wm as [Wm0 Wm], Wc as [Wc0 Wc].
    destruct Hstrict as [H|[H|H]];
      [specialize (Wt H) | specialize (Wm H) | specialize (Wc H)]; lia.
Qed.

Lemma dominating_run_wins_witness :
  exists c,
    compareMetrics (processMetrics Samples.runB)
      (processMetrics
         (RawMetrics.mk 2 [Samples.sample 5] [Samples.call "f" None 1] [] []))
    = Some c
    /\ Comparison.overallImprovement c = code1.
Proof.
  assert (HB : Spec.nonNegative (processMetrics Samples.runB)).
  { split; vm_compute; discriminate. }
  assert (HC : Spec.nonNegative
                 (processMetrics
                    (RawMetrics.mk 2 [Samples.sample 5]
                       [Samples.call "f" None 1] [] []))).
  { split; vm_compute; discriminate. }
  destruct (dominating_run_wins _ _ HB HC) as (c & Hc & Hwin & _).
  exists c. split; [exact Hc|]. apply Hwin.
  - vm_compute. discriminate.
  - vm_compute. discriminate.
  - vm_compute. lia.
  - left. vm_compute. reflexivity.
Defined.

(** ** Nothing is lost by the grouping *)

Section Grouping.

Context {A K : Type}.
Variable key : A -> K.
Variable eqb : K -> K -> bool.
Hypothesis eqb_eq : forall a b, eqb a b = true <-> a = b.

Lemma indicator_sum (x : K) (ids : list K) :
  NoDup ids -> In x ids ->
  list_sum (map (fun id => if eqb x id then 1 else 0)%nat ids) = 1%nat.
Proof.
  induction 1 as [|id ids Hid Hnd IH]; intros Hin; [destruct Hin|].
  simpl. destruct (eqb x id) eqn:E.
  - apply eqb_eq in E. subst id.
    assert (Hz : list_sum (map (fun id => if eqb x id then 1 else 0)%nat ids)
                 = 0%nat).
    { clear IH Hnd Hin. induction ids as [|y ids IHy]; [reflexivity|].
      simpl. destruct (eqb x y) eqn:Ey.
      - apply eqb_eq in Ey. subst y. exfalso. apply Hid. left. reflexivity.
      - apply IHy. intros H. apply Hid. right. exact H. }
    rewrite Hz. reflexivity.
  - destruct Hin as [Hin|Hin].
    + subst id. assert (eqb x x = true) by (apply eqb_eq; reflexivity).
      congruence.
    + rewrite (IH Hin). reflexivity.
Qed.

Lemma list_sum_pointwise (f g : K -> nat) (ids : list K) :
  list_sum (map (fun id => f id + g id)%nat ids)
  = (list_sum (map f ids) + list_sum (map g ids))%nat.
Proof.
  induction ids as [|id ids IH]; simpl; [reflexivity|]. rewrite IH. lia.
Qed.

(** Groups indexed by distinct keys that cover a list count every element
    once. *)
Lemma groups_count (ids : list K) (l : list A) :
  NoDup ids -> (forall a, In a l -> In (key a) ids) ->
  list_sum (map (fun id =>
                   List.length (filter (fun a => eqb (key a) id) l)) ids)
  = List.length l.
Proof.
  intros Hnd. induction l as [|a l IH]; intros Hcover.
  - simpl. clear Hnd Hcover. induction ids as [|id ids IHi]; [reflexivity|].
    simpl. exact IHi.
  - transitivity
      (list_sum
         (map (fun id =>
                 ((if eqb (key a) id then 1 else 0)
                  + List.length (filter (fun b => eqb (key b) id) l))%nat)
            ids)).
    { f_equal. apply map_ext. intros id. simpl.
      destruct (eqb (key a) id); reflexivity. }
    rewrite list_sum_pointwise.
    rewrite (indicator_sum (key a) ids Hnd (Hcover a (or_introl eq_refl))).
    rewrite IH by (intros b Hb; apply Hcover; right; exact Hb).
    reflexivity.
Qed.

Variable weight : A -> Z.

#[local] Abbreviation weightOf := (More.weightOf weight).
#[local] Abbreviation sumZ := More.sumZ.

Lemma sumZ_pointwise (f g : K -> Z) (ids : list K) :
  sumZ (map (fun id => f id + g id)%Z ids)
  = (sumZ (map f ids) + sumZ (map g ids))%Z.
Proof.
  induction ids as [|id ids IH]; simpl; [reflexivity|]. rewrite IH. lia.
Qed.

Lemma indicator_sumZ (x : K) (w : Z) (ids : list K) :
  NoDup ids -> In x ids ->
  sumZ (map (fun id => if eqb x id then w else 0%Z) ids) = w.
Proof.
  induction 1 as [|id ids Hid Hnd IH]; intros Hin; [destruct Hin|].
  simpl. destruct (eqb x id) eqn:E.
  - apply eqb_eq in E. subst id.
    assert (Hz : sumZ (map (fun id => if eqb x id then w else 0%Z) ids)
                 = 0%Z).
    { clear IH Hnd Hin. induction ids as [|y ids IHy]; [reflexivity|].
      simpl. destruct (eqb x y) eqn:Ey.
      - apply eqb_eq in Ey. subst y. exfalso. apply Hid. left. reflexivity.
      - rewrite IHy; [reflexivity|]. intros H. apply Hid. right. exact H. }
    rewrite Hz. lia.
  - destruct Hin as [Hin|Hin].
    + subst id. assert (eqb x x = true) by (apply eqb_eq; reflexivity).
      congruence.
    + rewrite (IH Hin). reflexivity.
Qed.

Lemma groups_weight (ids : list K) (l : list A) :
  NoDup ids -> (forall a, In a l -> In (key a) ids) ->
  sumZ (map (fun id => weightOf (filter (fun a => eqb (key a) id) l)) ids)
  = weightOf l.
Proof.
  intros Hnd. induction l as [|a l IH]; intros Hcover.
  - simpl. clear Hnd Hcover. induction ids as [|id ids IHi]; [reflexivity|].
    simpl. exact IHi.
  - transitivity
      (sumZ
         (map (fun id =>
                 ((if eqb (key a) id then weight a else 0)
                  + weightOf (filter (fun b => eqb (key b) id) l))%Z)
            ids)).
    { f_equal. apply map_ext. intros id. simpl.
      destruct (eqb (key a) id); reflexivity. }
    rewrite sumZ_pointwise.
    rewrite (indicator_sumZ (key a) (weight a) ids Hnd
               (Hcover a (or_introl eq_refl))).
    rewrite IH by (intros b Hb; apply Hcover; right; exact Hb).
    reflexivity.
Qed.

End Grouping.

Lemma list_sum_perm (l l' : list nat) :
  Permutation l l' -> list_sum l = list_sum l'.
Proof. induction 1; simpl; lia. Qed.

Lemma sumZ_perm (l l' : list Z) :
  Permutation l l' -> More.sumZ l = More.sumZ l'.
Proof. unfold More.sumZ. induction 1; simpl; lia. Qed.

Lemma insert_index_perm {K V : Type} (i : N) (e : K * V)
  (l : list (N * (K * V))) :
  Permutation (JsObject.insert_index i e l) ((i, e) :: l).
Proof.
  induction l as [|[j e'] l IH]; simpl; [reflexivity|].
  destruct (i <=? j)%N; [reflexivity|].
  rewrite IH. apply perm_swap.
Qed.

(** [Object.entries] enumerates every own property once, whatever the keys
    look like. *)
Lemma entries_perm {K V : Type} (index : K -> option N)
  (o : @JsObject.t K V) :
  Permutation (JsObject.entries index o) o.
Proof.
  unfold JsObject.entries, JsObject.named_part.
  induction o as [|e o IH]; simpl; [constructor|].
  destruct (index (fst e)) as [i|].
  - rewrite (Permutation_map snd (insert_index_perm i e _)). simpl.
    constructor. exact IH.
  - rewrite <- Permutation_middle. constructor. exact IH.
Qed.

(** X5.  The call graph accounts for every call exactly once, for every
    trace: each edge is made from one entry of the call-count map, the counts
    of the edges add up to the number of calls, the durations accumulated in
    the map add up to the total duration of the calls, and every edge stands
    for at least one call and joins two nodes of the graph. *)
Theorem generateCallGraph_conserves_calls (calls : list FunctionCall.t) :
  let g := generateCallGraph calls in
  CallGraph.links g = map toLink (More.callCountsOf calls)
  /\ list_sum (map Link.count (CallGraph.links g)) = List.length calls
  /\ More.sumZ (map LinkCount.totalDuration (More.callCountsOf calls))
     = Spec.sumDurations calls
  /\ (forall l, In l (CallGraph.links g) ->
        (1 <= Link.count l)%nat
        /\ In (Link.source l) (CallGraph.nodes g)
        /\ In (Link.target l) (CallGraph.nodes g)).
Proof.
  intros g. subst g. unfold generateCallGraph, More.callCountsOf.
  rewrite fold_addCall.
  cbn [CallGraph.nodes CallGraph.links snd].
  destruct (callCountMap_tabulated calls) as (ids & Ho & Hnd & Hin).
  rewrite Ho, !map_map. cbn [snd].
  assert (Hcover : forall c, In c calls -> In (Spec.linkIdOfCall c) ids).
  { intros c Hc. apply Hin, in_map, Hc. }
  split; [|split; [|split]].
  - reflexivity.
  - cbn [toLink Link.count]. unfold Spec.countOf. cbn [LinkCount.count].
    exact (groups_count Spec.linkIdOfCall String.eqb String.eqb_eq ids calls
             Hnd Hcover).
  - change (Spec.sumDurations calls)
      with (More.weightOf FunctionCall.duration calls).
    rewrite <- (groups_weight Spec.linkIdOfCall String.eqb String.eqb_eq
                  FunctionCall.duration ids calls Hnd Hcover).
    reflexivity.
  - intros l Hl. apply in_map_iff in Hl. destruct Hl as (id & <- & Hid).
    destruct (callsWithId_present id calls (proj1 (Hin id) Hid))
      as (c0 & rest & E & H0 & _).
    destruct (new_Set_from (flat_map Spec.endpoints calls) []
                (NoDup_nil _)) as [_ Hel].
    unfold toLink, Spec.countOf. rewrite E.
    cbn [Link.count Link.source Link.target LinkCount.count
         LinkCount.source LinkCount.target List.length].
    split; [lia|].
    split; apply Hel; right; apply in_flat_map; exists c0;
      (split; [exact H0|]); simpl; auto.
Qed.

(** X6.  The per-line table accounts for every step exactly once, for every
    trace: there is one row per executed line, the execution counts add up to
    the number of steps, the total times add up to the sum of the durations
    (an absent duration counting for 0), and every row has as many
    timestamps as executions, at least one. *)
Theorem processExecutionFlow_conserves_steps (flow : list LineExecution.t) :
  let rows := processExecutionFlow flow in
  NoDup (map LineRow.line rows)
  /\ (forall l, In l (map LineRow.line rows) <->
        In l (map LineExecution.line flow))
  /\ list_sum (map LineRow.executionCount rows) = List.length flow
  /\ More.sumZ (map LineRow.totalTime rows) = Spec.totalOf flow
  /\ (forall row, In row rows ->
        (1 <= LineRow.executionCount row)%nat
        /\ List.length (LineRow.timestamps row)
           = LineRow.executionCount row).
Proof.
  intros rows. subst rows. unfold processExecutionFlow, JsObject.values.
  destruct (lineExecutions_tabulated flow) as (keys & Ho & Hnd & Hin).
  rewrite Ho.
  pose proof (entries_perm JsObject.number_index
                (map (fun l => (l, Spec.statsOf l flow)) keys)) as Hperm.
  set (es := JsObject.entries JsObject.number_index
               (map (fun l => (l, Spec.statsOf l flow)) keys)) in *.
  assert (Hrows : Permutation (map toRow (map snd es))
                    (map (fun l => Spec.rowOf l flow) keys)).
  { rewrite (Permutation_map snd Hperm), !map_map. cbn [snd].
    apply Permutation_refl. }
  assert (Hcover : forall s, In s flow -> In (LineExecution.line s) keys).
  { intros s Hs. apply Hin, in_map, Hs. }
  split; [|split; [|split; [|split]]].
  - apply (Permutation_NoDup
             (Permutation_sym (Permutation_map LineRow.line Hrows))).
    rewrite map_map. cbn [Spec.rowOf LineRow.line]. rewrite map_id.
    exact Hnd.
  - intros l. rewrite <- Hin. split; intros H.
    + apply (Permutation_in _ (Permutation_map LineRow.line Hrows)) in H.
      rewrite map_map in H. cbn [Spec.rowOf LineRow.line] in H.
      rewrite map_id in H. exact H.
    + apply (Permutation_in _
               (Permutation_sym (Permutation_map LineRow.line Hrows))).
      rewrite map_map. cbn [Spec.rowOf LineRow.line]. rewrite map_id.
      exact H.
  - rewrite (list_sum_perm _ _
               (Permutation_map LineRow.executionCount Hrows)), map_map.
    cbn [Spec.rowOf LineRow.executionCount].
    exact (groups_count LineExecution.line N.eqb N.eqb_eq keys flow Hnd
             Hcover).
  - rewrite (sumZ_perm _ _ (Permutation_map LineRow.totalTime Hrows)),
      map_map.
    cbn [Spec.rowOf LineRow.totalTime].
    exact (groups_weight LineExecution.line N.eqb N.eqb_eq
             (fun s => durationOrZero (LineExecution.duration s)) keys flow
             Hnd Hcover).
  - intros row Hrow. apply (Permutation_in _ Hrows) in Hrow.
    apply in_map_iff in Hrow. destruct Hrow as (l & <- & Hl).
    cbn [Spec.rowOf LineRow.executionCount LineRow.timestamps].
    rewrite length_map. split; [|reflexivity].
    destruct (stepsOf_present l flow (proj1 (Hin l) Hl)) as (s & rest & E).
    rewrite E. simpl. lia.
Qed.

(** ** Variable states grouped by name *)

Lemma addStates_snoc (v : VariableTracing.variablesT)
  (states : list VariableState.t) (s : VariableState.t) :
  VariableTracing.addStates v (states ++ [s])
  = match VariableTracing.addStates v states with
    | Some v' => VariableTracing.addState v' s
    | None => None
    end.
Proof.
  revert v. induction states as [|x states IH]; intros v; simpl.
  - destruct (VariableTracing.addState v s); reflexivity.
  - destruct (VariableTracing.addState v x); [apply IH | reflexivity].
Qed.

Lemma statesOf_app (n : string) (l l' : list VariableState.t) :
  More.statesOf n (l ++ l') = (More.statesOf n l ++ More.statesOf n l')%list.
Proof. apply filter_app. Qed.

Lemma statesOf_absent (n : string) (l : list VariableState.t) :
  ~ In n (map VariableState.name l) -> More.statesOf n l = [].
Proof.
  induction l as [|s l IH]; intros H; simpl; [reflexivity|].
  destruct (String.eqb_spec (VariableState.name s) n) as [E|E].
  - exfalso. apply H. left. exact E.
  - apply IH. intros Hin. apply H. right. exact Hin.
Qed.

Lemma statesOf_present (n : string) (l : list VariableState.t) :
  In n (map VariableState.name l) ->
  exists s rest, More.statesOf n l = s :: rest.
Proof.
  induction l as [|s l IH]; intros H; simpl; [destruct H|].
  destruct (String.eqb_spec (VariableState.name s) n) as [E|E].
  - eauto.
  - destruct H as [H|H]; [contradiction | apply IH, H].
Qed.

Lemma groupOf_other (n : string) (states : list VariableState.t)
  (s : VariableState.t) :
  VariableState.name s <> n ->
  More.groupOf (states ++ [s]) n = More.groupOf states n.
Proof.
  intros H. unfold More.groupOf. rewrite statesOf_app. simpl.
  destruct (String.eqb_spec (VariableState.name s) n) as [E|E];
    [contradiction|].
  rewrite app_nil_r. reflexivity.
Qed.

Lemma addState_known (states : list VariableState.t) (keys : list string)
  (s : VariableState.t) :
  NoDup keys -> In (VariableState.name s) keys ->
  (forall k, In k keys -> In k (map VariableState.name states)) ->
  VariableTracing.addState (map (fun n => (n, More.groupOf states n)) keys) s
  = Some (map (fun n => (n, More.groupOf (states ++ [s]) n)) keys).
Proof.
  intros Hnd Hin Hkeys.
  unfold VariableTracing.addState, VariableTracing.read. cbv zeta.
  rewrite (obj_get_in String.eqb String.eqb_eq (More.groupOf states) keys _
             Hin).
  rewrite (obj_get_in String.eqb String.eqb_eq (More.groupOf states) keys _
             Hin).
  rewrite (obj_set_in String.eqb String.eqb_eq (More.groupOf states) keys _ _
             Hnd Hin).
  f_equal. apply map_ext. intros n.
  destruct (String.eqb_spec n (VariableState.name s)) as [->|E].
  - f_equal. unfold More.groupOf. rewrite statesOf_app. simpl.
    rewrite String.eqb_refl.
    destruct (statesOf_present _ _ (Hkeys _ Hin)) as (x & rest & Ex).
    rewrite Ex. cbn [VariableTracing.Group.name VariableTracing.Group.type
                       VariableTracing.Group.changes].
    rewrite <- Ex, map_app. simpl. rewrite Ex. reflexivity.
  - rewrite groupOf_other; [reflexivity|]. intros E'. apply E.
    symmetry. exact E'.
Qed.

Lemma addState_new (states : list VariableState.t) (keys : list string)
  (s : VariableState.t) :
  ~ In (VariableState.name s) keys ->
  (forall n, In n (map VariableState.name states) -> In n keys) ->
  VariableTracing.inherited (VariableState.name s) = false ->
  VariableTracing.addState (map (fun n => (n, More.groupOf states n)) keys) s
  = Some (map (fun n => (n, More.groupOf (states ++ [s]) n))
            (keys ++ [VariableState.name s])).
Proof.
  intros Hout Hnames Hplain.
  assert (Hget : JsObject.get String.eqb
                   (map (fun n => (n, More.groupOf states n)) keys)
                   (VariableState.name s) = None).
  { apply (obj_get_out String.eqb String.eqb_eq (More.groupOf states)).
    exact Hout. }
  unfold VariableTracing.addState, VariableTracing.read. cbv zeta.
  rewrite Hget, Hplain.
  rewrite (obj_set_out String.eqb String.eqb_eq (More.groupOf states) keys
             _ _ Hout).
  rewrite (obj_get_last String.eqb String.eqb_eq _ _ _ Hget).
  rewrite (obj_set_last String.eqb String.eqb_eq _ _ _ _ Hget).
  f_equal. rewrite map_app. simpl. f_equal.
  - apply map_ext_in. intros n Hn. rewrite groupOf_other; [reflexivity|].
    intros E. subst. contradiction.
  - unfold More.groupOf. rewrite statesOf_app, statesOf_absent.
    + simpl. rewrite String.eqb_refl. reflexivity.
    + intros Hin. apply Hout, Hnames, Hin.
Qed.

Lemma ordinary_not_inherited (n : string) :
  Spec.ordinaryName n -> VariableTracing.inherited n = false.
Proof.
  intros (_ & H1 & H2). unfold VariableTracing.inherited.
  rewrite H1, H2. reflexivity.
Qed.

Lemma variables_tabulated (states : list VariableState.t) :
  (forall n, In n (map VariableState.name states) -> Spec.ordinaryName n) ->
  exists keys,
    VariableTracing.addStates JsObject.empty states
    = Some (map (fun n => (n, More.groupOf states n)) keys)
    /\ NoDup keys
    /\ (forall n, In n keys <-> In n (map VariableState.name states))
    /\ ForallOrdPairs
         (fun f g =>
            Spec.firstSeenBefore f g (map VariableState.name states))
         keys.
Proof.
  induction states as [|s states IH] using rev_ind; intros Hord.
  - exists []. repeat split; try constructor; intros H; destruct H.
  - destruct IH as (keys & Ho & Hnd & Hin & Hfop).
    { intros n Hn. apply Hord. rewrite map_app. apply in_or_app. left.
      exact Hn. }
    assert (Hs : Spec.ordinaryName (VariableState.name s)).
    { apply Hord. rewrite map_app. apply in_or_app. right. left.
      reflexivity. }
    rewrite addStates_snoc, Ho, map_app. simpl.
    destruct (in_dec string_dec (VariableState.name s) keys) as [Hk|Hk].
    + exists keys. split.
      { apply addState_known; try assumption. intros k. apply Hin. }
      split; [exact Hnd|]. split.
      * intros n. rewrite in_app_iff, <- Hin. simpl.
        intuition (subst; auto).
      * eapply ForallOrdPairs_weaken; [|exact Hfop].
        intros a b. apply firstSeenBefore_later.
    + exists (keys ++ [VariableState.name s])%list. split.
      { apply addState_new; try assumption; [intros n; apply Hin|].
        apply ordinary_not_inherited, Hs. }
      split.
      { apply NoDup_app; [exact Hnd | repeat constructor; intros [] |].
        intros y Hy [Hx|[]]. subst. contradiction. }
      split.
      * intros n. rewrite !in_app_iff, <- Hin. reflexivity.
      * apply ForallOrdPairs_snoc.
        -- eapply ForallOrdPairs_weaken; [|exact Hfop].
           intros a b. apply firstSeenBefore_later.
        -- apply Forall_forall. intros f Hf.
           apply firstSeenBefore_new; [apply Hin, Hf|].
           intros Hx. apply Hk, Hin, Hx.
Qed.

(** X7.  For a trace whose variable names are ordinary (no array index, no
    name inherited from [Object.prototype]), [processVariableStates] returns
    one group per distinct name, in first-seen order; the group of a name
    carries the type of its first state and the changes of that name in
    trace order, so that the changes of all groups together are as many as
    the states. *)
Theorem processVariableStates_groups (states : list VariableState.t) :
  (forall n, In n (map VariableState.name states) -> Spec.ordinaryName n) ->
  exists names,
    VariableTracing.processVariableStates states
    = Some (map (More.groupOf states) names)
    /\ NoDup names
    /\ (forall n, In n names <-> In n (map VariableState.name states))
    /\ ForallOrdPairs
         (fun f g =>
            Spec.firstSeenBefore f g (map VariableState.name states))
         names
    /\ list_sum
         (map (fun n =>
                 List.length
                   (VariableTracing.Group.changes (More.groupOf states n)))
            names)
       = List.length states.
Proof.
  intros Hord.
  destruct (variables_tabulated states Hord) as (keys & Ho & Hnd & Hin & Hfop).
  exists keys. unfold VariableTracing.processVariableStates. rewrite Ho.
  cbn [option_map]. unfold JsObject.values.
  rewrite (entries_named JsObject.string_index).
  2:{ intros e He. apply in_map_iff in He. destruct He as (n & <- & Hn).
      simpl. apply (Hord n). apply Hin, Hn. }
  rewrite map_map. cbn [snd].
  split; [reflexivity|]. split; [exact Hnd|]. split; [exact Hin|].
  split; [exact Hfop|].
  unfold More.groupOf. cbn [VariableTracing.Group.changes].
  rewrite <- (groups_count VariableState.name String.eqb String.eqb_eq keys
                states Hnd).
  - f_equal. apply map_ext. intros n. apply length_map.
  - intros s Hs. apply Hin, in_map, Hs.
Qed.

Lemma processVariableStates_groups_witness :
  exists names,
    VariableTracing.processVariableStates
      [ VariableState.mk 1 "total" "0" "let" 1;
        VariableState.mk 2 "n" "3" "const" 2;
        VariableState.mk 3 "total" "3" "number" 4 ]
    = Some (map (More.groupOf
                   [ VariableState.mk 1 "total" "0" "let" 1;
                     VariableState.mk 2 "n" "3" "const" 2;
                     VariableState.mk 3 "total" "3" "number" 4 ]) names)
    /\ NoDup names.
Proof.
  assert (Hord : forall n,
            In n (map VariableState.name
                    [ VariableState.mk 1 "total" "0" "let" 1;
                      VariableState.mk 2 "n" "3" "const" 2;
                      VariableState.mk 3 "total" "3" "number" 4 ]) ->
            Spec.ordinaryName n).
  { intros n Hn. simpl in Hn.
    destruct Hn as [<-|[<-|[<-|[]]]]; repeat split. }
  destruct (processVariableStates_groups _ Hord) as (names & H1 & H2 & _).
  exists names. split; assumption.
Defined.

Lemma get_own (v : VariableTracing.variablesT) (k : string)
  (g : VariableTracing.Group.t) :
  JsObject.get String.eqb v k = Some g -> In k (JsObject.keys v).
Proof.
  induction v as [|[k' g'] v IH]; simpl; [discriminate|].
  destruct (String.eqb_spec k' k) as [E|E]; intros H.
  - left. exact E.
  - right. apply IH, H.
Qed.

Lemma keys_set (v : VariableTracing.variablesT) (k : string)
  (g : VariableTracing.Group.t) (n : string) :
  In n (JsObject.keys (JsObject.set String.eqb v k g)) ->
  n = k \/ In n (JsObject.keys v).
Proof.
  induction v as [|[k' g'] v IH]; simpl.
  - intros [H|[]]. left. symmetry. exact H.
  - destruct (String.eqb_spec k' k) as [E|E]; simpl; intros [H|H]; auto.
    destruct (IH H); auto.
Qed.

Lemma get_set_same (v : VariableTracing.variablesT) (k : string)
  (g : VariableTracing.Group.t) :
  JsObject.get String.eqb (JsObject.set String.eqb v k g) k = Some g.
Proof.
  induction v as [|[k' g'] v IH]; simpl.
  - rewrite String.eqb_refl. reflexivity.
  - destruct (String.eqb_spec k' k) as [E|E]; simpl.
    + subst. rewrite String.eqb_refl. reflexivity.
    + destruct (String.eqb_spec k' k); [contradiction | exact IH].
Qed.

Lemma addState_plain (v : VariableTracing.variablesT) (s : VariableState.t) :
  More.ownKeysPlain v ->
  VariableTracing.inherited (VariableState.name s) = false ->
  exists v', VariableTracing.addState v s = Some v' /\ More.ownKeysPlain v'.
Proof.
  intros Hv Hs. unfold VariableTracing.addState, VariableTracing.read.
  cbv zeta. rewrite Hs.
  destruct (JsObject.get String.eqb v (VariableState.name s)) as [g|] eqn:E.
  - rewrite E. eexists. split; [reflexivity|].
    intros k Hk. apply keys_set in Hk. destruct Hk as [->|Hk]; auto.
  - rewrite get_set_same. eexists. split; [reflexivity|].
    intros k Hk. apply keys_set in Hk. destruct Hk as [->|Hk]; auto.
    apply keys_set in Hk. destruct Hk as [->|Hk]; auto.
Qed.

Lemma addState_inherited (v : VariableTracing.variablesT)
  (s : VariableState.t) :
  More.ownKeysPlain v ->
  VariableTracing.inherited (VariableState.name s) = true ->
  VariableTracing.addState v s = None.
Proof.
  intros Hv Hs. unfold VariableTracing.addState, VariableTracing.read.
  cbv zeta.
  destruct (JsObject.get String.eqb v (VariableState.name s)) as [g|] eqn:E.
  - apply get_own, Hv in E. congruence.
  - rewrite Hs. cbn match. rewrite ?E, ?Hs. reflexivity.
Qed.

Lemma addStates_raises (states : list VariableState.t) :
  forall v, More.ownKeysPlain v ->
  VariableTracing.addStates v states = None
  <-> exists s, In s states
                /\ VariableTracing.inherited (VariableState.name s) = true.
Proof.
  induction states as [|x states IH]; intros v Hv; simpl.
  - split; [discriminate | intros (s & [] & _)].
  - destruct (VariableTracing.inherited (VariableState.name x)) eqn:Ex.
    + rewrite (addState_inherited v x Hv Ex). split; [|reflexivity].
      intros _. exists x. auto.
    + destruct (addState_plain v x Hv Ex) as (v' & -> & Hv').
      rewrite (IH v' Hv'). split.
      * intros (s & Hs & E). exists s. auto.
      * intros (s & [<-|Hs] & E); [congruence|]. exists s. auto.
Qed.

(** X8.  [processVariableStates] raises (a [TypeError], here [None]) exactly
    when some state is named like a property every object inherits from
    [Object.prototype] ([constructor], [toString], [__proto__], ...): the
    inherited value is truthy, so no group is created, and it has no
    [changes] array to push to.  Nothing recorded before or after that state
    prevents it. *)
Theorem processVariableStates_raises (states : list VariableState.t) :
  VariableTracing.processVariableStates states = None
  <-> exists s, In s states
                /\ VariableTracing.inherited (VariableState.name s) = true.
Proof.
  unfold VariableTracing.processVariableStates.
  rewrite <- (addStates_raises states JsObject.empty).
  - destruct (VariableTracing.addStates JsObject.empty states); simpl;
      split; congruence.
  - intros k [].
Qed.

(** ** What the collector sends and what it keeps *)

Section CollectorFacts.

Context {value : Type}.
Variable stringify : value -> option string.
Variable typeOf : value -> string.
Variable options : Options.t.










End CollectorFacts.






(** ** How the Python run ends *)

Lemma prefix_split (p m : string) :
  String.prefix p m = true -> exists rest, m = (p ++ rest)%string.
Proof.
  revert m. induction p as [|c p IH]; intros m H.
  - exists m. reflexivity.
  - destruct m as [|c' m]; [discriminate H|]. simpl in H.
    destruct (ascii_dec c c') as [->|]; [|discriminate H].
    destruct (IH m H) as (rest & ->). exists rest. reflexivity.
Qed.

Lemma error_frame_dispatch (m : string) :
  More.isErrorFrame m = true ->
  String.prefix PythonHandler.METRICS_EVENT m = false
  /\ String.prefix PythonHandler.METRICS_COMPLETE m = false.
Proof.
  intros H. apply prefix_split in H. destruct H as (rest & ->).
  split; reflexivity.
Qed.

Lemma complete_frame_dispatch (m : string) :
  More.isCompleteFrame m = true ->
  String.prefix PythonHandler.METRICS_EVENT m = false.
Proof.
  intros H. apply prefix_split in H. destruct H as (rest & ->). reflexivity.
Qed.

Section OutcomeFacts.

Variable parse : string -> option Json.t.
Variable hasCallback : bool.

Lemma settle_settled (s : PythonHandler.settlement) (st : PythonHandler.state) :
  PythonHandler.settled (PythonHandler.settle s st)
  = match PythonHandler.settled st with
    | Some s' => Some s'
    | None => Some s
    end.
Proof.
  unfold PythonHandler.settle.
  destruct (PythonHandler.settled st) eqn:E; cbn; [exact E | reflexivity].
Qed.

Lemma settle_others (s : PythonHandler.settlement) (st : PythonHandler.state) :
  PythonHandler.metricsData (PythonHandler.settle s st)
  = PythonHandler.metricsData st
  /\ PythonHandler.tempFile (PythonHandler.settle s st)
     = PythonHandler.tempFile st
  /\ PythonHandler.timeoutArmed (PythonHandler.settle s st)
     = PythonHandler.timeoutArmed st
  /\ PythonHandler.logged (PythonHandler.settle s st)
     = PythonHandler.logged st
  /\ PythonHandler.delivered (PythonHandler.settle s st)
     = PythonHandler.delivered st.
Proof.
  unfold PythonHandler.settle.
  destruct (PythonHandler.settled st); repeat split; reflexivity.
Qed.

Lemma unlink_fields (st : PythonHandler.state) :
  PythonHandler.tempFile (PythonHandler.unlinkTempFile st) = false
  /\ PythonHandler.settled (PythonHandler.unlinkTempFile st)
     = PythonHandler.settled st
  /\ PythonHandler.metricsData (PythonHandler.unlinkTempFile st)
     = PythonHandler.metricsData st
  /\ PythonHandler.timeoutArmed (PythonHandler.unlinkTempFile st)
     = PythonHandler.timeoutArmed st
  /\ PythonHandler.delivered (PythonHandler.unlinkTempFile st)
     = PythonHandler.delivered st.
Proof.
  unfold PythonHandler.unlinkTempFile.
  destruct (PythonHandler.tempFile st) eqn:E; cbn; repeat split; exact E.
Qed.

Lemma onMetricsEvent_fields (m : string) (st : PythonHandler.state) :
  PythonHandler.settled (PythonHandler.onMetricsEvent parse hasCallback m st)
  = PythonHandler.settled st
  /\ PythonHandler.metricsData
       (PythonHandler.onMetricsEvent parse hasCallback m st)
     = PythonHandler.metricsData st.
Proof.
  unfold PythonHandler.onMetricsEvent.
  destruct (parse _) as [eventData|]; [|split; reflexivity].
  destruct hasCallback; [|split; reflexivity].
  destruct (Json.property eventData "event") as [| |event];
    try (split; reflexivity).
  destruct (Json.truthy event); [|split; reflexivity].
  destruct (Json.property eventData "data") as [| |data];
    try (split; reflexivity).
  destruct (Json.truthy data); split; reflexivity.
Qed.

Lemma onMetricsError_fields (m : string) (st : PythonHandler.state) :
  PythonHandler.settled (PythonHandler.onMetricsError parse hasCallback m st)
  = match PythonHandler.settled st with
    | Some s => Some s
    | None => Some (PythonHandler.rejected (More.rejectionOf parse m))
    end
  /\ PythonHandler.metricsData
       (PythonHandler.onMetricsError parse hasCallback m st)
     = PythonHandler.metricsData st.
Proof.
  unfold PythonHandler.onMetricsError, More.rejectionOf.
  destruct (parse _) as [errorData|].
  - cbv zeta.
    set (st1 := if hasCallback
                then PythonHandler.metricsCallback (Json.text "error")
                       errorData st
                else st).
    set (st2 := if PythonHandler.timeoutArmed st1
                then PythonHandler.clearTimeout st1 else st1).
    assert (H1 : PythonHandler.settled st1 = PythonHandler.settled st
                 /\ PythonHandler.metricsData st1
                    = PythonHandler.metricsData st).
    { unfold st1. destruct hasCallback; split; reflexivity. }
    assert (H2 : PythonHandler.settled st2 = PythonHandler.settled st
                 /\ PythonHandler.metricsData st2
                    = PythonHandler.metricsData st).
    { unfold st2. destruct (PythonHandler.timeoutArmed st1); exact H1. }
    destruct (unlink_fields st2) as (_ & U1 & U2 & _).
    destruct H2 as [H2 H2'].
    destruct (Json.property errorData "message");
      rewrite settle_settled;
      rewrite (proj1 (settle_others _ _)); cbn;
      rewrite ?U1, ?U2, ?H2, ?H2'; split; reflexivity.
  - rewrite settle_settled, (proj1 (settle_others _ _)). cbn.
    split; reflexivity.
Qed.

Lemma onMessage_fields (m : string) (st : PythonHandler.state) :
  PythonHandler.settled (PythonHandler.onMessage parse hasCallback m st)
  = match PythonHandler.settled st with
    | Some s => Some s
    | None =>
        if More.isErrorFrame m
        then Some (PythonHandler.rejected (More.rejectionOf parse m))
        else None
    end
  /\ PythonHandler.metricsData (PythonHandler.onMessage parse hasCallback m st)
     = More.laterComplete parse (PythonHandler.metricsData st) m.
Proof.
  unfold PythonHandler.onMessage, More.laterComplete.
  destruct (More.isErrorFrame m) eqn:Ee.
  - destruct (error_frame_dispatch m Ee) as [-> Hc].
    unfold More.isCompleteFrame. rewrite Hc.
    unfold More.isErrorFrame in Ee. rewrite Ee.
    apply onMetricsError_fields.
  - destruct (More.isCompleteFrame m) eqn:Ec.
    + rewrite (complete_frame_dispatch m Ec).
      unfold More.isCompleteFrame in Ec. rewrite Ec.
      unfold PythonHandler.onMetricsComplete.
      destruct (parse _); cbn; destruct (PythonHandler.settled st);
        split; reflexivity.
    + unfold More.isCompleteFrame in Ec. unfold More.isErrorFrame in Ee.
      rewrite Ec, Ee.
      destruct (String.prefix PythonHandler.METRICS_EVENT m).
      * destruct (onMetricsEvent_fields m st) as [-> ->].
        destruct (PythonHandler.settled st); split; reflexivity.
      * destruct (PythonHandler.settled st); split; reflexivity.
Qed.

Lemma messages_fields (messages : list string) :
  forall st,
    let st' :=
      fold_left
        (fun st message =>
           PythonHandler.onMessage parse hasCallback message st)
        messages st in
    PythonHandler.settled st'
    = match PythonHandler.settled st with
      | Some s => Some s
      | None =>
          match find More.isErrorFrame messages with
          | Some frame =>
              Some (PythonHandler.rejected (More.rejectionOf parse frame))
          | None => None
          end
      end
    /\ PythonHandler.metricsData st'
       = fold_left (More.laterComplete parse) messages
           (PythonHandler.metricsData st).
Proof.
  induction messages as [|m messages IH]; intros st; cbn zeta.
  - cbn. destruct (PythonHandler.settled st); split; reflexivity.
  - cbn [fold_left find].
    destruct (IH (PythonHandler.onMessage parse hasCallback m st))
      as [-> ->].
    destruct (onMessage_fields m st) as [-> ->].
    destruct (PythonHandler.settled st); [split; reflexivity|].
    destruct (More.isErrorFrame m); split; reflexivity.
Qed.

Lemma onEnd_fields (err : option string) (st : PythonHandler.state) :
  let st' := PythonHandler.onEnd hasCallback err st in
  PythonHandler.settled st'
  = match PythonHandler.settled st with
    | Some s => Some s
    | None =>
        Some (match err with
              | Some message =>
                  PythonHandler.rejected (PythonHandler.shellError message)
              | None => PythonHandler.resolved (PythonHandler.metricsData st)
              end)
    end
  /\ PythonHandler.tempFile st' = false
  /\ PythonHandler.timeoutArmed st' = false.
Proof.
  cbn zeta. unfold PythonHandler.onEnd. cbv zeta.
  set (st1 := if PythonHandler.timeoutArmed st
              then PythonHandler.clearTimeout st else st).
  assert (H1 : PythonHandler.settled st1 = PythonHandler.settled st
               /\ PythonHandler.metricsData st1 = PythonHandler.metricsData st
               /\ PythonHandler.timeoutArmed st1 = false).
  { unfold st1. destruct (PythonHandler.timeoutArmed st) eqn:E;
      repeat split; exact E. }
  destruct H1 as (S1 & M1 & T1).
  destruct (unlink_fields st1) as (F2 & S2 & M2 & T2 & _).
  destruct err as [message|].
  - rewrite settle_settled.
    destruct (settle_others
                (PythonHandler.rejected (PythonHandler.shellError message))
                (if hasCallback
                 then PythonHandler.metricsCallback (Json.text "error")
                        (PythonHandler.errorPayload message)
                        (PythonHandler.unlinkTempFile st1)
                 else PythonHandler.unlinkTempFile st1))
      as (_ & -> & -> & _).
    destruct hasCallback; cbn [PythonHandler.metricsCallback
      PythonHandler.settled PythonHandler.tempFile
      PythonHandler.timeoutArmed];
      rewrite S2, S1, F2, T2, T1; repeat split; reflexivity.
  - rewrite settle_settled.
    destruct (settle_others
                (PythonHandler.resolved
                   (PythonHandler.metricsData
                      (PythonHandler.unlinkTempFile st1)))
                (PythonHandler.unlinkTempFile st1)) as (_ & -> & -> & _).
    rewrite S2, S1, F2, T2, T1, M2, M1. repeat split; reflexivity.
Qed.

End OutcomeFacts.

(** X11.  How a Python run ends is decided by what the shell printed:
    the first terminal-error frame rejects the promise (with the message it
    carries, or with the exception raised while decoding it), whatever comes
    after it and however the shell exits; without such a frame the promise
    is rejected when the shell exits with an error and is otherwise resolved
    with the payload of the last final-aggregate frame that could be decoded
    (the empty skeleton if there was none).  In every case the promise is
    settled when the shell has exited, the temporary file is gone and the
    timer is cleared; whether a callback was passed changes none of this. *)
Theorem python_run_outcome (parse : string -> option Json.t)
  (hasCallback : bool) (messages : list string) (err : option string) :
  let st := PythonHandler.executeCode parse hasCallback messages err in
  PythonHandler.settled st = Some (More.outcome parse messages err)
  /\ PythonHandler.tempFile st = false
  /\ PythonHandler.timeoutArmed st = false.
Proof.
  cbn zeta. unfold PythonHandler.executeCode.
  destruct (onEnd_fields hasCallback err
              (fold_left
                 (fun st message =>
                    PythonHandler.onMessage parse hasCallback message st)
                 messages PythonHandler.started)) as (-> & -> & ->).
  destruct (messages_fields parse hasCallback messages PythonHandler.started)
    as [-> ->].
  cbn [PythonHandler.started PythonHandler.settled PythonHandler.metricsData].
  unfold More.outcome, More.lastComplete.
  destruct (find More.isErrorFrame messages); repeat split; reflexivity.
Qed.

Lemma quiet_message (parse : string -> option Json.t) (hasCallback : bool)
  (m : string) (st : PythonHandler.state) :
  More.isErrorFrame m = false ->
  PythonHandler.settled (PythonHandler.onMessage parse hasCallback m st)
  = PythonHandler.settled st
  /\ PythonHandler.tempFile (PythonHandler.onMessage parse hasCallback m st)
     = PythonHandler.tempFile st.
Proof.
  intros He. unfold PythonHandler.onMessage. unfold More.isErrorFrame in He.
  rewrite He.
  destruct (String.prefix PythonHandler.METRICS_EVENT m).
  - unfold PythonHandler.onMetricsEvent.
    destruct (parse _) as [eventData|]; [|split; reflexivity].
    destruct hasCallback; [|split; reflexivity].
    destruct (Json.property eventData "event") as [| |event];
      try (split; reflexivity).
    destruct (Json.truthy event); [|split; reflexivity].
    destruct (Json.property eventData "data") as [| |data];
      try (split; reflexivity).
    destruct (Json.truthy data); split; reflexivity.
  - destruct (String.prefix PythonHandler.METRICS_COMPLETE m);
      [|split; reflexivity].
    unfold PythonHandler.onMetricsComplete.
    destruct (parse _); split; reflexivity.
Qed.

Lemma quiet_messages (parse : string -> option Json.t) (hasCallback : bool)
  (messages : list string) :
  (forall m, In m messages -> More.isErrorFrame m = false) ->
  forall st,
    let st' :=
      fold_left
        (fun st message =>
           PythonHandler.onMessage parse hasCallback message st)
        messages st in
    PythonHandler.settled st' = PythonHandler.settled st
    /\ PythonHandler.tempFile st' = PythonHandler.tempFile st.
Proof.
  induction messages as [|m messages IH]; intros Hq st; cbn zeta.
  - split; reflexivity.
  - cbn [fold_left].
    destruct (IH (fun x Hx => Hq x (or_intror Hx))
                (PythonHandler.onMessage parse hasCallback m st))
      as [-> ->].
    apply quiet_message, Hq. left. reflexivity.
Qed.

(** X12.  When the timer fires before any terminal-error frame was read,
    the promise is rejected as timed out, and the exit of the killed shell
    cannot change that: the exit handler runs its cleanup a second time, so
    removing the temporary file fails and is logged once, and a callback
    that was passed is told about an error once for the timeout and once
    more if the shell reports an error on exit. *)
Theorem timeout_then_exit (parse : string -> option Json.t)
  (hasCallback : bool) (messages : list string) (err : option string) :
  (forall m, In m messages -> More.isErrorFrame m = false) ->
  let before :=
    fold_left
      (fun st message => PythonHandler.onMessage parse hasCallback message st)
      messages PythonHandler.started in
  let st :=
    PythonHandler.onEnd hasCallback err
      (PythonHandler.onTimeout hasCallback before) in
  PythonHandler.settled st
  = Some (PythonHandler.rejected PythonHandler.timedOut)
  /\ PythonHandler.tempFile st = false
  /\ PythonHandler.logged st
     = (PythonHandler.logged before
        ++ [PythonHandler.errorRemovingTempFile])%list
  /\ PythonHandler.delivered st
     = (PythonHandler.delivered before
        ++ (if hasCallback
            then (Json.text "error",
                  PythonHandler.errorPayload "Execution timed out")
                 :: match err with
                    | Some message =>
                        [(Json.text "error",
                          PythonHandler.errorPayload message)]
                    | None => []
                    end
            else []))%list.
Proof.
  intros Hq before st.
  destruct (quiet_messages parse hasCallback messages Hq
              PythonHandler.started) as [Hs Hf].
  fold before in Hs, Hf. cbn in Hs, Hf.
  subst st. destruct before as [md dl lg se ta tf]. cbn in Hs, Hf. subst.
  unfold PythonHandler.onTimeout, PythonHandler.onEnd.
  destruct hasCallback, err as [message|], ta; cbn;
    rewrite <- ?app_assoc, ?app_nil_r; repeat split; reflexivity.
Qed.

Lemma timeout_then_exit_witness :
  PythonHandler.settled
    (PythonHandler.onEnd true (Some "killed")
       (PythonHandler.onTimeout true
          (fold_left
             (fun st message =>
                PythonHandler.onMessage Samples.tinyParse true message st)
             ["hello"] PythonHandler.started)))
  = Some (PythonHandler.rejected PythonHandler.timedOut).
Proof.
  refine (proj1 (timeout_then_exit Samples.tinyParse true ["hello"]
                   (Some "killed") _)).
  intros m [<-|[]]. reflexivity.
Defined.

(** ** JavaScript runs in the sandbox, and their comparison *)


























(** ** Requests that pass validation *)

(** The typed request of [executeCode] is a request whose options can be
    destructured. *)
Lemma executeRequest_typed (connected : bool) (data : Request.t)
  (input options : Json.access) (w : world) :
  options <> Json.found Json.null ->
  executeRequest connected (Request.executionId data) (Request.code data)
    (Request.language data) input options w
  = executeCode connected data w.
Proof.
  intros Ho. unfold executeRequest, executeCode.
  destruct (languageHandlers (Request.language data)); try reflexivity.
  destruct options as [| |[| | | | |]]; try reflexivity.
  contradiction Ho. reflexivity.
Qed.



(** X17.  The middleware looks at the fields [code] and [language] only:
    two bodies that agree on them get the same answer, and a body without a
    [code] field is turned away as a bad request whatever else it holds, so
    the texts a comparison request sends as [code1] and [code2] are never
    examined. *)
Theorem validation_reads_code_and_language
  (validateCodeSafety : string -> string -> option string)
  (body body' : list (string * Json.t)) :
  Json.lookup body "code" = Json.lookup body' "code" ->
  Json.lookup body "language" = Json.lookup body' "language" ->
  Validation.validateCodeInput validateCodeSafety body
  = Validation.validateCodeInput validateCodeSafety body'
  /\ (Json.lookup body "code" = Json.missing ->
      Validation.validateCodeInput validateCodeSafety body
      = Validation.badRequest
          "Code is required and must be a non-empty string").
Proof.
  intros Hc Hl. unfold Validation.validateCodeInput. rewrite <- Hc, <- Hl.
  split; [reflexivity|]. intros ->. reflexivity.
Qed.

Lemma validation_reads_code_and_language_witness :
  Validation.validateCodeInput (fun _ _ => None)
    [("code1", Json.text "a = 1"); ("code2", Json.text "a = 2");
     ("language", Json.text "python")]
  = Validation.badRequest "Code is required and must be a non-empty string".
Proof.
  refine (proj2 (validation_reads_code_and_language (fun _ _ => None)
                   [("code1", Json.text "a = 1"); ("code2", Json.text "a = 2");
                    ("language", Json.text "python")]
                   [("language", Json.text "python")]
                   _ _) _); reflexivity.
Defined.

(** ** What a sandbox's callback keeps *)

Lemma updateNth_same (f : Sandbox.t -> Sandbox.t) (l : list Sandbox.t) :
  forall n, nth_error (updateNth n f l) n = option_map f (nth_error l n).
Proof.
  induction l as [|s l IH]; intros [|n]; simpl; try reflexivity. apply IH.
Qed.

Lemma record_kinds (event data : string) (s : Sandbox.t) :
  record event data s
  = Sandbox.mk (Sandbox.executionId s) (Sandbox.language s)
      (Sandbox.memoryUsage s ++ More.dataOf "memory" [(event, data)])
      (Sandbox.functionCalls s
       ++ More.dataOf "functionCall" [(event, data)])
      (Sandbox.variableStates s
       ++ More.dataOf "variableState" [(event, data)])
      (Sandbox.executionFlow s
       ++ More.dataOf "executionFlow" [(event, data)]).
Proof.
  unfold record, More.dataOf. cbn [filter fst snd].
  destruct (String.eqb_spec event "memory") as [->|_];
    [cbn; rewrite !app_nil_r; reflexivity|].
  destruct (String.eqb_spec event "functionCall") as [->|_];
    [cbn; rewrite !app_nil_r; reflexivity|].
  destruct (String.eqb_spec event "variableState") as [->|_];
    [cbn; rewrite !app_nil_r; reflexivity|].
  destruct (String.eqb_spec event "executionFlow") as [->|_];
    cbn; rewrite !app_nil_r; destruct s; reflexivity.
Qed.

Lemma dataOf_cons (kind : string) (e : string * string)
  (events : list (string * string)) :
  More.dataOf kind (e :: events)
  = (More.dataOf kind [e] ++ More.dataOf kind events)%list.
Proof.
  unfold More.dataOf. cbn [filter].
  destruct (String.eqb (fst e) kind); reflexivity.
Qed.

(** X18.  The buffer a running sandbox fills keeps the payloads of the four
    kinds of event it knows, each kind in order of arrival, and drops every
    other event (the final aggregate and errors among them); the socket, if
    there is one, is sent every event, dropped or not.  No other sandbox is
    touched. *)
Theorem buffer_keeps_four_kinds (connected : bool) (n : nat)
  (events : list (string * string)) (w : world) (s : Sandbox.t) :
  nth_error (sandboxes w) n = Some s ->
  let w' := More.deliverAll connected n events w in
  nth_error (sandboxes w') n
  = Some (Sandbox.mk (Sandbox.executionId s) (Sandbox.language s)
            (Sandbox.memoryUsage s ++ More.dataOf "memory" events)
            (Sandbox.functionCalls s ++ More.dataOf "functionCall" events)
            (Sandbox.variableStates s ++ More.dataOf "variableState" events)
            (Sandbox.executionFlow s ++ More.dataOf "executionFlow" events))
  /\ socketMessages w'
     = (socketMessages w
        ++ (if connected
            then map (fun e => executionUpdate (Sandbox.executionId s)
                                 (fst e) (snd e)) events
            else []))%list
  /\ (forall k, k <> n ->
        nth_error (sandboxes w') k = nth_error (sandboxes w) k).
Proof.
  revert w s. induction events as [|[event data] events IH]; intros w s Hs.
  - unfold More.deliverAll, More.dataOf.
    destruct s, connected; cbn in *; rewrite ?app_nil_r;
      repeat split; auto.
  - cbn zeta. unfold More.deliverAll. cbn [fold_left fst snd].
    fold (More.deliverAll connected n events
            (deliver connected n event data w)).
    assert (Hd : nth_error (sandboxes (deliver connected n event data w)) n
                 = Some (record event data s)
                 /\ socketMessages (deliver connected n event data w)
                    = (socketMessages w
                       ++ (if connected
                           then [executionUpdate (Sandbox.executionId s)
                                   event data]
                           else []))%list
                 /\ forall k, k <> n ->
                      nth_error (sandboxes (deliver connected n event data w))
                        k = nth_error (sandboxes w) k).
    { unfold deliver. rewrite Hs. rewrite sandboxes_emit. cbn [sandboxes].
      rewrite updateNth_same, Hs. split; [reflexivity|]. split.
      - unfold emit. destruct connected; cbn;
          [reflexivity | rewrite app_nil_r; reflexivity].
      - intros k Hk. apply updateNth_other, Hk. }
    destruct Hd as (D1 & D2 & D3).
    destruct (IH _ _ D1) as (I1 & I2 & I3). cbn zeta in I1, I2, I3.
    rewrite I1, I2, D2.
    rewrite (dataOf_cons "memory" (event, data) events),
      (dataOf_cons "functionCall" (event, data) events),
      (dataOf_cons "variableState" (event, data) events),
      (dataOf_cons "executionFlow" (event, data) events).
    rewrite record_kinds.
    cbn [Sandbox.executionId Sandbox.language Sandbox.memoryUsage
           Sandbox.functionCalls Sandbox.variableStates
           Sandbox.executionFlow].
    rewrite <- !app_assoc. split; [reflexivity|]. split.
    + destruct connected; cbn; rewrite ?app_nil_r; reflexivity.
    + intros k Hk. rewrite (I3 k Hk). apply D3, Hk.
Qed.

Lemma buffer_keeps_four_kinds_witness :
  nth_error
    (sandboxes
       (More.deliverAll true 0
          [("memory", "m1"); ("complete", "all"); ("memory", "m2")]
          (executeCode true Spec.sampleRequest idle))) 0
  = Some (Sandbox.mk "run-1" pythonHandler ["m1"; "m2"] [] [] []).
Proof.
  exact (proj1 (buffer_keeps_four_kinds true 0
                  [("memory", "m1"); ("complete", "all"); ("memory", "m2")]
                  (executeCode true Spec.sampleRequest idle)
                  (Sandbox.mk "run-1" pythonHandler [] [] [] [])
                  eq_refl)).
Defined.

(** ** Lines, and the wrapping of executed lines *)

Lemma split_nonempty (s : string) : Lines.split s <> [].
Proof.
  induction s as [|c s IH]; simpl; [discriminate|].
  destruct (Lines.isNewline c); [discriminate|].
  destruct (Lines.split s); discriminate.
Qed.

Lemma split_noNewline (s : string) :
  Forall (fun l => Lines.noNewline l = true) (Lines.split s).
Proof.
  induction s as [|c s IH]; simpl; [repeat constructor|].
  destruct (Lines.isNewline c) eqn:E; [constructor; [reflexivity | exact IH]|].
  destruct (Lines.split s) as [|l ls]; [repeat constructor; simpl; now rewrite E|].
  inversion IH; subst. constructor; [|assumption].
  simpl. rewrite E. assumption.
Qed.

Lemma isNewline_eq (c : ascii) :
  Lines.isNewline c = true -> String c EmptyString = Text.newline.
Proof.
  unfold Lines.isNewline. intros H. apply Nat.eqb_eq in H.
  unfold Text.newline. f_equal. rewrite <- H. symmetry.
  apply ascii_nat_embedding.
Qed.

Lemma join_split (s : string) :
  Lines.join Text.newline (Lines.split s) = s.
Proof.
  induction s as [|c s IH]; [reflexivity|]. simpl.
  destruct (Lines.isNewline c) eqn:E.
  - pose proof (split_nonempty s) as Hne.
    destruct (Lines.split s) as [|l ls] eqn:Es; [contradiction|].
    change (Lines.join Text.newline (EmptyString :: l :: ls))
      with (Text.newline ++ Lines.join Text.newline (l :: ls))%string.
    rewrite IH, <- (isNewline_eq c E). reflexivity.
  - pose proof (split_nonempty s) as Hne.
    destruct (Lines.split s) as [|l ls] eqn:Es; [contradiction|].
    rewrite <- IH. destruct ls; reflexivity.
Qed.

Lemma split_line (l : string) :
  Lines.noNewline l = true -> Lines.split l = [l].
Proof.
  induction l as [|c l IH]; [reflexivity|]. simpl.
  destruct (Lines.isNewline c); [discriminate|]. simpl.
  intros H. rewrite (IH H). reflexivity.
Qed.

Lemma split_line_more (l rest : string) :
  Lines.noNewline l = true ->
  Lines.split (l ++ Text.newline ++ rest) = l :: Lines.split rest.
Proof.
  induction l as [|c l IH]; [reflexivity|].
  cbn [append Lines.split Lines.noNewline].
  destruct (Lines.isNewline c); [discriminate|]. cbn [negb andb].
  intros H. rewrite (IH H). reflexivity.
Qed.

Lemma split_join (lines : list string) :
  Forall (fun l => Lines.noNewline l = true) lines -> lines <> [] ->
  Lines.split (Lines.join Text.newline lines) = lines.
Proof.
  induction 1 as [|l lines Hl Hls IH]; intros Hne; [contradiction|].
  destruct lines as [|l' lines].
  - apply split_line, Hl.
  - change (Lines.join Text.newline (l :: l' :: lines))
      with (l ++ Text.newline ++ Lines.join Text.newline (l' :: lines))%string.
    rewrite (split_line_more l _ Hl), IH; [reflexivity | discriminate].
Qed.

Lemma noNewline_app (a b : string) :
  Lines.noNewline (a ++ b) = Lines.noNewline a && Lines.noNewline b.
Proof.
  induction a as [|c a IH]; [reflexivity|]. simpl. rewrite IH.
  apply andb_assoc.
Qed.

Lemma noNewline_span (p : ascii -> bool) (s : string) :
  Lines.noNewline s = true ->
  Lines.noNewline (fst (Text.span p s)) = true.
Proof.
  induction s as [|c s IH]; [reflexivity|]. simpl. intros H.
  apply andb_true_iff in H. destruct H as [Hc Hs].
  destruct (p c); [|reflexivity].
  destruct (Text.span p s) as [taken remains] eqn:E. simpl in *.
  rewrite Hc. apply IH, Hs.
Qed.

Lemma noNewline_escapeQuotes (s : string) :
  Lines.noNewline s = true ->
  Lines.noNewline (FlowInstrumentation.escapeQuotes s) = true.
Proof.
  induction s as [|c s IH]; [reflexivity|]. simpl. intros H.
  apply andb_true_iff in H. destruct H as [Hc Hs].
  destruct (Ascii.eqb c "'"); simpl; [apply IH, Hs|].
  rewrite Hc. apply IH, Hs.
Qed.

Lemma noNewline_decimal (n : nat) :
  Lines.noNewline (FlowInstrumentation.decimal n) = true.
Proof.
  unfold FlowInstrumentation.decimal. generalize (Nat.to_uint n).
  intros u. induction u; simpl; auto.
Qed.

Lemma noNewline_openLine (number : nat) (line : string) :
  Lines.noNewline line = true ->
  Lines.noNewline (FlowInstrumentation.openLine number line) = true.
Proof.
  intros H. unfold FlowInstrumentation.openLine,
    FlowInstrumentation.leadingWhitespace.
  rewrite !noNewline_app, (noNewline_span _ _ H), noNewline_decimal,
    (noNewline_escapeQuotes _ H). reflexivity.
Qed.

Lemma noNewline_closeLine (line : string) :
  Lines.noNewline line = true ->
  Lines.noNewline (FlowInstrumentation.closeLine line) = true.
Proof.
  intros H. unfold FlowInstrumentation.closeLine,
    FlowInstrumentation.leadingWhitespace.
  rewrite !noNewline_app, (noNewline_span _ _ H). reflexivity.
Qed.

Lemma noNewline_instrumentLines (lines : list string) :
  Forall (fun l => Lines.noNewline l = true) lines ->
  forall i,
    Forall (fun l => Lines.noNewline l = true)
      (FlowInstrumentation.instrumentLines i lines).
Proof.
  induction 1 as [|line lines Hl _ IH]; intros i; simpl; [constructor|].
  destruct (FlowInstrumentation.skipped line); simpl.
  - constructor; [exact Hl | apply IH].
  - constructor; [apply noNewline_openLine, Hl|].
    constructor; [exact Hl|].
    constructor; [apply noNewline_closeLine, Hl | apply IH].
Qed.

Lemma instrumentLines_length (lines : list string) :
  forall i,
    List.length (FlowInstrumentation.instrumentLines i lines)
    = (List.length lines + 2 * Spec.count More.tracked lines)%nat.
Proof.
  induction lines as [|line lines IH]; intros i; [reflexivity|].
  cbn [FlowInstrumentation.instrumentLines]. rewrite length_app, IH.
  unfold Spec.count, More.tracked. cbn [filter].
  destruct (FlowInstrumentation.skipped line); cbn [negb List.length]; lia.
Qed.

Lemma instrumentLines_nth (lines : list string) :
  forall base i line,
    nth_error lines i = Some line ->
    let out := FlowInstrumentation.instrumentLines base lines in
    let p := (i + 2 * More.trackedBefore i lines)%nat in
    if FlowInstrumentation.skipped line
    then nth_error out p = Some line
    else nth_error out p
         = Some (FlowInstrumentation.openLine (base + i + 1) line)
         /\ nth_error out (p + 1) = Some line
         /\ nth_error out (p + 2)
            = Some (FlowInstrumentation.closeLine line).
Proof.
  induction lines as [|l lines IH]; intros base i line Hi;
    [destruct i; discriminate Hi|].
  destruct i as [|i].
  - simpl in Hi. injection Hi as ->. cbn zeta.
    unfold More.trackedBefore. cbn.
    destruct (FlowInstrumentation.skipped line); [reflexivity|].
    rewrite Nat.add_0_r. repeat split; reflexivity.
  - simpl in Hi. specialize (IH (S base) i line Hi). cbn zeta in *.
    cbn [FlowInstrumentation.instrumentLines].
    unfold More.trackedBefore, Spec.count, More.tracked in *.
    cbn [firstn filter].
    replace (S base + i + 1)%nat with (base + S i + 1)%nat in IH by lia.
    destruct (FlowInstrumentation.skipped l); cbn [negb List.length app].
    + destruct (FlowInstrumentation.skipped line).
      * exact IH.
      * destruct IH as (I1 & I2 & I3). repeat split; assumption.
    + match goal with
      | |- context [List.length ?f] => set (k := List.length f) in *
      end.
      replace (S i + 2 * S k)%nat with (S (S (S (i + 2 * k)))) by lia.
      destruct (FlowInstrumentation.skipped line).
      * exact IH.
      * destruct IH as (I1 & I2 & I3). repeat split; assumption.
Qed.

(** X19.  With tracking on, the lines of the result of
    [instrumentExecutionFlow] are the lines of the code in their order, each
    line that is not skipped (blank, comment, closing or opening a block)
    standing between the two lines added for it; so line [i] of the code
    (counted from 0) is found [2 t] lines further down, where [t] is the
    number of wrapped lines before it, the added line in front of it names
    the line number [i + 1] of the original code, and the result has two
    lines more for every wrapped line. *)
Theorem instrumentExecutionFlow_lines (code : string) :
  let lines := Lines.split code in
  let out :=
    Lines.split (FlowInstrumentation.instrumentExecutionFlow code true) in
  List.length out
  = (List.length lines + 2 * Spec.count More.tracked lines)%nat
  /\ forall i,
       match nth_error lines i with
       | None => True
       | Some line =>
           let p := (i + 2 * More.trackedBefore i lines)%nat in
           if FlowInstrumentation.skipped line
           then nth_error out p = Some line
           else nth_error out p
                = Some (FlowInstrumentation.openLine (i + 1) line)
                /\ nth_error out (p + 1) = Some line
                /\ nth_error out (p + 2)
                   = Some (FlowInstrumentation.closeLine line)
       end.
Proof.
  cbn zeta. unfold FlowInstrumentation.instrumentExecutionFlow. cbn [negb].
  rewrite split_join.
  - split; [apply instrumentLines_length|].
    intros i. destruct (nth_error (Lines.split code) i) as [line|] eqn:E;
      [|exact I].
    exact (instrumentLines_nth (Lines.split code) 0 i line E).
  - apply noNewline_instrumentLines, split_noNewline.
  - pose proof (split_nonempty code) as Hne.
    destruct (Lines.split code) as [|l ls]; [contradiction|].
    cbn [FlowInstrumentation.instrumentLines].
    destruct (FlowInstrumentation.skipped l); discriminate.
Qed.

(** ** The wrapper line under the rewrite of declarations *)

Lemma span_all (p : ascii -> bool) (s : string) :
  Forall (fun c => p c = true)
    (list_ascii_of_string (fst (Text.span p s))).
Proof.
  induction s as [|c s IH]; simpl; [constructor|].
  destruct (p c) eqn:E; [|constructor].
  destruct (Text.span p s) as [taken remains]. simpl in *.
  constructor; assumption.
Qed.

Lemma const_not_at_space (c : ascii) (s : string) :
  Text.is_space c = true ->
  JavascriptHandler.declarationAt "const" (String c s) = None.
Proof.
  intros H. unfold JavascriptHandler.declarationAt.
  cbn [String.prefix].
  destruct (ascii_dec "c" c) as [<-|_]; [discriminate H | reflexivity].
Qed.

Lemma render_cons (g : JavascriptHandler.segment)
  (l : list JavascriptHandler.segment) :
  JavascriptHandler.render (g :: l)
  = (JavascriptHandler.renderSegment g ++ JavascriptHandler.render l)%string.
Proof. reflexivity. Qed.

Lemma constPass_blanks (ws rest : string) :
  Forall (fun c => Text.is_space c = true) (list_ascii_of_string ws) ->
  More.constPass (ws ++ rest) = (ws ++ More.constPass rest)%string.
Proof.
  unfold More.constPass, JavascriptHandler.replace.
  induction ws as [|c ws IH]; intros H; [reflexivity|].
  inversion H as [|? ? Hc Hws]; subst.
  cbn [append JavascriptHandler.segments].
  rewrite (const_not_at_space c _ Hc), render_cons, (IH Hws). reflexivity.
Qed.

Lemma segments_skip (p : JavascriptHandler.pattern)
  (callback : string -> string -> string -> string) (m rest : string) :
  JavascriptHandler.segments p callback (String.length m) (m ++ rest)
  = JavascriptHandler.segments p callback 0 rest.
Proof.
  induction m as [|c m IH]; [destruct rest; reflexivity|].
  cbn [append String.length JavascriptHandler.segments]. exact IH.
Qed.

Lemma span_semicolon (a b : string) :
  More.semicolonFree a = true ->
  Text.span More.notSemicolon (a ++ String ";" b) = (a, String ";" b).
Proof.
  induction a as [|c a IH]; [reflexivity|]. simpl. intros H.
  apply andb_true_iff in H. destruct H as [Hc Ha].
  rewrite Hc, (IH Ha). reflexivity.
Qed.

Lemma semicolonFree_app (a b : string) :
  More.semicolonFree (a ++ b)
  = More.semicolonFree a && More.semicolonFree b.
Proof.
  induction a as [|c a IH]; [reflexivity|]. simpl. rewrite IH.
  apply andb_assoc.
Qed.

Lemma semicolonFree_escapeQuotes (s : string) :
  More.semicolonFree s = true ->
  More.semicolonFree (FlowInstrumentation.escapeQuotes s) = true.
Proof.
  induction s as [|c s IH]; [reflexivity|]. simpl. intros H.
  apply andb_true_iff in H. destruct H as [Hc Hs].
  destruct (Ascii.eqb c "'"); simpl; [apply IH, Hs|].
  rewrite Hc. apply IH, Hs.
Qed.

Lemma semicolonFree_decimal (n : nat) :
  More.semicolonFree (FlowInstrumentation.decimal n) = true.
Proof.
  unfold FlowInstrumentation.decimal. generalize (Nat.to_uint n).
  intros u. induction u; simpl; auto.
Qed.

Lemma escapeQuotes_app (a b : string) :
  FlowInstrumentation.escapeQuotes (a ++ b)
  = (FlowInstrumentation.escapeQuotes a
     ++ FlowInstrumentation.escapeQuotes b)%string.
Proof.
  induction a as [|c a IH]; [reflexivity|]. simpl.
  destruct (Ascii.eqb c "'"); simpl; rewrite IH; reflexivity.
Qed.

Lemma span_prefix (p : ascii -> bool) (pre : string) (c : ascii)
  (tail : string) :
  forallb p (list_ascii_of_string pre) = true -> p c = false ->
  Text.span p (pre ++ String c tail) = (pre, String c tail).
Proof.
  induction pre as [|a pre IH]; simpl; intros H Hc.
  - rewrite Hc. reflexivity.
  - apply andb_true_iff in H. destruct H as [H1 H2].
    rewrite H1, (IH H2 Hc). reflexivity.
Qed.

Lemma span_none (p : ascii -> bool) (c : ascii) (tail : string) :
  p c = false -> Text.span p (String c tail) = (EmptyString, String c tail).
Proof. intros H. simpl. rewrite H. reflexivity. Qed.

(** The reassignment expression on [name = value;] written with single
    blanks. *)
Lemma assignmentAt_plain (c v : ascii) (name value rest : string) :
  Text.is_ident_start c = true ->
  forallb Text.is_ident_char (list_ascii_of_string name) = true ->
  Text.is_space v = false -> More.notSemicolon v = true ->
  More.semicolonFree value = true ->
  JavascriptHandler.assignmentAt
    (String c name
     ++ String " " (String "=" (String " "
          (String v value ++ String ";" rest))))%string
  = Some ((String c name ++ " = " ++ String v value ++ ";")%string,
          String c name, String v value).
Proof.
  intros Hc Hname Hv Hv' Hvalue.
  set (T3 := (String v value ++ String ";" rest)%string).
  set (T2 := String "=" (String " " T3)).
  unfold JavascriptHandler.assignmentAt. cbn [append]. rewrite Hc.
  assert (E1 : Text.span Text.is_ident_char
                 (String c (name ++ String " " T2))
               = (String c name, String " " T2)).
  { apply (span_prefix Text.is_ident_char (String c name) " " T2);
      [|reflexivity].
    cbn [list_ascii_of_string forallb]. rewrite Hname.
    unfold Text.is_ident_char. rewrite Hc. reflexivity. }
  rewrite E1.
  assert (E2 : Text.span Text.is_space (String " " T2)
               = (" "%string, T2)).
  { apply (span_prefix Text.is_space " " "=" (String " " T3));
      reflexivity. }
  rewrite E2. unfold T2. cbv beta iota.
  change (Ascii.eqb "=" "=") with true. cbv iota.
  assert (E3 : Text.span Text.is_space (String " " T3) = (" "%string, T3)).
  { apply (span_prefix Text.is_space " " v (value ++ String ";" rest));
      [reflexivity | exact Hv]. }
  rewrite E3.
  assert (E4 : Text.span (fun c => negb (Ascii.eqb c ";")) T3
               = (String v value, String ";" rest)).
  { apply (span_prefix More.notSemicolon (String v value) ";" rest);
      [|reflexivity].
    cbn [list_ascii_of_string forallb]. rewrite Hv'. clear -Hvalue.
    induction value as [|a value IH]; [reflexivity|].
    simpl in *. apply andb_true_iff in Hvalue. destruct Hvalue as [H1 H2].
    rewrite H1. apply IH, H2. }
  rewrite E4. cbv beta iota. change (Ascii.eqb ";" ";") with true.
  cbv iota. reflexivity.
Qed.

(** The [const] expression matches where the wrapper declares its tracker;
    the value it captures runs up to the first semicolon. *)
Lemma const_at_tracker (value rest : string) :
  More.semicolonFree value = true ->
  JavascriptHandler.declarationAt "const"
    ("const __executionTracker = __metrics" ++ value ++ String ";" rest)%string
  = Some (("const __executionTracker = __metrics" ++ value ++ ";")%string,
          "__executionTracker", ("__metrics" ++ value)%string).
Proof.
  intros H. unfold JavascriptHandler.declarationAt.
  change ("const __executionTracker = __metrics" ++ value ++ String ";" rest)%string
    with ("const"
          ++ String " "
               (String "_" "_executionTracker"
                ++ String " " (String "=" (String " "
                     (String "_" ("_metrics" ++ value)
                      ++ String ";" rest)))))%string.
  rewrite prefix_append, drop_append.
  assert (E : forall T,
             Text.span Text.is_space (String " " (String "_" T))
             = (" "%string, String "_" T)).
  { intros T. apply (span_prefix Text.is_space " " "_" T); reflexivity. }
  cbn [append]. rewrite E. cbv beta iota.
  pose proof (assignmentAt_plain "_" "_" "_executionTracker"
                ("_metrics" ++ value) rest eq_refl eq_refl eq_refl eq_refl)
    as A.
  cbn [append] in A. rewrite A; [reflexivity|].
  change (More.semicolonFree ("_metrics" ++ value) = true).
  rewrite semicolonFree_app, H. reflexivity.
Qed.

Lemma const_not_at (c : ascii) (s : string) :
  c <> "c"%char ->
  JavascriptHandler.declarationAt "const" (String c s) = None.
Proof.
  intros H. unfold JavascriptHandler.declarationAt. cbn [String.prefix].
  destruct (ascii_dec "c" c) as [E|_]; [|reflexivity].
  exfalso. apply H. symmetry. exact E.
Qed.

Lemma render_copy (p : JavascriptHandler.pattern)
  (callback : string -> string -> string -> string) (c : ascii) (s : string) :
  p (String c s) = None ->
  JavascriptHandler.render (JavascriptHandler.segments p callback 0 (String c s))
  = String c
      (JavascriptHandler.render (JavascriptHandler.segments p callback 0 s)).
Proof. intros H. cbn [JavascriptHandler.segments]. rewrite H. reflexivity. Qed.

Lemma render_match (p : JavascriptHandler.pattern)
  (callback : string -> string -> string -> string) (c : ascii)
  (s m rest name value : string) :
  p (String c s) = Some (String c m, name, value) ->
  s = (m ++ rest)%string ->
  JavascriptHandler.render (JavascriptHandler.segments p callback 0 (String c s))
  = (callback (String c m) name value
     ++ JavascriptHandler.render
          (JavascriptHandler.segments p callback 0 rest))%string.
Proof.
  intros H ->. cbn [JavascriptHandler.segments]. rewrite H.
  rewrite render_cons. cbn [JavascriptHandler.renderSegment].
  replace (String.length (String c m) - 1)%nat with (String.length m)
    by (cbn [String.length]; lia).
  rewrite segments_skip. reflexivity.
Qed.

Lemma constPass_wrapper (ws value rest : string) :
  Forall (fun c => Text.is_space c = true) (list_ascii_of_string ws) ->
  More.semicolonFree value = true ->
  More.constPass
    (ws ++ String "{" (String " "
             ("const __executionTracker = __metrics" ++ value
              ++ String ";" rest)))
  = (ws ++ "{ "
     ++ JavascriptHandler.declarationCallback "const"
          ("const __executionTracker = __metrics" ++ value ++ ";")
          "__executionTracker" ("__metrics" ++ value)
     ++ More.constPass rest)%string.
Proof.
  intros Hws Hvalue. rewrite (constPass_blanks ws _ Hws). f_equal.
  unfold More.constPass, JavascriptHandler.replace.
  rewrite (render_copy _ _ "{"); [|apply const_not_at; discriminate].
  rewrite (render_copy _ _ " "); [|apply const_not_at; discriminate].
  cbn [append]. do 2 f_equal.
  apply (render_match _ _ "c" _
           ("onst __executionTracker = __metrics" ++ value ++ ";") rest
           "__executionTracker" ("__metrics" ++ value)).
  - exact (const_at_tracker value rest Hvalue).
  - cbn [append]. rewrite !append_assoc. reflexivity.
Qed.

Lemma leadingWhitespace_blank (line : string) :
  Forall (fun c => Text.is_space c = true)
    (list_ascii_of_string (FlowInstrumentation.leadingWhitespace line)).
Proof. apply span_all. Qed.

(** X20.  The line [instrumentExecutionFlow] puts in front of a wrapped line
    declares its tracker with [const], and the rewrite of [const]
    declarations in [instrumentVariables] takes that declaration for one of
    the user's: it inserts a line feed and the tracking call for
    [__executionTracker] behind the first semicolon that follows.  For a
    line without a semicolon that is the end of the declaration; for a line
    with one it is inside the quoted copy of the line, between the opening
    quote and the closing one. *)
Theorem wrapper_line_is_rewritten (number : nat) (line : string) :
  let ws := FlowInstrumentation.leadingWhitespace line in
  let call :=
    (Text.newline ++ JavascriptHandler.indent8
     ++ JavascriptHandler.trackVariableCall "__executionTracker"
          (Some "const"))%string in
  (More.semicolonFree line = true ->
   More.constPass (FlowInstrumentation.openLine number line)
   = (ws ++ "{ const __executionTracker = " ++ More.trackerCall number line
      ++ "; " ++ call ++ " try {")%string)
  /\ (forall pre post,
        line = (pre ++ ";" ++ post)%string ->
        More.semicolonFree pre = true ->
        More.constPass (FlowInstrumentation.openLine number line)
        = (ws ++ "{ const __executionTracker = __metrics.trackExecution("
           ++ FlowInstrumentation.decimal number ++ ", '"
           ++ FlowInstrumentation.escapeQuotes pre ++ "; " ++ call
           ++ More.constPass
                (FlowInstrumentation.escapeQuotes post ++ "'); try {"))%string).
Proof.
  intros ws call. split.
  - intros Hline.
    transitivity
      (More.constPass
         (ws ++ String "{" (String " "
                  ("const __executionTracker = __metrics"
                   ++ (".trackExecution("
                       ++ FlowInstrumentation.decimal number ++ ", '"
                       ++ FlowInstrumentation.escapeQuotes line ++ "')")
                   ++ String ";" " try {")))%string).
    { f_equal. unfold FlowInstrumentation.openLine. fold ws. f_equal.
      cbn [append]. rewrite ?append_assoc. cbn [append].
      rewrite ?append_assoc. reflexivity. }
    rewrite constPass_wrapper.
    + unfold JavascriptHandler.declarationCallback, More.trackerCall, call.
      f_equal. change (More.constPass " try {") with " try {"%string.
      cbn [append]. rewrite ?append_assoc. cbn [append].
      rewrite ?append_assoc. reflexivity.
    + apply leadingWhitespace_blank.
    + rewrite !semicolonFree_app, semicolonFree_decimal,
        (semicolonFree_escapeQuotes _ Hline). reflexivity.
  - intros pre post -> Hpre.
    transitivity
      (More.constPass
         (ws ++ String "{" (String " "
                  ("const __executionTracker = __metrics"
                   ++ (".trackExecution("
                       ++ FlowInstrumentation.decimal number ++ ", '"
                       ++ FlowInstrumentation.escapeQuotes pre)
                   ++ String ";"
                        (FlowInstrumentation.escapeQuotes post
                         ++ "'); try {"))))%string).
    { f_equal. unfold FlowInstrumentation.openLine. fold ws. f_equal.
      rewrite !escapeQuotes_app.
      cbn [append FlowInstrumentation.escapeQuotes].
      change (Ascii.eqb ";" "'") with false. cbv iota.
      rewrite ?append_assoc. cbn [append].
      rewrite ?append_assoc. reflexivity. }
    rewrite constPass_wrapper.
    + unfold JavascriptHandler.declarationCallback, call.
      f_equal. cbn [append]. rewrite ?append_assoc. cbn [append].
      rewrite ?append_assoc. reflexivity.
    + apply leadingWhitespace_blank.
    + rewrite !semicolonFree_app, semicolonFree_decimal,
        (semicolonFree_escapeQuotes _ Hpre). reflexivity.
Qed.

Lemma wrapper_line_is_rewritten_witness :
  More.constPass (FlowInstrumentation.openLine 3 "  total += 1; done()")
  = ("  { const __executionTracker = __metrics.trackExecution("
     ++ FlowInstrumentation.decimal 3 ++ ", '"
     ++ FlowInstrumentation.escapeQuotes "  total += 1" ++ "; "
     ++ (Text.newline ++ JavascriptHandler.indent8
         ++ JavascriptHandler.trackVariableCall "__executionTracker"
              (Some "const"))
     ++ More.constPass
          (FlowInstrumentation.escapeQuotes " done()" ++ "'); try {"))%string.
Proof.
  exact (proj2 (wrapper_line_is_rewritten 3 "  total += 1; done()")
           "  total += 1" " done()" eq_refl eq_refl).
Defined.

(** ** The client's heatmap *)

Lemma stepsAt_app (l : N) (a b : list VisualizationService.Step.t) :
  More.stepsAt l (a ++ b) = (More.stepsAt l a ++ More.stepsAt l b)%list.
Proof. apply filter_app. Qed.

Lemma stepsAt_absent (l : N) (steps : list VisualizationService.Step.t) :
  ~ In l (map VisualizationService.Step.line steps) ->
  More.stepsAt l steps = [].
Proof.
  induction steps as [|s steps IH]; intros H; simpl; [reflexivity|].
  destruct (N.eqb_spec (VisualizationService.Step.line s) l) as [E|E].
  - exfalso. apply H. left. exact E.
  - apply IH. intros Hin. apply H. right. exact Hin.
Qed.

Lemma stepsAt_present (l : N) (steps : list VisualizationService.Step.t) :
  In l (map VisualizationService.Step.line steps) ->
  exists s rest, More.stepsAt l steps = s :: rest.
Proof.
  induction steps as [|s steps IH]; intros H; simpl; [destruct H|].
  destruct (N.eqb_spec (VisualizationService.Step.line s) l) as [E|E].
  - eauto.
  - destruct H as [H|H]; [contradiction | apply IH, H].
Qed.

Lemma groupAt_other (l : N) (steps : list VisualizationService.Step.t)
  (s : VisualizationService.Step.t) :
  VisualizationService.Step.line s <> l ->
  More.groupAt (steps ++ [s]) l = More.groupAt steps l.
Proof.
  intros H. unfold More.groupAt. rewrite stepsAt_app. simpl.
  destruct (N.eqb_spec (VisualizationService.Step.line s) l) as [E|E];
    [contradiction|].
  rewrite app_nil_r. reflexivity.
Qed.

Lemma heat_addStep_known (steps : list VisualizationService.Step.t)
  (keys : list N) (s : VisualizationService.Step.t) :
  NoDup keys -> In (VisualizationService.Step.line s) keys ->
  (forall l, In l keys -> In l (map VisualizationService.Step.line steps)) ->
  VisualizationService.addStep (map (fun l => (l, More.groupAt steps l)) keys)
    s
  = map (fun l => (l, More.groupAt (steps ++ [s]) l)) keys.
Proof.
  intros Hnd Hin Hkeys. unfold VisualizationService.addStep. cbv zeta.
  rewrite (obj_get_in N.eqb N.eqb_eq (More.groupAt steps) keys _ Hin).
  rewrite (obj_get_in N.eqb N.eqb_eq (More.groupAt steps) keys _ Hin).
  rewrite (obj_set_in N.eqb N.eqb_eq (More.groupAt steps) keys _ _ Hnd Hin).
  apply map_ext. intros l.
  destruct (N.eqb_spec l (VisualizationService.Step.line s)) as [->|E].
  - f_equal. unfold More.groupAt. rewrite stepsAt_app. simpl.
    rewrite N.eqb_refl.
    destruct (stepsAt_present _ _ (Hkeys _ Hin)) as (x & rest & Ex).
    rewrite Ex. cbn [VisualizationService.LineGroup.line
                       VisualizationService.LineGroup.code
                       VisualizationService.LineGroup.executions].
    rewrite <- Ex, map_app. simpl. rewrite Ex. reflexivity.
  - rewrite groupAt_other; [reflexivity|]. intros E'. apply E.
    symmetry. exact E'.
Qed.

Lemma heat_addStep_new (steps : list VisualizationService.Step.t)
  (keys : list N) (s : VisualizationService.Step.t) :
  ~ In (VisualizationService.Step.line s) keys ->
  (forall l, In l (map VisualizationService.Step.line steps) -> In l keys) ->
  VisualizationService.addStep (map (fun l => (l, More.groupAt steps l)) keys)
    s
  = map (fun l => (l, More.groupAt (steps ++ [s]) l))
      (keys ++ [VisualizationService.Step.line s]).
Proof.
  intros Hout Hlines. unfold VisualizationService.addStep. cbv zeta.
  assert (Hget : JsObject.get N.eqb
                   (map (fun l => (l, More.groupAt steps l)) keys)
                   (VisualizationService.Step.line s) = None).
  { apply (obj_get_out N.eqb N.eqb_eq (More.groupAt steps)). exact Hout. }
  rewrite Hget.
  rewrite (obj_set_out N.eqb N.eqb_eq (More.groupAt steps) keys _ _ Hout).
  rewrite (obj_get_last N.eqb N.eqb_eq _ _ _ Hget).
  rewrite (obj_set_last N.eqb N.eqb_eq _ _ _ _ Hget).
  rewrite map_app. simpl. f_equal.
  - apply map_ext_in. intros l Hl. rewrite groupAt_other; [reflexivity|].
    intros E. subst. contradiction.
  - unfold More.groupAt. rewrite stepsAt_app, stepsAt_absent.
    + simpl. rewrite N.eqb_refl. reflexivity.
    + intros Hin. apply Hout, Hlines, Hin.
Qed.

Lemma lineGroups_tabulated (steps : list VisualizationService.Step.t) :
  exists keys,
    fold_left VisualizationService.addStep steps JsObject.empty
    = map (fun l => (l, More.groupAt steps l)) keys
    /\ NoDup keys
    /\ (forall l, In l keys <->
          In l (map VisualizationService.Step.line steps)).
Proof.
  induction steps as [|s steps IH] using rev_ind.
  - exists []. repeat split; try constructor; intros H; destruct H.
  - destruct IH as (keys & Ho & Hnd & Hin).
    rewrite fold_left_app, Ho, map_app. simpl.
    destruct (in_dec N.eq_dec (VisualizationService.Step.line s) keys)
      as [Hk|Hk].
    + exists keys. split.
      { apply heat_addStep_known; try assumption. intros l. apply Hin. }
      split; [exact Hnd|].
      intros l. rewrite in_app_iff, <- Hin. simpl. intuition (subst; auto).
    + exists (keys ++ [VisualizationService.Step.line s])%list. split.
      { apply heat_addStep_new; try assumption. intros l. apply Hin. }
      split.
      { apply NoDup_app; [exact Hnd | repeat constructor; intros [] |].
        intros y Hy [Hx|[]]. subst. contradiction. }
      intros l. rewrite !in_app_iff, <- Hin. reflexivity.
Qed.

Lemma heat_insert_perm (row : VisualizationService.HeatmapRow.t)
  (sorted : list VisualizationService.HeatmapRow.t) :
  Permutation (VisualizationService.insert row sorted) (row :: sorted).
Proof.
  induction sorted as [|y rest IH]; simpl; [reflexivity|].
  destruct (0 <? VisualizationService.compare y row)%Z; [reflexivity|].
  rewrite IH. apply perm_swap.
Qed.

Lemma heat_sort_perm (rows : list VisualizationService.HeatmapRow.t) :
  Permutation (VisualizationService.sort rows) rows.
Proof.
  unfold VisualizationService.sort.
  assert (H : forall acc,
             Permutation
               (fold_left (fun sorted row =>
                             VisualizationService.insert row sorted) rows acc)
               (acc ++ rows)).
  { induction rows as [|r rows IH]; intros acc; simpl.
    - rewrite app_nil_r. reflexivity.
    - rewrite IH, heat_insert_perm. apply Permutation_middle. }
  exact (H []).
Qed.

Lemma heat_insert_sorted (row : VisualizationService.HeatmapRow.t)
  (sorted : list VisualizationService.HeatmapRow.t) :
  StronglySorted (fun a b => (VisualizationService.compare a b <= 0)%Z)
    sorted ->
  StronglySorted (fun a b => (VisualizationService.compare a b <= 0)%Z)
    (VisualizationService.insert row sorted).
Proof.
  induction 1 as [|y rest Hrest IH Hy]; simpl; [repeat constructor|].
  destruct (Z.ltb_spec 0 (VisualizationService.compare y row)) as [Hlt|Hge].
  - constructor; [constructor; assumption|].
    assert (Hrow : exists x ty,
               VisualizationService.HeatmapRow.totalDuration row = Some x
               /\ VisualizationService.HeatmapRow.totalDuration y = Some ty
               /\ (ty < x)%Z).
    { unfold VisualizationService.compare in Hlt.
      destruct (VisualizationService.HeatmapRow.totalDuration row) as [x|];
        [|lia].
      destruct (VisualizationService.HeatmapRow.totalDuration y) as [ty|];
        [|lia].
      exists x, ty. repeat split. lia. }
    destruct Hrow as (x & ty & Ex & Ey & Hxy).
    constructor.
    + unfold VisualizationService.compare. rewrite Ex, Ey. lia.
    + rewrite Forall_forall in *. intros z Hz. specialize (Hy z Hz).
      unfold VisualizationService.compare in *. rewrite Ex. rewrite Ey in Hy.
      destruct (VisualizationService.HeatmapRow.totalDuration z); lia.
  - constructor; [exact IH|].
    rewrite Forall_forall in *. intros z Hz.
    apply (Permutation_in _ (heat_insert_perm row rest)) in Hz.
    destruct Hz as [<-|Hz]; [exact Hge | apply Hy, Hz].
Qed.

Lemma heat_sort_sorted (rows : list VisualizationService.HeatmapRow.t) :
  StronglySorted (fun a b => (VisualizationService.compare a b <= 0)%Z)
    (VisualizationService.sort rows).
Proof.
  unfold VisualizationService.sort.
  assert (H : forall acc,
             StronglySorted
               (fun a b => (VisualizationService.compare a b <= 0)%Z) acc ->
             StronglySorted
               (fun a b => (VisualizationService.compare a b <= 0)%Z)
               (fold_left (fun sorted row =>
                             VisualizationService.insert row sorted)
                  rows acc)).
  { induction rows as [|r rows IH]; intros acc Hacc; simpl; [exact Hacc|].
    apply IH, heat_insert_sorted, Hacc. }
  apply H. constructor.
Qed.

Lemma heat_lines (steps : list VisualizationService.Step.t)
  (keys : list N) :
  map VisualizationService.HeatmapRow.line
    (flat_map VisualizationService.toHeatmapRow
       (map (More.groupAt steps) keys))
  = filter (fun l => (1 <? List.length (More.stepsAt l steps))%nat) keys.
Proof.
  induction keys as [|l keys IH]; [reflexivity|].
  cbn [map flat_map filter]. rewrite map_app, IH.
  unfold VisualizationService.toHeatmapRow, More.groupAt at 1.
  cbn [VisualizationService.LineGroup.executions
         VisualizationService.LineGroup.line]. rewrite length_map.
  destruct (1 <? List.length (More.stepsAt l steps))%nat; reflexivity.
Qed.

Lemma totalDurationOf_present (ss : list VisualizationService.Step.t) :
  (forall s, In s ss -> VisualizationService.Step.duration s <> None) ->
  forall acc,
    fold_left
      (fun sum exec =>
         VisualizationService.js_add sum
           (VisualizationService.Execution.duration exec))
      (map More.executionOf ss) (Some acc)
    = Some (acc + More.weightOf More.durationAt ss)%Z.
Proof.
  induction ss as [|s ss IH]; intros Hall acc; simpl.
  - f_equal. lia.
  - assert (Hs : VisualizationService.Step.duration s <> None)
      by (apply Hall; left; reflexivity).
    unfold More.durationAt at 1.
    destruct (VisualizationService.Step.duration s) as [d|];
      [|contradiction].
    cbn [VisualizationService.js_add durationOrZero].
    rewrite IH; [f_equal; lia|].
    intros x Hx. apply Hall. right. exact Hx.
Qed.

Lemma heat_rows_perm (steps : list VisualizationService.Step.t) :
  exists keys,
    Permutation (VisualizationService.generateTimeComplexityData steps)
      (flat_map VisualizationService.toHeatmapRow
         (map (More.groupAt steps) keys))
    /\ NoDup keys
    /\ (forall l, In l keys <->
          In l (map VisualizationService.Step.line steps)).
Proof.
  destruct (lineGroups_tabulated steps) as (keys & Ho & Hnd & Hin).
  exists keys. split; [|split; assumption].
  unfold VisualizationService.generateTimeComplexityData, JsObject.values.
  rewrite Ho, heat_sort_perm.
  apply Permutation_flat_map.
  rewrite (Permutation_map snd
             (entries_perm JsObject.number_index
                (map (fun l => (l, More.groupAt steps l)) keys))).
  rewrite map_map. cbn [snd]. apply Permutation_refl.
Qed.

Lemma sorted_among (A : Type) (R R' : A -> A -> Prop) (P : A -> Prop)
  (l : list A) :
  (forall a b, P a -> P b -> R a b -> R' a b) ->
  Forall P l -> StronglySorted R l -> StronglySorted R' l.
Proof.
  intros Himp HP. induction 1 as [|a l Hl IH Ha]; [constructor|].
  inversion HP as [|? ? Pa Pl]; subst.
  constructor; [apply IH, Pl|].
  rewrite Forall_forall in *. intros b Hb.
  apply Himp; [exact Pa | apply Pl, Hb | apply Ha, Hb].
Qed.

(** X21.  From a trace of line events that all carry a duration, the heatmap
    of the client keeps exactly the lines executed more than once, each once;
    the row of a line holds the number of its executions, the sum of their
    durations and that sum divided by the number; the rows stand in
    descending order of total duration. *)
Theorem heatmap_keeps_repeated_lines
  (steps : list VisualizationService.Step.t) :
  (forall s, In s steps -> VisualizationService.Step.duration s <> None) ->
  let rows := VisualizationService.generateTimeComplexityData steps in
  NoDup (map VisualizationService.HeatmapRow.line rows)
  /\ (forall l,
        In l (map VisualizationService.HeatmapRow.line rows)
        <-> (2 <= List.length (More.stepsAt l steps))%nat)
  /\ (forall row, In row rows ->
        let ss :=
          More.stepsAt (VisualizationService.HeatmapRow.line row) steps in
        VisualizationService.HeatmapRow.executionCount row = List.length ss
        /\ VisualizationService.HeatmapRow.totalDuration row
           = Some (More.weightOf More.durationAt ss)
        /\ VisualizationService.HeatmapRow.avgDuration row
           = Some (inject_Z (More.weightOf More.durationAt ss)
                   / inject_Z (Z.of_nat (List.length ss))))
  /\ StronglySorted More.notBelow rows.
Proof.
  intros Hall rows. subst rows.
  destruct (heat_rows_perm steps) as (keys & Hperm & Hnd & Hin).
  set (rows := VisualizationService.generateTimeComplexityData steps) in *.
  pose proof (Permutation_map VisualizationService.HeatmapRow.line Hperm)
    as Hlines.
  rewrite heat_lines in Hlines.
  assert (Hrow : forall row, In row rows ->
            let ss :=
              More.stepsAt (VisualizationService.HeatmapRow.line row) steps in
            VisualizationService.HeatmapRow.executionCount row
            = List.length ss
            /\ VisualizationService.HeatmapRow.totalDuration row
               = Some (More.weightOf More.durationAt ss)
            /\ VisualizationService.HeatmapRow.avgDuration row
               = Some (inject_Z (More.weightOf More.durationAt ss)
                       / inject_Z (Z.of_nat (List.length ss)))).
  { intros row Hrow. apply (Permutation_in _ Hperm) in Hrow.
    apply in_flat_map in Hrow. destruct Hrow as (g & Hg & Hrow).
    apply in_map_iff in Hg. destruct Hg as (l & <- & Hl).
    unfold VisualizationService.toHeatmapRow, More.groupAt in Hrow.
    cbn [VisualizationService.LineGroup.executions
           VisualizationService.LineGroup.line
           VisualizationService.LineGroup.code] in Hrow.
    rewrite length_map in Hrow.
    destruct (1 <? List.length (More.stepsAt l steps))%nat; [|destruct Hrow].
    destruct Hrow as [<-|[]].
    cbn [VisualizationService.HeatmapRow.line
           VisualizationService.HeatmapRow.executionCount
           VisualizationService.HeatmapRow.totalDuration
           VisualizationService.HeatmapRow.avgDuration].
    unfold VisualizationService.totalDurationOf.
    rewrite (totalDurationOf_present (More.stepsAt l steps)).
    - cbn [option_map]. rewrite Z.add_0_l. repeat split; reflexivity.
    - intros s Hs. apply Hall. unfold More.stepsAt in Hs.
      apply filter_In in Hs. apply Hs. }
  split; [|split; [|split]].
  - apply (Permutation_NoDup (Permutation_sym Hlines)).
    apply NoDup_filter, Hnd.
  - intros l. split.
    + intros H. apply (Permutation_in _ Hlines) in H.
      apply filter_In in H. destruct H as [_ H].
      apply Nat.ltb_lt in H. lia.
    + intros H. apply (Permutation_in _ (Permutation_sym Hlines)).
      apply filter_In. split; [|apply Nat.ltb_lt; lia].
      apply Hin.
      destruct (in_dec N.eq_dec l
                  (map VisualizationService.Step.line steps)) as [Hl|Hl];
        [exact Hl|].
      rewrite (stepsAt_absent l steps Hl) in H. simpl in H. lia.
  - exact Hrow.
  - apply (sorted_among _
             (fun a b => (VisualizationService.compare a b <= 0)%Z)
             More.notBelow
             (fun row =>
                exists x,
                  VisualizationService.HeatmapRow.totalDuration row = Some x)).
    + intros a b (x & Ex) (y & Ey) Hc. exists x, y.
      unfold VisualizationService.compare in Hc. rewrite Ex, Ey in Hc.
      repeat split; try assumption. lia.
    + apply Forall_forall. intros row Hr.
      destruct (Hrow row Hr) as (_ & Ht & _). eexists. exact Ht.
    + apply heat_sort_sorted.
Qed.

Lemma heatmap_keeps_repeated_lines_witness :
  In 7%N
    (map VisualizationService.HeatmapRow.line
       (VisualizationService.generateTimeComplexityData More.exampleSteps))
  /\ ~ In 4%N
        (map VisualizationService.HeatmapRow.line
           (VisualizationService.generateTimeComplexityData
              More.exampleSteps)).
Proof.
  assert (Hall : forall s, In s More.exampleSteps ->
                   VisualizationService.Step.duration s <> None).
  { intros s Hs. simpl in Hs.
    destruct Hs as [<-|[<-|[<-|[<-|[]]]]]; discriminate. }
  destruct (heatmap_keeps_repeated_lines More.exampleSteps Hall)
    as (_ & Hlines & _).
  split.
  - apply Hlines. vm_compute. lia.
  - intros H. apply Hlines in H. vm_compute in H. lia.
Defined.

Lemma processExecutionFlow_distinct (flow : list LineExecution.t) :
  NoDup (map LineRow.line (processExecutionFlow flow)).
Proof.
  unfold processExecutionFlow, JsObject.values.
  destruct (lineExecutions_tabulated flow) as (keys & Ho & Hnd & _).
  rewrite Ho.
  pose proof (entries_perm JsObject.number_index
                (map (fun l => (l, Spec.statsOf l flow)) keys)) as Hperm.
  apply (Permutation_map snd) in Hperm.
  apply (Permutation_map toRow) in Hperm.
  apply (Permutation_map LineRow.line) in Hperm.
  apply (Permutation_NoDup (Permutation_sym Hperm)).
  rewrite !map_map. cbn [snd toRow LineRow.line Spec.statsOf LineStats.line].
  rewrite map_id. exact Hnd.
Qed.

Lemma distinct_once {A : Type} (key : A -> N) (l : list A) (k : N) :
  NoDup (map key l) ->
  (List.length (filter (fun a => N.eqb (key a) k) l) <= 1)%nat.
Proof.
  induction l as [|a l IH]; intros Hnd; simpl; [lia|].
  inversion Hnd as [|? ? Ha Hl]; subst.
  destruct (N.eqb_spec (key a) k) as [E|E]; [|apply IH, Hl].
  simpl. assert (H : filter (fun b => N.eqb (key b) k) l = []).
  { clear IH Hnd Hl. induction l as [|b l IHl]; [reflexivity|]. simpl.
    destruct (N.eqb_spec (key b) k) as [Eb|Eb].
    - exfalso. apply Ha. left. congruence.
    - apply IHl. intros Hin. apply Ha. right. exact Hin. }
  rewrite H. simpl. lia.
Qed.

(** X22.  The heatmap the client computes from the metrics the server sends
    is always empty: the server's [processExecutionFlow] has already made one
    row per line, so every group the client forms has a single member, and
    the client keeps only groups of more than one. *)
Theorem heatmap_of_server_metrics_is_empty (metrics : RawMetrics.t) :
  VisualizationService.heatmapOf (processMetrics metrics) = [].
Proof.
  unfold VisualizationService.heatmapOf.
  cbn [processMetrics Processed.executionFlow].
  set (rows := processExecutionFlow (RawMetrics.executionFlow metrics)).
  set (steps := map VisualizationService.ofRow rows).
  assert (Hnd : NoDup (map VisualizationService.Step.line steps)).
  { unfold steps. rewrite map_map.
    cbn [VisualizationService.ofRow VisualizationService.Step.line].
    apply processExecutionFlow_distinct. }
  destruct (heat_rows_perm steps) as (keys & Hperm & _ & _).
  assert (Hempty : flat_map VisualizationService.toHeatmapRow
                     (map (More.groupAt steps) keys) = []).
  { clear Hperm. induction keys as [|l keys IH]; [reflexivity|].
    cbn [map flat_map]. rewrite IH, app_nil_r.
    unfold VisualizationService.toHeatmapRow, More.groupAt.
    cbn [VisualizationService.LineGroup.executions]. rewrite length_map.
    pose proof (distinct_once VisualizationService.Step.line steps l Hnd)
      as H1.
    fold (More.stepsAt l steps) in H1.
    destruct (Nat.ltb_spec 1 (List.length (More.stepsAt l steps)));
      [lia | reflexivity]. }
  rewrite Hempty in Hperm. apply Permutation_nil.
  apply Permutation_sym. exact Hperm.
Qed.

(** ** Languages, and the memory chart *)

(** X23.  The three places that name the languages agree: a language is
    advertised by [getSupportedLanguages] exactly when [validateCodeInput]
    accepts it, and exactly when the execution service has a handler
    registered for it. *)
Theorem advertised_languages_agree (language : string) :
  (In language (map Language.id getSupportedLanguages)
   <-> JsObject.mem_string language Validation.supportedLanguages = true)
  /\ (In language (map Language.id getSupportedLanguages)
      <-> exists h, languageHandlers language = registered h).
Proof.
  assert (Hin : In language (map Language.id getSupportedLanguages)
                <-> language = "javascript" \/ language = "python").
  { cbn. split.
    - intros [<-|[<-|[]]]; auto.
    - intros [->| ->]; auto. }
  split; rewrite Hin.
  - unfold JsObject.mem_string, Validation.supportedLanguages.
    cbn [existsb]. rewrite orb_false_r, orb_true_iff, !String.eqb_eq.
    reflexivity.
  - unfold languageHandlers. split.
    + intros [->| ->]; eexists; reflexivity.
    + intros (h & H).
      destruct (String.eqb_spec language "javascript") as [E|_]; [auto|].
      destruct (String.eqb_spec language "python") as [E|_]; [auto|].
      destruct (_ || _); discriminate H.
Qed.


(** ** The rate limiter *)

Lemma lookup_update_same {V : Type} (o : @JsObject.t string V) (k : string)
  (v : V) :
  JsObject.get String.eqb (JsObject.set String.eqb o k v) k = Some v.
Proof.
  induction o as [|[k' v'] o IH]; simpl.
  - rewrite String.eqb_refl. reflexivity.
  - destruct (String.eqb_spec k' k) as [E|E]; simpl.
    + subst. rewrite String.eqb_refl. reflexivity.
    + destruct (String.eqb_spec k' k); [contradiction | exact IH].
Qed.

Lemma lookup_update_other {V : Type} (o : @JsObject.t string V)
  (k k' : string) (v : V) :
  k <> k' ->
  JsObject.get String.eqb (JsObject.set String.eqb o k v) k'
  = JsObject.get String.eqb o k'.
Proof.
  intros H. induction o as [|[k0 v0] o IH]; simpl.
  - destruct (String.eqb_spec k k'); [contradiction | reflexivity].
  - destruct (String.eqb_spec k0 k) as [E|E]; simpl.
    + subst k0. destruct (String.eqb_spec k k'); [contradiction|reflexivity].
    + destruct (String.eqb_spec k0 k'); [reflexivity | exact IH].
Qed.

Lemma rateLimiter_other (req : Security.Request.t)
  (requestCounts : Security.requestCountsT) (ip : string) :
  Security.Request.ip req <> ip ->
  JsObject.get String.eqb (fst (Security.rateLimiter req requestCounts)) ip
  = JsObject.get String.eqb requestCounts ip.
Proof.
  intros H. unfold Security.rateLimiter. cbv zeta.
  destruct (JsObject.get String.eqb requestCounts (Security.Request.ip req)).
  - cbn [fst]. apply lookup_update_other, H.
  - destruct (VariableTracing.inherited (Security.Request.ip req));
      cbn [fst]; [reflexivity|]. apply lookup_update_other, H.
Qed.

Lemma answerAt_count (n : nat) :
  (if (Security.MAX_REQUESTS <? Z.of_nat n)%Z
   then Security.tooManyRequests else Security.next)
  = More.answerAt n.
Proof.
  unfold More.answerAt, Security.MAX_REQUESTS.
  destruct (Z.ltb_spec 60 (Z.of_nat n)), (Nat.leb_spec n 60);
    try reflexivity; lia.
Qed.

Lemma rateLimiter_in_window (req : Security.Request.t)
  (requestCounts : Security.requestCountsT) (c : nat) (reset : Z) :
  JsObject.get String.eqb requestCounts (Security.Request.ip req)
  = Some (Security.Counter.mk (Z.of_nat c) reset) ->
  (Security.Request.now req < reset)%Z ->
  Security.rateLimiter req requestCounts
  = (JsObject.set String.eqb requestCounts (Security.Request.ip req)
       (Security.Counter.mk (Z.of_nat (S c)) reset),
     More.answerAt (S c)).
Proof.
  intros Hget Hnow. unfold Security.rateLimiter. cbv zeta. rewrite Hget.
  cbn [Security.Counter.resetTime].
  destruct (Z.leb_spec reset (Security.Request.now req)); [lia|].
  unfold Security.increment.
  cbn [Security.Counter.count Security.Counter.resetTime].
  replace (Z.of_nat c + 1)%Z with (Z.of_nat (S c)) by lia.
  rewrite answerAt_count. reflexivity.
Qed.

Lemma answers_in_window (ip : string) (reset : Z)
  (requests : list Security.Request.t) :
  (forall req, In req requests -> Security.Request.ip req = ip ->
               (Security.Request.now req < reset)%Z) ->
  forall (requestCounts : Security.requestCountsT) (c : nat),
    JsObject.get String.eqb requestCounts ip
    = Some (Security.Counter.mk (Z.of_nat c) reset) ->
    More.answersFor ip requests requestCounts
    = map More.answerAt
        (seq (S c)
           (List.length
              (filter (fun req => String.eqb (Security.Request.ip req) ip)
                 requests))).
Proof.
  induction requests as [|req rest IH]; intros Hin s c Hget;
    [reflexivity|].
  cbn [More.answersFor filter].
  destruct (String.eqb_spec (Security.Request.ip req) ip) as [E|E].
  - assert (Hnow : (Security.Request.now req < reset)%Z)
      by (apply Hin; [left; reflexivity | exact E]).
    rewrite <- E in Hget.
    rewrite (rateLimiter_in_window req s c reset Hget Hnow).
    cbn [List.length seq map app]. f_equal.
    apply IH.
    + intros x Hx. apply Hin. right. exact Hx.
    + rewrite <- E. apply lookup_update_same.
  - pose proof (rateLimiter_other req s ip E) as Ho.
    destruct (Security.rateLimiter req s) as [s' a]. cbn [fst] in Ho.
    cbn [app]. apply IH.
    + intros x Hx. apply Hin. right. exact Hx.
    + rewrite Ho. exact Hget.
Qed.

Lemma rateLimiter_fresh (req : Security.Request.t)
  (requestCounts : Security.requestCountsT) :
  VariableTracing.inherited (Security.Request.ip req) = false ->
  More.freshFor (Security.Request.ip req) (Security.Request.now req)
    requestCounts ->
  Security.rateLimiter req requestCounts
  = (JsObject.set String.eqb requestCounts (Security.Request.ip req)
       (Security.Counter.mk 1 (More.windowEnd req requestCounts)),
     Security.next).
Proof.
  intros Hord Hfresh. unfold Security.rateLimiter, More.freshFor,
    More.windowEnd in *. cbv zeta.
  destruct (JsObject.get String.eqb requestCounts (Security.Request.ip req))
    as [entry|].
  - destruct (Z.leb_spec (Security.Counter.resetTime entry)
                (Security.Request.now req)); [reflexivity | lia].
  - rewrite Hord. reflexivity.
Qed.

Lemma passed_in_window (n : nat) :
  Spec.count (fun a => match a with
                       | Security.next => true
                       | Security.tooManyRequests => false
                       end)
    (map More.answerAt (seq 1 n))
  = Nat.min n 60.
Proof.
  induction n as [|n IH]; [reflexivity|].
  rewrite seq_S, map_app, count_app, IH. cbn [map Nat.add].
  unfold Spec.count, More.answerAt. cbn [filter].
  destruct (Nat.leb_spec (S n) 60); cbn [List.length]; lia.
Qed.

(** X25.  Once a request of an address opens a window (the address is not
    yet known, or its previous window is over), the limiter answers the
    requests of that address that arrive before the window ends by their
    number in the window alone: the first 60 go on and every further one is
    answered "too many requests", whatever the other addresses send in
    between.  So exactly [min n 60] of the [n] requests of a window go on. *)
Theorem rate_limit_per_window (first : Security.Request.t)
  (rest : list Security.Request.t)
  (requestCounts : Security.requestCountsT) :
  let ip := Security.Request.ip first in
  VariableTracing.inherited ip = false ->
  More.freshFor ip (Security.Request.now first) requestCounts ->
  (forall req, In req rest -> Security.Request.ip req = ip ->
     (Security.Request.now req < More.windowEnd first requestCounts)%Z) ->
  let n :=
    S (List.length
         (filter (fun req => String.eqb (Security.Request.ip req) ip)
            rest)) in
  let answers := More.answersFor ip (first :: rest) requestCounts in
  answers = map More.answerAt (seq 1 n)
  /\ Spec.count (fun a => match a with
                          | Security.next => true
                          | Security.tooManyRequests => false
                          end) answers
     = Nat.min n 60.
Proof.
  intros ip Hord Hfresh Hrest n answers.
  assert (E : answers = map More.answerAt (seq 1 n)).
  { subst answers n. cbn [More.answersFor].
    rewrite (rateLimiter_fresh first requestCounts Hord Hfresh).
    fold ip. rewrite String.eqb_refl. cbn [app seq map]. f_equal.
    apply (answers_in_window ip (More.windowEnd first requestCounts) rest
             Hrest _ 1%nat).
    apply lookup_update_same. }
  split; [exact E|]. rewrite E. apply passed_in_window.
Qed.

Lemma rate_limit_per_window_witness :
  More.answersFor "10.0.0.1"
    [ Security.Request.mk "10.0.0.1" 1000 1000;
      Security.Request.mk "10.0.0.2" 1500 1500;
      Security.Request.mk "10.0.0.1" 2000 2000 ]
    JsObject.empty
  = [Security.next; Security.next].
Proof.
  refine (proj1 (rate_limit_per_window
                   (Security.Request.mk "10.0.0.1" 1000 1000)
                   [ Security.Request.mk "10.0.0.2" 1500 1500;
                     Security.Request.mk "10.0.0.1" 2000 2000 ]
                   JsObject.empty _ _ _)).
  - reflexivity.
  - exact I.
  - intros req [<-|[<-|[]]] E; [discriminate E|].
    vm_compute. reflexivity.
Defined.

(** ** The user code inside the Python program *)

Lemma lastClose_prefix (s m : string) :
  PythonText.lastClose s = Some m -> exists tail, s = (m ++ tail)%string.
Proof.
  revert m. induction s as [|c s IH]; intros m H; [discriminate H|].
  cbn [PythonText.lastClose] in H.
  destruct (PythonText.lastClose s) as [m'|].
  - injection H as <-. destruct (IH m' eq_refl) as (tail & ->).
    exists tail. reflexivity.
  - destruct (String.prefix "):" (String c s)) eqn:E; [|discriminate H].
    injection H as <-. apply prefix_split, E.
Qed.

(** What a match of the function-definition expression looks like. *)
Lemma functionDefinitionAt_match (s matched indentation definition : string) :
  PythonText.functionDefinitionAt s
  = Some (matched, indentation, definition) ->
  matched = (indentation ++ definition)%string
  /\ Forall (fun c => Text.is_space c = true)
       (list_ascii_of_string indentation)
  /\ String.prefix "def" definition = true
  /\ exists rest, s = (matched ++ rest)%string.
Proof.
  unfold PythonText.functionDefinitionAt.
  pose proof (span_append Text.is_space s) as H0.
  pose proof (span_all Text.is_space s) as Hblank.
  destruct (Text.span Text.is_space s) as [ind s1]. cbn [fst snd] in *.
  destruct (String.prefix "def" s1) eqn:Edef; [|discriminate].
  apply prefix_split in Edef. destruct Edef as (s2 & ->).
  change (Text.drop 3 ("def" ++ s2)) with s2.
  pose proof (span_append Text.is_space s2) as H2.
  destruct (Text.span Text.is_space s2) as [ws1 s3]. cbn [fst snd] in *.
  destruct ws1 as [|w ws1]; [discriminate|].
  destruct s3 as [|c s3']; [discriminate|].
  destruct (PythonText.is_name_start c); [|discriminate].
  pose proof (span_append PythonText.is_name_char (String c s3')) as H3.
  destruct (Text.span PythonText.is_name_char (String c s3')) as [name s4].
  cbn [fst snd] in *.
  pose proof (span_append Text.is_space s4) as H4.
  destruct (Text.span Text.is_space s4) as [ws2 s5]. cbn [fst snd] in *.
  destruct s5 as [|c5 s6]; [discriminate|].
  destruct (Ascii.eqb_spec c5 "(") as [->|]; [|discriminate].
  pose proof (span_append PythonText.not_terminator s6) as H6.
  destruct (Text.span PythonText.not_terminator s6) as [line after].
  cbn [fst snd] in *.
  destruct (PythonText.lastClose line) as [arguments|] eqn:El;
    [|discriminate].
  destruct (lastClose_prefix _ _ El) as (tail & ->).
  intros E. injection E as <- <- <-.
  split; [reflexivity|]. split; [exact Hblank|].
  split; [reflexivity|].
  exists (tail ++ after)%string.
  rewrite <- H0, <- H2, <- H3, <- H4, <- H6.
  rewrite !append_assoc. cbn [append]. rewrite !append_assoc.
  reflexivity.
Qed.

Lemma functionDefinitionAt_prefix (s matched indentation definition : string) :
  PythonText.functionDefinitionAt s
  = Some (matched, indentation, definition) ->
  exists c m rest, matched = String c m /\ s = (matched ++ rest)%string.
Proof.
  intros H.
  destruct (functionDefinitionAt_match _ _ _ _ H)
    as (-> & _ & Hdef & rest & Hs).
  apply prefix_split in Hdef. destruct Hdef as (d & ->).
  destruct indentation as [|a ind].
  - exists "d"%char, ("ef" ++ d)%string, rest. split; [reflexivity|].
    exact Hs.
  - exists a, (ind ++ "def" ++ d)%string, rest. split; [reflexivity|].
    exact Hs.
Qed.

Lemma segments_decorated (s : string) :
  forall skip,
    Forall More.decoratedSegment
      (JavascriptHandler.segments PythonText.functionDefinitionAt
         PythonText.decorate skip s).
Proof.
  induction s as [|c s IH]; intros skip; [destruct skip; constructor|].
  destruct skip as [|k]; cbn [JavascriptHandler.segments]; [|apply IH].
  destruct (PythonText.functionDefinitionAt (String c s))
    as [[[matched indentation] definition]|] eqn:E.
  - constructor; [|apply IH].
    destruct (functionDefinitionAt_match _ _ _ _ E) as (H1 & H2 & H3 & _).
    repeat split; assumption.
  - constructor; [exact I | apply IH].
Qed.

(** X26.  With function tracking off, the user code goes into the Python
    program with four blanks in front of every line and is otherwise
    unchanged: the lines of the result are the lines of the code, each with
    the four blanks, and taking the blanks away again gives the code back. *)
Theorem python_indentation_round_trip (code : string) :
  Lines.split (PythonText.processedUserCode code false)
  = map (fun line => ("    " ++ line)%string) (Lines.split code)
  /\ Lines.join Text.newline
       (map (Text.drop 4)
          (Lines.split (PythonText.processedUserCode code false)))
     = code.
Proof.
  assert (E : Lines.split (PythonText.processedUserCode code false)
              = map (fun line => ("    " ++ line)%string)
                  (Lines.split code)).
  { unfold PythonText.processedUserCode, PythonText.indentUserCode.
    apply split_join.
    - pose proof (split_noNewline code) as H.
      induction H as [|l ls Hl _ IH]; [constructor|].
      cbn [map]. constructor; [|exact IH].
      rewrite noNewline_app, Hl. reflexivity.
    - pose proof (split_nonempty code) as H.
      destruct (Lines.split code); [contradiction | discriminate]. }
  split; [exact E|].
  rewrite E, map_map.
  rewrite (map_ext _ (fun line => line)), map_id; [apply join_split|].
  intros line. reflexivity.
Qed.

(** X27.  [instrumentPythonFunctions] only inserts: its result is the code
    with, at every place where the function-definition expression matches,
    the decorator line put between the indentation and the definition, at
    that same indentation; everything else is copied.  With function
    tracking on this is applied to the indented user code. *)
Theorem python_decorators_are_inserted (code : string) :
  let segs :=
    JavascriptHandler.segments PythonText.functionDefinitionAt
      PythonText.decorate 0 code in
  Spec.sourceText segs = code
  /\ PythonText.instrumentPythonFunctions code
     = JavascriptHandler.render segs
  /\ Forall More.decoratedSegment segs
  /\ PythonText.processedUserCode code true
     = PythonText.instrumentPythonFunctions (PythonText.indentUserCode code).
Proof.
  intros segs. subst segs. split.
  { rewrite (segments_cover _ _ functionDefinitionAt_prefix), drop_zero.
    reflexivity. }
  split; [reflexivity|]. split; [apply segments_decorated | reflexivity].
Qed.

(** ** The client's execution-flow chart *)

Lemma chartGroupAt_other (l : N) (steps : list VisualizationService.Step.t)
  (s : VisualizationService.Step.t) :
  VisualizationService.Step.line s <> l ->
  More.chartGroupAt (steps ++ [s]) l = More.chartGroupAt steps l.
Proof.
  intros H. unfold More.chartGroupAt. rewrite stepsAt_app. simpl.
  destruct (N.eqb_spec (VisualizationService.Step.line s) l) as [E|E];
    [contradiction|].
  rewrite app_nil_r. reflexivity.
Qed.

Lemma chart_addStep_known (steps : list VisualizationService.Step.t)
  (keys : list N) (s : VisualizationService.Step.t) :
  NoDup keys -> In (VisualizationService.Step.line s) keys ->
  (forall l, In l keys -> In l (map VisualizationService.Step.line steps)) ->
  ExecutionFlowComponent.addStep
    (map (fun l => (l, More.chartGroupAt steps l)) keys) s
  = map (fun l => (l, More.chartGroupAt (steps ++ [s]) l)) keys.
Proof.
  intros Hnd Hin Hkeys. unfold ExecutionFlowComponent.addStep. cbv zeta.
  rewrite (obj_get_in N.eqb N.eqb_eq (More.chartGroupAt steps) keys _ Hin).
  rewrite (obj_get_in N.eqb N.eqb_eq (More.chartGroupAt steps) keys _ Hin).
  rewrite (obj_set_in N.eqb N.eqb_eq (More.chartGroupAt steps) keys _ _
             Hnd Hin).
  apply map_ext. intros l.
  destruct (N.eqb_spec l (VisualizationService.Step.line s)) as [->|E].
  - f_equal. unfold More.chartGroupAt. rewrite stepsAt_app. simpl.
    rewrite N.eqb_refl.
    destruct (stepsAt_present _ _ (Hkeys _ Hin)) as (x & rest & Ex).
    rewrite Ex. cbn [ExecutionFlowComponent.LineGroup.line
                       ExecutionFlowComponent.LineGroup.code
                       ExecutionFlowComponent.LineGroup.executionCount
                       ExecutionFlowComponent.LineGroup.totalDuration].
    rewrite <- Ex. unfold More.totalAt.
    rewrite fold_left_app, length_app. cbn [fold_left List.length].
    rewrite Ex. reflexivity.
  - rewrite chartGroupAt_other; [reflexivity|]. intros E'. apply E.
    symmetry. exact E'.
Qed.

Lemma chart_addStep_new (steps : list VisualizationService.Step.t)
  (keys : list N) (s : VisualizationService.Step.t) :
  ~ In (VisualizationService.Step.line s) keys ->
  (forall l, In l (map VisualizationService.Step.line steps) -> In l keys) ->
  ExecutionFlowComponent.addStep
    (map (fun l => (l, More.chartGroupAt steps l)) keys) s
  = map (fun l => (l, More.chartGroupAt (steps ++ [s]) l))
      (keys ++ [VisualizationService.Step.line s]).
Proof.
  intros Hout Hlines. unfold ExecutionFlowComponent.addStep. cbv zeta.
  assert (Hget : JsObject.get N.eqb
                   (map (fun l => (l, More.chartGroupAt steps l)) keys)
                   (VisualizationService.Step.line s) = None).
  { apply (obj_get_out N.eqb N.eqb_eq (More.chartGroupAt steps)).
    exact Hout. }
  rewrite Hget.
  rewrite (obj_set_out N.eqb N.eqb_eq (More.chartGroupAt steps) keys _ _
             Hout).
  rewrite (obj_get_last N.eqb N.eqb_eq _ _ _ Hget).
  rewrite (obj_set_last N.eqb N.eqb_eq _ _ _ _ Hget).
  rewrite map_app. simpl. f_equal.
  - apply map_ext_in. intros l Hl. rewrite chartGroupAt_other;
      [reflexivity|]. intros E. subst. contradiction.
  - unfold More.chartGroupAt. rewrite stepsAt_app, stepsAt_absent.
    + simpl. rewrite N.eqb_refl. reflexivity.
    + intros Hin. apply Hout, Hlines, Hin.
Qed.

Lemma chartGroups_tabulated (steps : list VisualizationService.Step.t) :
  exists keys,
    fold_left ExecutionFlowComponent.addStep steps JsObject.empty
    = map (fun l => (l, More.chartGroupAt steps l)) keys
    /\ NoDup keys
    /\ (forall l, In l keys <->
          In l (map VisualizationService.Step.line steps)).
Proof.
  induction steps as [|s steps IH] using rev_ind.
  - exists []. repeat split; try constructor; intros H; destruct H.
  - destruct IH as (keys & Ho & Hnd & Hin).
    rewrite fold_left_app, Ho, map_app. simpl.
    destruct (in_dec N.eq_dec (VisualizationService.Step.line s) keys)
      as [Hk|Hk].
    + exists keys. split.
      { apply chart_addStep_known; try assumption. intros l. apply Hin. }
      split; [exact Hnd|].
      intros l. rewrite in_app_iff, <- Hin. simpl. intuition (subst; auto).
    + exists (keys ++ [VisualizationService.Step.line s])%list. split.
      { apply chart_addStep_new; try assumption. intros l. apply Hin. }
      split.
      { apply NoDup_app; [exact Hnd | repeat constructor; intros [] |].
        intros y Hy [Hx|[]]. subst. contradiction. }
      intros l. rewrite !in_app_iff, <- Hin. reflexivity.
Qed.

Lemma chart_insert_perm (row : ExecutionFlowComponent.ChartRow.t)
  (sorted : list ExecutionFlowComponent.ChartRow.t) :
  Permutation (ExecutionFlowComponent.insert row sorted) (row :: sorted).
Proof.
  induction sorted as [|y rest IH]; simpl; [reflexivity|].
  destruct (0 <? ExecutionFlowComponent.compare y row)%Z; [reflexivity|].
  rewrite IH. apply perm_swap.
Qed.

Lemma chart_sort_perm (rows : list ExecutionFlowComponent.ChartRow.t) :
  Permutation (ExecutionFlowComponent.sort rows) rows.
Proof.
  unfold ExecutionFlowComponent.sort.
  assert (H : forall acc,
             Permutation
               (fold_left (fun sorted row =>
                             ExecutionFlowComponent.insert row sorted)
                  rows acc)
               (acc ++ rows)).
  { induction rows as [|r rows IH]; intros acc; simpl.
    - rewrite app_nil_r. reflexivity.
    - rewrite IH, chart_insert_perm. apply Permutation_middle. }
  exact (H []).
Qed.

Lemma chart_insert_sorted (row : ExecutionFlowComponent.ChartRow.t)
  (sorted : list ExecutionFlowComponent.ChartRow.t) :
  StronglySorted
    (fun a b => (ExecutionFlowComponent.ChartRow.line a
                 <= ExecutionFlowComponent.ChartRow.line b)%N) sorted ->
  StronglySorted
    (fun a b => (ExecutionFlowComponent.ChartRow.line a
                 <= ExecutionFlowComponent.ChartRow.line b)%N)
    (ExecutionFlowComponent.insert row sorted).
Proof.
  induction 1 as [|y rest Hrest IH Hy]; simpl; [repeat constructor|].
  unfold ExecutionFlowComponent.compare.
  destruct (Z.ltb_spec 0
              (Z.of_N (ExecutionFlowComponent.ChartRow.line y)
               - Z.of_N (ExecutionFlowComponent.ChartRow.line row)))
    as [Hlt|Hge].
  - constructor; [constructor; assumption|].
    constructor; [lia|].
    rewrite Forall_forall in *. intros z Hz. specialize (Hy z Hz). lia.
  - constructor; [exact IH|].
    rewrite Forall_forall in *. intros z Hz.
    apply (Permutation_in _ (chart_insert_perm row rest)) in Hz.
    destruct Hz as [<-|Hz]; [lia | apply Hy, Hz].
Qed.

Lemma chart_sort_sorted (rows : list ExecutionFlowComponent.ChartRow.t) :
  StronglySorted
    (fun a b => (ExecutionFlowComponent.ChartRow.line a
                 <= ExecutionFlowComponent.ChartRow.line b)%N)
    (ExecutionFlowComponent.sort rows).
Proof.
  unfold ExecutionFlowComponent.sort.
  assert (H : forall acc,
             StronglySorted
               (fun a b => (ExecutionFlowComponent.ChartRow.line a
                            <= ExecutionFlowComponent.ChartRow.line b)%N)
               acc ->
             StronglySorted
               (fun a b => (ExecutionFlowComponent.ChartRow.line a
                            <= ExecutionFlowComponent.ChartRow.line b)%N)
               (fold_left (fun sorted row =>
                             ExecutionFlowComponent.insert row sorted)
                  rows acc)).
  { induction rows as [|r rows IH]; intros acc Hacc; simpl; [exact Hacc|].
    apply IH, chart_insert_sorted, Hacc. }
  apply H. constructor.
Qed.

Lemma chart_rows_perm (steps : list VisualizationService.Step.t) :
  exists keys,
    Permutation (ExecutionFlowComponent.processExecutionFlowData steps)
      (map (fun l =>
              ExecutionFlowComponent.toChartRow (More.chartGroupAt steps l))
         keys)
    /\ NoDup keys
    /\ (forall l, In l keys <->
          In l (map VisualizationService.Step.line steps)).
Proof.
  destruct (chartGroups_tabulated steps) as (keys & Ho & Hnd & Hin).
  exists keys. split; [|split; assumption].
  unfold ExecutionFlowComponent.processExecutionFlowData, JsObject.values.
  rewrite Ho, chart_sort_perm.
  rewrite (Permutation_map ExecutionFlowComponent.toChartRow
             (Permutation_map snd
                (entries_perm JsObject.number_index
                   (map (fun l => (l, More.chartGroupAt steps l)) keys)))).
  rewrite !map_map. cbn [snd]. apply Permutation_refl.
Qed.

(** X28.  The execution-flow chart the client draws from the metrics the
    server sends has one row per executed line, in ascending order of line
    number, but the numbers of the server are lost: the client groups the
    server's rows as if they were single line events, so every row shows an
    execution count of 1, and a total and an average duration that are
    [NaN], however often the line ran and however long it took. *)
Theorem chart_of_server_metrics (metrics : RawMetrics.t) :
  let rows := ExecutionFlowComponent.chartOf (processMetrics metrics) in
  StronglySorted N.lt (map ExecutionFlowComponent.ChartRow.line rows)
  /\ (forall l,
        In l (map ExecutionFlowComponent.ChartRow.line rows)
        <-> In l (map LineExecution.line (RawMetrics.executionFlow metrics)))
  /\ Forall (fun row =>
               ExecutionFlowComponent.ChartRow.executionCount row = 1%nat
               /\ ExecutionFlowComponent.ChartRow.totalDuration row = None
               /\ ExecutionFlowComponent.ChartRow.averageDuration row = None)
       rows.
Proof.
  cbn zeta. unfold ExecutionFlowComponent.chartOf.
  cbn [processMetrics Processed.executionFlow].
  set (flow := RawMetrics.executionFlow metrics).
  set (steps := map VisualizationService.ofRow (processExecutionFlow flow)).
  assert (Hlines : map VisualizationService.Step.line steps
                   = map LineRow.line (processExecutionFlow flow)).
  { unfold steps. rewrite map_map. reflexivity. }
  assert (Hnd : NoDup (map VisualizationService.Step.line steps)).
  { rewrite Hlines. apply processExecutionFlow_distinct. }
  assert (Hnone : forall s, In s steps ->
                    VisualizationService.Step.duration s = None).
  { intros s Hs. unfold steps in Hs. apply in_map_iff in Hs.
    destruct Hs as (r & <- & _). reflexivity. }
  destruct (chart_rows_perm steps) as (keys & Hperm & Hk & Hin).
  set (rows := ExecutionFlowComponent.processExecutionFlowData steps) in *.
  pose proof (Permutation_map ExecutionFlowComponent.ChartRow.line Hperm)
    as Hl.
  rewrite map_map in Hl.
  cbn [ExecutionFlowComponent.toChartRow ExecutionFlowComponent.ChartRow.line
         More.chartGroupAt ExecutionFlowComponent.LineGroup.line] in Hl.
  rewrite map_id in Hl.
  split; [|split].
  - apply sorted_distinct_strict.
    + pose proof (chart_sort_sorted
                    (map ExecutionFlowComponent.toChartRow
                       (JsObject.values JsObject.number_index
                          (fold_left ExecutionFlowComponent.addStep steps
                             JsObject.empty)))) as Hs.
      fold (ExecutionFlowComponent.processExecutionFlowData steps) in Hs.
      fold rows in Hs. clear -Hs.
      induction Hs as [|a l Hl IH Ha]; [constructor|].
      cbn [map]. constructor; [exact IH|].
      rewrite Forall_forall in *. intros x Hx. apply in_map_iff in Hx.
      destruct Hx as (b & <- & Hb). apply Ha, Hb.
    + apply (Permutation_NoDup (Permutation_sym Hl)), Hk.
  - intros l. split; intros H.
    + apply (Permutation_in _ Hl) in H. apply Hin in H.
      rewrite Hlines in H.
      pose proof (lineExecutions_tabulated flow) as (keys' & Ho & _ & Hin').
      unfold processExecutionFlow, JsObject.values in H. rewrite Ho in H.
      apply in_map_iff in H. destruct H as (row & <- & Hrow).
      apply in_map_iff in Hrow. destruct Hrow as (st & <- & Hst).
      apply in_map_iff in Hst. destruct Hst as (e & <- & He).
      apply (Permutation_in _ (entries_perm _ _)) in He.
      apply in_map_iff in He. destruct He as (k & <- & Hk').
      cbn [snd toRow LineRow.line Spec.statsOf LineStats.line].
      apply Hin', Hk'.
    + apply (Permutation_in _ (Permutation_sym Hl)). apply Hin.
      rewrite Hlines.
      pose proof (lineExecutions_tabulated flow) as (keys' & Ho & _ & Hin').
      unfold processExecutionFlow, JsObject.values. rewrite Ho.
      apply Hin' in H.
      apply in_map_iff.
      exists (toRow (Spec.statsOf l flow)). split; [reflexivity|].
      apply in_map. apply in_map_iff.
      exists (l, Spec.statsOf l flow). split; [reflexivity|].
      apply (Permutation_in _ (Permutation_sym (entries_perm _ _))).
      apply in_map_iff. exists l. split; [reflexivity | exact H].
  - apply Forall_forall. intros row Hrow.
    apply (Permutation_in _ Hperm) in Hrow.
    apply in_map_iff in Hrow. destruct Hrow as (l & <- & Hl').
    destruct (stepsAt_present l steps (proj1 (Hin l) Hl')) as (s & rest & E).
    pose proof (distinct_once VisualizationService.Step.line steps l Hnd)
      as Hone.
    fold (More.stepsAt l steps) in Hone. rewrite E in Hone.
    destruct rest as [|s' rest]; [|simpl in Hone; lia].
    assert (Hs : VisualizationService.Step.duration s = None).
    { apply Hnone. assert (Hs : In s (More.stepsAt l steps))
        by (rewrite E; left; reflexivity).
      unfold More.stepsAt in Hs. apply filter_In in Hs. apply Hs. }
    unfold ExecutionFlowComponent.toChartRow, More.chartGroupAt.
    rewrite E.
    cbn [ExecutionFlowComponent.ChartRow.executionCount
           ExecutionFlowComponent.ChartRow.totalDuration
           ExecutionFlowComponent.ChartRow.averageDuration
           ExecutionFlowComponent.LineGroup.executionCount
           ExecutionFlowComponent.LineGroup.totalDuration
           List.length More.totalAt fold_left].
    rewrite Hs. repeat split; reflexivity.
Qed.

(** ** The Python program *)

(** X29.  The program [pythonHandler.instrumentCode] builds reports nothing,
    whatever the options and the user code: every condition of its collector
    is written [true] or [false], names Python does not know, so the initial
    [metrics.track_memory()], which stands before the [try], ends the program
    with a [NameError].  No sample, event or marker is printed; the shell
    exits with an error, and the handler's promise is rejected with it. *)
Theorem python_program_reports_nothing {value : Type}
  (stringify : value -> option string) (typeOf : value -> string)
  (options : Options.t) (r : Collector.readings)
  (b : Collector.behaviour value) :
  PythonHandler.instrumentCode stringify typeOf options r b = []
  /\ PythonHandler.uncaught options
     = Some (if Options.trackMemory options
             then "name 'true' is not defined"
             else "name 'false' is not defined")
  /\ (forall flag,
        PythonHandler.readCondition (PythonHandler.renderOption flag)
        <> PythonHandler.holds flag)
  /\ (forall parse hasCallback err,
        PythonHandler.settled
          (PythonHandler.executeCode parse hasCallback [] (Some err))
        = Some (PythonHandler.rejected (PythonHandler.shellError err))).
Proof.
  split; [apply python_program_stops|]. split; [|split].
  - unfold PythonHandler.uncaught.
    destruct (Options.trackMemory options); reflexivity.
  - intros flag. rewrite rendered_condition_raises. discriminate.
  - intros parse hasCallback err. destruct hasCallback; reflexivity.
Qed.
